(** * Retrieval-and-routing core of [api/rag.py]

    A shallow embedding of the intent classifier, the retriever, the mode
    decider, the summariser gate and the request handler, followed by the
    properties stated about them.

    Python values are modelled as follows.
    - [str] is [string], the UTF-8 bytes of the text.  [Str.lower] maps the
      ASCII capitals and leaves every other byte as it is: that is
      [str.lower] on ASCII text, and the properties that need more of it
      than that are stated for ASCII text.
    - [float] is the binary64 type [float] with the IEEE operations of
      [PrimFloat]; Python raises [ZeroDivisionError] where IEEE division
      would return an infinity or a NaN, and that is written out in [py_div].
      A distance handed over as a numpy scalar divides as IEEE says instead;
      [score] has both.
    - [int] is [Z]; slices follow Python's rule for negative bounds.
    - an exception is a value of [exn] carried by the [Raise] outcome. *)

From Stdlib Require Import Bool List ZArith Lia Ascii String.
From Stdlib Require Import Floats.
From Stdlib Require Import Sorting.Sorted Sorting.Permutation.
Import ListNotations.

Set Warnings "-register-all,-inexact-float".

Local Open Scope string_scope.
Local Open Scope list_scope.

(* ================================================================== *)
(** ** Strings *)

Module Str.

(** [c.lower()] on one byte of ASCII text. *)
Definition lower_ascii (c : ascii) : ascii :=
  let n := nat_of_ascii c in
  if (65 <=? n)%nat && (n <=? 90)%nat then ascii_of_nat (n + 32) else c.

(** [s.lower()] on ASCII text.  Outside ASCII, [str.lower] maps further
    letters, a few of them to ASCII letters (U+212A to [k]); the bytes of
    such letters are left as they are here. *)
Fixpoint lower (s : string) : string :=
  match s with
  | EmptyString => EmptyString
  | String c s' => String (lower_ascii c) (lower s')
  end.

(** [s.isascii()] *)
Fixpoint is_ascii (s : string) : bool :=
  match s with
  | EmptyString => true
  | String c s' => (nat_of_ascii c <? 128)%nat && is_ascii s'
  end.

(** A byte that continues a UTF-8 sequence: [10xxxxxx]. *)
Definition is_continuation (c : ascii) : bool :=
  let n := nat_of_ascii c in (128 <=? n)%nat && (n <? 192)%nat.

(** [s[:n]]: the first [n] characters, each with the bytes that continue
    it. *)
Fixpoint take_chars (n : nat) (s : string) : string :=
  match s with
  | EmptyString => EmptyString
  | String c s' =>
      if is_continuation c then String c (take_chars n s')
      else
        match n with
        | O => EmptyString
        | S n' => String c (take_chars n' s')
        end
  end.

(** [s.startswith(k)] *)
Fixpoint starts_with (k s : string) : bool :=
  match k, s with
  | EmptyString, _ => true
  | String _ _, EmptyString => false
  | String a k', String b s' => Ascii.eqb a b && starts_with k' s'
  end.

(** [k in s] for two strings: [k] occurs in [s] at some offset. *)
Fixpoint contains (k s : string) : bool :=
  starts_with k s ||
  match s with
  | EmptyString => false
  | String _ s' => contains k s'
  end.

End Str.

(* ================================================================== *)
(** ** Intent classifier *)

Definition NEC_KEYWORDS : list string :=
  [" nec "; "national electrical code"; "nfpa 70"; "article "].

Definition WATTMONK_KEYWORDS : list string :=
  ["wattmonk"; "policy"; "sla"; "pricing"; "services"; "turnaround"].

(** [any(k in s for k in ks)] *)
Definition any_in (ks : list string) (s : string) : bool :=
  existsb (fun k => Str.contains k s) ks.

(** [classify_intent(q)] for a string [q]; [q or ""] is [q] itself there. *)
Definition classify_intent (q : string) : string :=
  let s := Str.lower q in
  if any_in NEC_KEYWORDS s then "nec"
  else if any_in WATTMONK_KEYWORDS s then "wattmonk"
  else "general".

(* ================================================================== *)
(** ** Python values, exceptions and outcomes *)

(** Values that reach the code from a decoded JSON body or from the
    environment; [JNull] is Python's [None]. *)
Inductive json : Type :=
| JNull
| JBool (b : bool)
| JNum (n : Z)
| JReal (x : float)
| JStr (s : string)
| JArr (l : list json)
| JObj (kv : list (string * json)).

Inductive exn : Type :=
| ZeroDivisionError
| AttributeError
| TypeError
| KeyError
| JSONDecodeError
| ValidationError
| ExternalError (msg : string).

Inductive outcome (A : Type) : Type :=
| Ret (a : A)
| Raise (e : exn).

Arguments Ret {A} a.
Arguments Raise {A} e.

(** [bool(v)] *)
Definition truthy (v : json) : bool :=
  match v with
  | JNull => false
  | JBool b => b
  | JNum n => negb (n =? 0)%Z
  | JReal x => negb (x =? 0)%float
  | JStr s => negb (String.eqb s "")
  | JArr l => match l with [] => false | _ => true end
  | JObj kv => match kv with [] => false | _ => true end
  end.

(** [a or b] *)
Definition py_or (a b : json) : json := if truthy a then a else b.

(** Lookup in a dict given by its items. *)
Fixpoint assoc {V : Type} (k : string) (kv : list (string * V)) : option V :=
  match kv with
  | [] => None
  | (k', v) :: kv' => if String.eqb k k' then Some v else assoc k kv'
  end.

(** [d.get(k, default)]; a value without a [get] method raises. *)
Definition dict_get (d : json) (k : string) (default : json) : outcome json :=
  match d with
  | JObj kv => Ret (match assoc k kv with Some v => v | None => default end)
  | _ => Raise AttributeError
  end.

(** [l[:k]] *)
Definition slice_to {A : Type} (k : Z) (l : list A) : list A :=
  if (0 <=? k)%Z then firstn (Z.to_nat k) l
  else firstn (List.length l - Z.to_nat (- k)) l.

(** [l[-n:]] for a positive [n] *)
Definition slice_last {A : Type} (n : nat) (l : list A) : list A :=
  skipn (List.length l - n) l.

(** [x / y] on Python floats: Python raises on a zero divisor. *)
Definition py_div (x y : float) : outcome float :=
  if (y =? 0)%float then Raise ZeroDivisionError else Ret (x / y)%float.

(* ================================================================== *)
(** ** The process state and the effect monad *)

(** One call to the chat model: model name, credential, prompt. *)
Record llm_call : Type := LlmCall {
  call_model : string;
  call_key : json;
  call_prompt : string
}.

(** The module-level global [KEY_OVERRIDE] and the log of the calls made to
    the chat model. *)
Record Heap : Type := mkHeap {
  KEY_OVERRIDE : json;
  llm_log : list llm_call
}.

Definition M (A : Type) : Type := Heap -> outcome A * Heap.

Definition ret {A : Type} (a : A) : M A := fun h => (Ret a, h).
Definition raise {A : Type} (e : exn) : M A := fun h => (Raise e, h).

Definition bind {A B : Type} (m : M A) (f : A -> M B) : M B :=
  fun h =>
    match m h with
    | (Ret a, h') => f a h'
    | (Raise e, h') => (Raise e, h')
    end.

Notation "x <- m ;; k" := (bind m (fun x => k))
  (at level 61, m at next level, right associativity).
Notation "m ;;; k" := (bind m (fun _ => k))
  (at level 61, right associativity).

Definition lift {A : Type} (o : outcome A) : M A := fun h => (o, h).

Definition get_override : M json := fun h => (Ret (KEY_OVERRIDE h), h).

Definition set_override (v : json) : M unit :=
  fun h => (Ret tt, mkHeap v (llm_log h)).

Definition log_call (c : llm_call) : M unit :=
  fun h => (Ret tt, mkHeap (KEY_OVERRIDE h) (llm_log h ++ [c])).

(** [try: m  except Exception as e: handler(e)] *)
Definition try_except {A : Type} (m : M A) (handler : exn -> M A) : M A :=
  fun h =>
    match m h with
    | (Ret a, h') => (Ret a, h')
    | (Raise e, h') => handler e h'
    end.

(** [try: m  finally: fin]; an exception of [fin] replaces the outcome. *)
Definition try_finally {A : Type} (m : M A) (fin : M unit) : M A :=
  fun h =>
    let '(o, h') := m h in
    match fin h' with
    | (Ret _, h'') => (o, h'')
    | (Raise e, h'') => (Raise e, h'')
    end.

(** A list comprehension whose element expression may raise. *)
Fixpoint map_outcome {A B : Type} (f : A -> outcome B) (l : list A)
  : outcome (list B) :=
  match l with
  | [] => Ret []
  | x :: l' =>
      match f x with
      | Raise e => Raise e
      | Ret y =>
          match map_outcome f l' with
          | Raise e => Raise e
          | Ret ys => Ret (y :: ys)
          end
      end
  end.

(* ================================================================== *)
(** ** Documents, collections and the outside world *)

(** A langchain [Document]. *)
Record Document : Type := mkDocument {
  page_content : string;
  metadata : list (string * json)
}.

(** A loaded FAISS store: [similarity_search_with_score(query, k=n)] either
    raises or returns (document, distance) pairs. *)
Record VectorStore : Type := mkVectorStore {
  similarity_search_with_score : json -> Z -> outcome (list (Document * float))
}.

(** Everything the module reads from outside itself. *)
Record World : Type := mkWorld {
  (** [os.path.exists(os.path.join(DATA_DIR, name))] *)
  path_exists : string -> bool;
  (** [os.getenv("GOOGLE_API_KEY")], [JNull] when unset *)
  env_key : json;
  (** [FAISS.load_local(path, embeddings=...)]; the embeddings object is
      given by the credential it was built with, [None] without one *)
  load_local : string -> option json -> outcome VectorStore;
  (** [os.getenv("ENABLE_MEMORY_SUMMARY", "0") == "1"] *)
  ENABLE_MEMORY_SUMMARY : bool;
  (** [os.getenv("CHAT_MODEL", "gemini-1.5-flash")] *)
  CHAT_MODEL : string;
  (** [model.invoke(prompt)] followed by [getattr(out, 'content', '')] *)
  llm_invoke : string -> json -> string -> outcome string;
  (** [json.loads] *)
  json_loads : string -> outcome json;
  (** the text an f-string substitutes for a value *)
  format_value : json -> string;
  (** [GoogleGenerativeAIEmbeddings(model=EMBED_MODEL, google_api_key=key)]:
      the constructor validates its arguments and may raise; the object it
      builds is given by its credential *)
  GoogleGenerativeAIEmbeddings : json -> outcome unit;
  (** [ChatGoogleGenerativeAI(model=name, google_api_key=key,
      temperature=0.3)]: may raise as well; the object it builds is given by
      the model name and the credential *)
  ChatGoogleGenerativeAI : string -> json -> outcome unit;
  (** the stores hand the distances over as numpy scalars, as FAISS does,
      rather than as Python floats *)
  numpy_distances : bool
}.

(* ================================================================== *)
(** ** Credentials and model names *)

(** [get_key()]: [KEY_OVERRIDE or os.getenv("GOOGLE_API_KEY")] *)
Definition get_key (w : World) : M json :=
  o <- get_override ;; ret (py_or o (env_key w)).

(** An ASCII decimal digit. *)
Definition is_digit (c : ascii) : bool :=
  let n := nat_of_ascii c in (48 <=? n)%nat && (n <=? 57)%nat.

(** [re.sub(r"-00\d$", "", name)] on ASCII names that do not end in a
    newline.  [\d] also matches the decimal digits outside ASCII and [$] also
    matches before a final newline; there [re.sub] strips the suffix and this
    definition does not, so that on a name with such a digit
    [sanitize_model] may answer the other allowed name. *)
Definition strip_version (name : string) : string :=
  let n := String.length name in
  if (4 <=? n)%nat then
    match substring (n - 4) 4 name with
    | String "-" (String "0" (String "0" (String d EmptyString))) =>
        if is_digit d then substring 0 (n - 4) name else name
    | _ => name
    end
  else name.

Definition sanitize_model (name : string) : string :=
  let base := strip_version name in
  if String.eqb base "gemini-1.5-flash" || String.eqb base "gemini-1.5-pro"
  then base else "gemini-1.5-flash".

(* ================================================================== *)
(** ** Retriever *)

(** [load_vs(name)]: [None] when the index directory is missing or when
    loading raises.  The embeddings object is built from the credential
    before the [try], so what its constructor raises leaves [load_vs]. *)
Definition load_vs (w : World) (name : string) : M (option VectorStore) :=
  if negb (path_exists w name) then ret None
  else
    key <- get_key w ;;
    embeddings <- (if truthy key
                   then lift (GoogleGenerativeAIEmbeddings w key) ;;; ret (Some key)
                   else ret None) ;;
    ret (match load_local w name embeddings with
         | Ret vs => Some vs
         | Raise _ => None
         end).

(** [if vs: pools.append(vs)] *)
Definition append_if_loaded (pools : list VectorStore) (vs : option VectorStore)
  : list VectorStore :=
  match vs with
  | Some v => pools ++ [v]
  | None => pools
  end.

(** The stores searched for a routing hint. *)
Definition select_pools (w : World) (hint : string) : M (list VectorStore) :=
  if String.eqb hint "nec" then
    nec <- load_vs w "nec" ;; ret (append_if_loaded [] nec)
  else if String.eqb hint "wattmonk" then
    wm <- load_vs w "wattmonk" ;; ret (append_if_loaded [] wm)
  else
    nec <- load_vs w "nec" ;;
    wm <- load_vs w "wattmonk" ;;
    ret (append_if_loaded (append_if_loaded [] nec) wm).

(** The loop over [pools]: a search that raises is skipped. *)
Fixpoint gather (pools : list VectorStore) (query : json) (k : Z)
  (candidates : list (Document * float)) : list (Document * float) :=
  match pools with
  | [] => candidates
  | vs :: rest =>
      match similarity_search_with_score vs query (k * 2) with
      | Ret docs_and_scores => gather rest query k (candidates ++ docs_and_scores)
      | Raise _ => gather rest query k candidates
      end
  end.

(** [candidates.sort(key=lambda x: x[1])]: a stable sort that compares keys
    with [<] only.  On keys that [<] orders, that is on distances without a
    NaN, its result is the one of inserting every item behind the items that
    are not greater.  With a NaN among the keys the result of [list.sort]
    depends on the runs it finds and is not this one; what is stated about the
    order is stated for distances that are numbers. *)
Fixpoint insert_by_distance (c : Document * float) (l : list (Document * float))
  : list (Document * float) :=
  match l with
  | [] => [c]
  | c' :: l' =>
      if (snd c <? snd c')%float then c :: c' :: l'
      else c' :: insert_by_distance c l'
  end.

Definition sort_by_distance (l : list (Document * float)) : list (Document * float) :=
  fold_left (fun acc c => insert_by_distance c acc) l [].

(** [1.0/(1.0+s)]: for a Python float [s] a zero divisor raises; for a
    numpy scalar the division is the IEEE one, which gives an infinity
    there. *)
Definition score (numpy : bool) (s : float) : outcome float :=
  if numpy then Ret (1 / (1 + s))%float else py_div 1 (1 + s).

Definition retrieve (w : World) (query : json) (hint : string) (k : Z)
  : M (list Document * list float) :=
  pools <- select_pools w hint ;;
  match pools with
  | [] => ret ([], [])
  | _ =>
      let candidates := gather pools query k [] in
      match candidates with
      | [] => ret ([], [])
      | _ =>
          let candidates := sort_by_distance candidates in
          let docs := map fst (slice_to k candidates) in
          scores <- lift (map_outcome (fun c => score (numpy_distances w) (snd c))
                                      (slice_to k candidates)) ;;
          ret (docs, scores)
      end
  end.

(* ================================================================== *)
(** ** Mode decider *)

(** [max(x, *l)]: the first largest item, found with [>]. *)
Definition py_max (x : float) (l : list float) : float :=
  fold_left (fun m y => if (m <? y)%float then y else m) l x.

Definition max_score (scores : list float) : float :=
  match scores with
  | [] => 0%float
  | x :: l => py_max x l
  end.

Definition decide_mode (scores : list float) (intent : string) : string :=
  let max_s := max_score scores in
  if (String.eqb intent "nec" || String.eqb intent "wattmonk")
     && (0.25 <? max_s)%float then "rag"
  else if (0.7 <? max_s)%float then "rag"
  else "general".

(* ================================================================== *)
(** ** Conversation summary *)

Definition newline : string := String (ascii_of_nat 10) EmptyString.

Definition SUMMARY_PROMPT : string :=
  ("Summarize the following conversation briefly but keep key facts, user goals, constraints, and any conclusions."
   ++ newline ++ newline)%string.

(** [f"{m.get('role')}: {m.get('content')}"] *)
Definition format_message (w : World) (m : json) : outcome string :=
  match dict_get m "role" JNull with
  | Raise e => Raise e
  | Ret role =>
      match dict_get m "content" JNull with
      | Raise e => Raise e
      | Ret content =>
          Ret (format_value w role ++ ": " ++ format_value w content)%string
      end
  end.

(** [summarize_history(messages, model_name)].  The model object is built
    and the messages are formatted before the [try], which covers the call
    alone. *)
Definition summarize_history (w : World) (messages : list json) (model_name : string)
  : M string :=
  if negb (ENABLE_MEMORY_SUMMARY w) then ret ""
  else
    key <- get_key w ;;
    if negb (truthy (JArr messages)) || negb (truthy key) then ret ""
    else if negb (Z.of_nat (List.length messages) mod 6 =? 0)%Z then ret ""
    else
      let model := sanitize_model model_name in
      lift (ChatGoogleGenerativeAI w model key) ;;;
      let last := slice_last 20 messages in
      lines <- lift (map_outcome (format_message w) last) ;;
      let prompt := (SUMMARY_PROMPT ++ String.concat newline lines)%string in
      try_except
        (log_call (LlmCall model key prompt) ;;;
         out <- lift (llm_invoke w model key prompt) ;;
         (* [... or ''] *)
         ret (if String.eqb out "" then "" else out))
        (fun _ => ret "").

(* ================================================================== *)
(** ** The two-stage graph *)

(** One entry of [state["docs"]]. *)
Record StateDoc : Type := mkStateDoc {
  sd_text : string;
  sd_source : json;
  sd_metadata : list (string * json)
}.

(** The state dict threaded through the graph; an absent key is [None]. *)
Record GraphState : Type := mkGraphState {
  st_query : json;
  st_intent : option string;
  st_docs : option (list StateDoc);
  st_scores : option (list float);
  st_mode : option string
}.

(** [classify_intent(q)] on a value of any type: [(q or "").lower()] needs
    a string. *)
Definition classify_intent_value (q : json) : outcome string :=
  match py_or q (JStr "") with
  | JStr s => Ret (classify_intent s)
  | _ => Raise AttributeError
  end.

Definition _start (state : GraphState) : M GraphState :=
  let q := st_query state in
  intent <- lift (classify_intent_value q) ;;
  ret (mkGraphState (st_query state) (Some intent) (st_docs state)
                    (st_scores state) (st_mode state)).

(** [d.metadata.get(k, default)] *)
Definition metadata_get (md : list (string * json)) (k : string) (default : json) : json :=
  match assoc k md with
  | Some v => v
  | None => default
  end.

Definition state_doc (d : Document) : StateDoc :=
  mkStateDoc (page_content d)
             (py_or (metadata_get (metadata d) "source" JNull)
                    (metadata_get (metadata d) "file" (JStr "")))
             (metadata d).

Definition _retrieve (w : World) (state : GraphState) : M GraphState :=
  let q := st_query state in
  let intent := match st_intent state with Some i => i | None => "general" end in
  r <- retrieve w q intent 6 ;;
  let '(docs, scores) := r in
  ret (mkGraphState (st_query state) (st_intent state)
                    (Some (map state_doc docs))
                    (Some scores)
                    (Some (decide_mode scores intent))).

(** [_graph.invoke(state)]: [start], then [retrieve], then the end node. *)
Definition graph_invoke (w : World) (state : GraphState) : M GraphState :=
  s1 <- _start state ;; _retrieve w s1.

(* ================================================================== *)
(** ** Request handler *)

Record Request : Type := mkRequest {
  method : string;
  get_data : string
}.

Record OutDoc : Type := mkOutDoc {
  od_id : Z;
  od_text : string;
  od_source : json;
  od_file : json;
  od_score : float
}.

Inductive Payload : Type :=
| NoBody
| Answer (intent mode : string) (docs : list OutDoc) (memory_summary : string)
| Error (e : exn).

Record Response : Type := mkResponse {
  status : Z;
  payload : Payload
}.

(** [messages[-1]] for a truthy [messages]. *)
Definition last_item (v : json) : outcome json :=
  match v with
  | JArr l => match l with [] => Raise KeyError | x :: l' => Ret (List.last l' x) end
  | JStr s => Ret (JStr (substring (String.length s - 1) 1 s))
  | JObj _ => Raise KeyError
  | _ => Raise TypeError
  end.

(** The entries of [out_docs], numbered from [i + 1]. *)
Fixpoint shape_docs (i : nat) (docs : list StateDoc) (scores : list float)
  : list OutDoc :=
  match docs with
  | [] => []
  | d :: docs' =>
      mkOutDoc (Z.of_nat i + 1)
               (sd_text d)
               (py_or (py_or (metadata_get (sd_metadata d) "source" JNull)
                             (sd_source d))
                      (JStr ""))
               (metadata_get (sd_metadata d) "file" (JStr ""))
               (nth i scores 0%float)
      :: shape_docs (S i) docs' scores
  end.

(** The messages handed to [summarize_history]: at that point [messages] is
    either falsy or a list, and every falsy value is summarised as [""]
    like the empty list. *)
Definition message_list (messages : json) : list json :=
  match messages with
  | JArr l => l
  | _ => []
  end.

(** The body of the [try] block. *)
Definition handler_try (w : World) (request : Request) : M Response :=
  if String.eqb (method request) "OPTIONS" then ret (mkResponse 200 NoBody)
  else
    let body_text :=
      if String.eqb (get_data request) "" then "{}" else get_data request in
    data <- lift (json_loads w body_text) ;;
    api_key <- lift (dict_get data "apiKey" JNull) ;;
    set_override (py_or api_key JNull) ;;;
    messages <- lift (dict_get data "messages" (JArr [])) ;;
    query <- (if truthy messages
              then (m <- lift (last_item messages) ;; lift (dict_get m "content" JNull))
              else lift (dict_get data "query" (JStr ""))) ;;
    result <- graph_invoke w (mkGraphState query None None None None) ;;
    memory_summary <- summarize_history w (message_list messages) (CHAT_MODEL w) ;;
    let docs := match st_docs result with Some d => d | None => [] end in
    let scores := match st_scores result with Some s => s | None => [] end in
    let out_docs := shape_docs 0 docs scores in
    ret (mkResponse 200
           (Answer (match st_intent result with Some i => i | None => "general" end)
                   (match st_mode result with Some m => m | None => "general" end)
                   out_docs memory_summary)).

Definition handler (w : World) (request : Request) : M Response :=
  try_finally
    (try_except (handler_try w request)
                (fun e => ret (mkResponse 500 (Error e))))
    (try_except (set_override JNull) (fun _ => ret tt)).

(* ================================================================== *)
(** ** Notions used to state the properties *)

(** The threshold the mode decider applies to an intent. *)
Definition threshold (intent : string) : float :=
  if String.eqb intent "nec" || String.eqb intent "wattmonk"
  then 0.25%float else 0.7%float.

(** A float that is not a NaN. *)
Definition is_number (x : float) : Prop := (x =? x)%float = true.

(** [m] is a maximum of [scores]: one of them, and none of them is above
    it. *)
Definition is_maximum (m : float) (scores : list float) : Prop :=
  In m scores /\ Forall (fun s => (s <=? m)%float = true) scores.

(** The position of a binary64 value in the order of [<]: sign class, then
    exponent, then mantissa, both reversed below zero. *)
Definition fkey (x : spec_float) : Z * Z * Z :=
  match x with
  | S754_nan => (0, 0, 0)
  | S754_infinity true => (-2, 0, 0)
  | S754_finite true m e => (-1, - e, - Zpos m)
  | S754_zero _ => (0, 0, 0)
  | S754_finite false m e => (1, e, Zpos m)
  | S754_infinity false => (2, 0, 0)
  end%Z.

Definition key (x : float) : Z * Z * Z := fkey (Prim2SF x).

Definition lex_lt (a b : Z * Z * Z) : Prop :=
  let '(a1, a2, a3) := a in
  let '(b1, b2, b3) := b in
  (a1 < b1 \/ (a1 = b1 /\ (a2 < b2 \/ (a2 = b2 /\ a3 < b3))))%Z.

(** The embeddings object [load_vs] builds in a given heap, when its
    constructor returns. *)
Definition embeddings_for (w : World) (h : Heap) : option json :=
  let key := py_or (KEY_OVERRIDE h) (env_key w) in
  if truthy key then Some key else None.

(** What the constructor of the embeddings object raises in a given heap;
    without a credential nothing is constructed. *)
Definition embeddings_error (w : World) (h : Heap) : option exn :=
  let key := py_or (KEY_OVERRIDE h) (env_key w) in
  if truthy key then
    match GoogleGenerativeAIEmbeddings w key with
    | Ret _ => None
    | Raise e => Some e
    end
  else None.

(** The store of a collection, when its directory exists and it loads with
    the embeddings object. *)
Definition available (w : World) (h : Heap) (name : string) : option VectorStore :=
  if path_exists w name then
    match load_local w name (embeddings_for w h) with
    | Ret vs => Some vs
    | Raise _ => None
    end
  else None.

(** The collections a routing label selects. *)
Definition selected_collections (hint : string) : list string :=
  if String.eqb hint "nec" then ["nec"]
  else if String.eqb hint "wattmonk" then ["wattmonk"]
  else ["nec"; "wattmonk"].

(** The exception that leaves [load_vs] for a routing label: the one of the
    embeddings constructor, reached when the directory of a selected
    collection exists. *)
Definition load_failure (w : World) (h : Heap) (hint : string) : option exn :=
  if existsb (path_exists w) (selected_collections hint)
  then embeddings_error w h else None.

(** What one collection contributes when asked for [n] neighbours: nothing
    when it is unavailable or when its search raises. *)
Definition collection_candidates (w : World) (h : Heap) (query : json) (n : Z)
  (name : string) : list (Document * float) :=
  match available w h name with
  | Some vs =>
      match similarity_search_with_score vs query n with
      | Ret l => l
      | Raise _ => []
      end
  | None => []
  end.

(** The candidate list: [2k] neighbours of every selected collection,
    concatenated. *)
Definition fused_candidates (w : World) (h : Heap) (query : json) (hint : string)
  (k : Z) : list (Document * float) :=
  flat_map (collection_candidates w h query (2 * k)) (selected_collections hint).

(** Documents and scores of a list of kept candidates. *)
Definition docs_and_scores (numpy : bool) (kept : list (Document * float))
  : outcome (list Document * list float) :=
  match map_outcome (fun c => score numpy (snd c)) kept with
  | Ret scores => Ret (map fst kept, scores)
  | Raise e => Raise e
  end.

(** What [retrieve] comes to in a heap it only reads: the exception of the
    embeddings constructor, or the fused candidates ranked, cut and
    scored. *)
Definition retrieve_outcome (w : World) (h : Heap) (query : json) (hint : string)
  (k : Z) : outcome (list Document * list float) :=
  match load_failure w h hint with
  | Some e => Raise e
  | None =>
      docs_and_scores (numpy_distances w)
        (slice_to k (sort_by_distance (fused_candidates w h query hint k)))
  end.

(** The retriever as the specification words it: fuse, sort ascending by
    distance, keep the first [k]. *)
Definition retrieve_spec (w : World) (h : Heap) (query : json) (hint : string)
  (k : Z) : outcome (list Document * list float) :=
  docs_and_scores (numpy_distances w)
    (firstn (Z.to_nat k) (sort_by_distance (fused_candidates w h query hint k))).

(** Ascending by distance. *)
Definition distance_le (a b : Document * float) : Prop :=
  (snd a <=? snd b)%float = true.

(** A collection fails: its directory is missing, loading it raises, or its
    search for [n] neighbours raises. *)
Definition collection_failed (w : World) (h : Heap) (query : json) (n : Z)
  (name : string) : Prop :=
  path_exists w name = false \/
  (exists e, load_local w name (embeddings_for w h) = Raise e) \/
  (exists vs e, load_local w name (embeddings_for w h) = Ret vs /\
                similarity_search_with_score vs query n = Raise e).

(* ================================================================== *)
(** ** Sample worlds *)

Definition sample_doc (text source : string) : Document :=
  mkDocument text [("source", JStr source)].

(** A store that returns the first [n] entries of a fixed ranking. *)
Definition fixed_store (ranking : list (Document * float)) : VectorStore :=
  mkVectorStore (fun _ n => Ret (firstn (Z.to_nat n) ranking)).

(** A store whose every search raises. *)
Definition broken_store : VectorStore :=
  mkVectorStore (fun _ _ => Raise (ExternalError "search failed")).

Definition sample_nec_store : VectorStore :=
  fixed_store [(sample_doc "Article 250 covers grounding and bonding." "nec.pdf", 0.5%float);
               (sample_doc "GFCI protection in kitchens." "nec.pdf", 0.1%float)].

Definition sample_wattmonk_store : VectorStore :=
  fixed_store [(sample_doc "Turnaround is one business day." "wattmonk.docx", 0.3%float)].

(** [json.loads] on the one body the samples use. *)
Definition sample_json_loads (s : string) : outcome json :=
  if String.eqb s "{}" then Ret (JObj []) else Raise JSONDecodeError.

(** The two constructors on the samples: they take a string for the
    credential and reject every other value. *)
Definition string_key (key : json) : outcome unit :=
  match key with
  | JStr _ => Ret tt
  | _ => Raise ValidationError
  end.

(** Both collections are on disk and load. *)
Definition sample_world : World :=
  mkWorld (fun _ => true)
          (JStr "env-key")
          (fun name _ =>
             if String.eqb name "nec" then Ret sample_nec_store
             else if String.eqb name "wattmonk" then Ret sample_wattmonk_store
             else Raise (ExternalError "no index"))
          true
          "gemini-1.5-flash"
          (fun _ _ _ => Ret "summary")
          sample_json_loads
          (fun _ => "")
          string_key
          (fun _ => string_key)
          false.

(** The topic-A directory is missing, topic B loads and its search raises. *)
Definition failing_world : World :=
  mkWorld (fun name => String.eqb name "wattmonk")
          JNull
          (fun _ _ => Ret broken_store)
          false
          "gemini-1.5-flash"
          (fun _ _ _ => Raise (ExternalError "no model"))
          sample_json_loads
          (fun _ => "")
          string_key
          (fun _ => string_key)
          false.

Definition empty_heap : Heap := mkHeap JNull [].

(* ================================================================== *)
(** ** Notions used to analyse binary64 rounding *)

Section RoundingNotions.
Local Open Scope Z_scope.

(** The shift record of the fraction [N / D]: integer part, round bit,
    sticky bit. *)
Definition rec_of (N D : Z) : shr_record :=
  {| shr_m := N / D;
     shr_r := D <=? 2 * (N mod D);
     shr_s := negb (N mod D =? 0) && negb (2 * (N mod D) =? D) |}.

(** Where [N / D] lies between two consecutive integers. *)
Definition loc_frac (N D : Z) : location :=
  if N mod D =? 0 then loc_Exact else loc_Inexact (2 * (N mod D) ?= D).

(** [N / D] rounded to the nearest integer, ties to even. *)
Definition rne (N D : Z) : Z :=
  match 2 * (N mod D) ?= D with
  | Lt => N / D
  | Eq => if Z.even (N / D) then N / D else N / D + 1
  | Gt => N / D + 1
  end.

(** The float with mantissa [M] and exponent [t], renormalised: the last
    step of [binary_round_aux]. *)
Definition encode (M t : Z) : spec_float :=
  let '(mrs, e) := shr_fexp prec emax M t loc_Exact in
  match shr_m mrs with
  | Z0 => S754_zero false
  | Zpos m => if e <=? emax - prec then S754_finite false m e else S754_infinity false
  | Zneg _ => S754_nan
  end.

(** The exponent at which [binary_round_aux] rounds [N / D * 2^e]. *)
Definition target (N D e : Z) : Z :=
  Z.max e (fexp prec emax (Zdigits2 (N / D) + e)).

(** The key of [encode M t]. *)
Definition okey (M t : Z) : Z * Z * Z :=
  if M =? 0 then (0, 0, 0)
  else if M =? 2 ^ 53 then (if t + 1 <=? 971 then (1, t + 1, 2 ^ 52) else (2, 0, 0))
  else (if t <=? 971 then (1, t, M) else (2, 0, 0)).

(** The signed value of a finite float in units of [2^-1074]. *)
Definition uval (x : spec_float) : Z :=
  match x with
  | S754_finite false m e => Zpos m * 2 ^ (e + 1074)
  | S754_finite true m e => - (Zpos m * 2 ^ (e + 1074))
  | _ => 0
  end.

Definition is_finite_or_zero (x : spec_float) : bool :=
  match x with
  | S754_finite _ _ _ | S754_zero _ => true
  | _ => false
  end.

(** The floats 1.0 and -1.0. *)
Definition sf_one : spec_float := S754_finite false 4503599627370496 (-52).
Definition sf_minus_one : spec_float := S754_finite true 4503599627370496 (-52).

(** Finite and positive, or plus infinity. *)
Definition sf_positive (x : spec_float) : Prop :=
  (exists m e, x = S754_finite false m e) \/ x = S754_infinity false.

End RoundingNotions.

(** Scores in rank order never increase. *)
Definition score_ge (a b : float) : Prop := (b <=? a)%float = true.

(** A world whose topic-A collection reports the distances 0 and -3. *)
Definition signed_world : World :=
  mkWorld (fun _ => true)
          JNull
          (fun _ _ => Ret (fixed_store [(sample_doc "exact match" "a.pdf", 0%float);
                                        (sample_doc "inner product" "b.pdf", (-3)%float)]))
          false
          "gemini-1.5-flash"
          (fun _ _ _ => Raise (ExternalError "no model"))
          sample_json_loads
          (fun _ => "")
          string_key
          (fun _ => string_key)
          false.

(* ================================================================== *)
(** ** Command-line entry point ([tools/rag_cli.py]) *)

Module RagCli.

(** The entries of [out_docs] as the CLI shapes them: the source is
    [md.get("source") or d.get("source")], with no final [or ""]. *)
Fixpoint shape_docs (i : nat) (docs : list StateDoc) (scores : list float)
  : list OutDoc :=
  match docs with
  | [] => []
  | d :: docs' =>
      mkOutDoc (Z.of_nat i + 1)
               (sd_text d)
               (py_or (metadata_get (sd_metadata d) "source" JNull) (sd_source d))
               (metadata_get (sd_metadata d) "file" (JStr ""))
               (nth i scores 0%float)
      :: shape_docs (S i) docs' scores
  end.

(** [main()]: the body is read from standard input and the answer written
    to standard output; the result is the answer written. *)
Definition main (w : World) (stdin : string) : M Payload :=
  let body_text := if String.eqb stdin "" then "{}" else stdin in
  data <- lift (json_loads w body_text) ;;
  messages <- lift (dict_get data "messages" (JArr [])) ;;
  query <- (if truthy messages
            then (m <- lift (last_item messages) ;; lift (dict_get m "content" JNull))
            else lift (dict_get data "query" (JStr ""))) ;;
  result <- graph_invoke w (mkGraphState query None None None None) ;;
  memory_summary <- summarize_history w (message_list messages) (CHAT_MODEL w) ;;
  let docs := match st_docs result with Some d => d | None => [] end in
  let scores := match st_scores result with Some s => s | None => [] end in
  let out_docs := shape_docs 0 docs scores in
  ret (Answer (match st_intent result with Some i => i | None => "general" end)
              (match st_mode result with Some m => m | None => "general" end)
              out_docs memory_summary).

End RagCli.

(* ================================================================== *)
(** ** Index construction ([tools/build_faiss.py]) *)

Module BuildFaiss.

(** What [build_index] reads from outside itself. *)
Record Env : Type := mkEnv {
  (** [splitter.split_documents(docs)]: text splitting, taken to return *)
  split_documents : list Document -> list Document;
  (** [os.getenv("MAX_CHUNKS")], [None] when unset *)
  MAX_CHUNKS : option string;
  (** [int(s)] *)
  py_int : string -> outcome Z;
  (** building the embeddings object, [FAISS.from_documents(chunks,
      embeddings)] and [vs.save_local(out_dir)]: may raise *)
  embed_and_save : string -> list Document -> outcome unit
}.

(** What a run of [build_index] leaves on disk. *)
Inductive written : Type :=
| EmptyMarker (name : string)
| Index (name : string) (chunks : list Document).

(** The cap applied to the split sequence. *)
Definition cap_chunks (env : Env) (chunks : list Document) : list Document :=
  match MAX_CHUNKS env with
  | None => chunks
  | Some max_chunks_env =>
      if String.eqb max_chunks_env "" then chunks
      else
        match py_int env max_chunks_env with
        | Ret mc => if (0 <? mc)%Z then slice_to mc chunks else chunks
        | Raise _ => chunks
        end
  end.

Definition build_index (env : Env) (name : string) (docs : list Document)
  : outcome written :=
  match docs with
  | [] => Ret (EmptyMarker name)
  | _ =>
      let chunks := cap_chunks env (split_documents env docs) in
      match embed_and_save env name chunks with
      | Ret _ => Ret (Index name chunks)
      | Raise e => Raise e
      end
  end.

(** The two source files, as the script finds them.  A file that exists is
    taken to stay there and to load the same way each time it is loaded. *)
Record Files : Type := mkFiles {
  (** [NEC_PATH.exists()] *)
  nec_exists : bool;
  (** [WM_PATH.exists()] *)
  wm_exists : bool;
  (** [PyPDFLoader(str(NEC_PATH)).load()] *)
  load_pdf : outcome (list Document);
  (** [Docx2txtLoader(str(WM_PATH)).load()] *)
  load_docx : outcome (list Document)
}.

(** [NEC_PATH.name] and [WM_PATH.name] *)
Definition NEC_NAME : string := "2017-NEC-Code-2.pdf".
Definition WM_NAME : string := "Wattmonk Information.docx".

Definition load_docs (fs : Files) : outcome (list Document) :=
  match (if nec_exists fs then load_pdf fs else Ret []) with
  | Raise e => Raise e
  | Ret pdf =>
      match (if wm_exists fs then load_docx fs else Ret []) with
      | Raise e => Raise e
      | Ret docx => Ret (([] ++ pdf) ++ docx)
      end
  end.

(** [word in (d.metadata.get("source", "") + d.page_content[:100]) or
    name in d.metadata.get("source", "")]; a source that is no string
    cannot be added to the text. *)
Definition mentions (word name : string) (d : Document) : outcome bool :=
  match metadata_get (metadata d) "source" (JStr "") with
  | JStr source =>
      Ret (Str.contains word (source ++ Str.take_chars 100 (page_content d))
           || Str.contains name source)
  | _ => Raise TypeError
  end.

(** A list comprehension with a condition that may raise. *)
Fixpoint filter_outcome {A : Type} (f : A -> outcome bool) (l : list A)
  : outcome (list A) :=
  match l with
  | [] => Ret []
  | x :: l' =>
      match f x with
      | Raise e => Raise e
      | Ret b =>
          match filter_outcome f l' with
          | Raise e => Raise e
          | Ret r => Ret (if b then x :: r else r)
          end
      end
  end.

(** [if not docs and path.exists(): docs = loader.load()] *)
Definition fallback (docs : list Document) (file_exists : bool)
  (load : outcome (list Document)) : outcome (list Document) :=
  match docs with
  | [] => if file_exists then load else Ret docs
  | _ => Ret docs
  end.

(** [main()]: what it has written when it stops, and how it stops. *)
Definition main (env : Env) (fs : Files) : list written * outcome unit :=
  match load_docs fs with
  | Raise e => ([], Raise e)
  | Ret all_docs =>
      match filter_outcome (mentions "NEC" NEC_NAME) all_docs with
      | Raise e => ([], Raise e)
      | Ret nec_docs =>
          match filter_outcome (mentions "Wattmonk" WM_NAME) all_docs with
          | Raise e => ([], Raise e)
          | Ret wm_docs =>
              match fallback nec_docs (nec_exists fs) (load_pdf fs) with
              | Raise e => ([], Raise e)
              | Ret nec_docs =>
                  match fallback wm_docs (wm_exists fs) (load_docx fs) with
                  | Raise e => ([], Raise e)
                  | Ret wm_docs =>
                      match build_index env "nec" nec_docs with
                      | Raise e => ([], Raise e)
                      | Ret nec =>
                          match build_index env "wattmonk" wm_docs with
                          | Raise e => ([nec], Raise e)
                          | Ret wm => ([nec; wm], Ret tt)
                          end
                      end
                  end
              end
          end
      end
  end.

End BuildFaiss.

(* ================================================================== *)
(** ** Notions used to state further properties *)

(** The keyword [kw] occurs in [q] in some letter case. *)
Definition occurs_in (kw q : string) : Prop :=
  exists pre occ post, q = (pre ++ occ ++ post)%string /\ Str.lower occ = kw.

(** The routing labels and the modes. *)
Definition INTENTS : list string := ["nec"; "wattmonk"; "general"].
Definition MODES : list string := ["rag"; "general"].

(** The same world with another [GOOGLE_API_KEY] in the environment. *)
Definition with_env_key (w : World) (k : json) : World :=
  mkWorld (path_exists w) k (load_local w) (ENABLE_MEMORY_SUMMARY w) (CHAT_MODEL w)
          (llm_invoke w) (json_loads w) (format_value w)
          (GoogleGenerativeAIEmbeddings w) (ChatGoogleGenerativeAI w)
          (numpy_distances w).

(** The handler's [source] of a document, from the CLI's: [... or ""]. *)
Definition blank_source (d : OutDoc) : OutDoc :=
  mkOutDoc (od_id d) (od_text d) (py_or (od_source d) (JStr "")) (od_file d) (od_score d).

(** The credential in force in a heap. *)
Definition key_in_force (w : World) (h : Heap) : json :=
  py_or (KEY_OVERRIDE h) (env_key w).

(** The part of [summarize_history] behind the credential: result and calls
    made, for the credential [key]; what the constructor of the model object
    raises is let out before anything is formatted or called. *)
Definition summarize_with (w : World) (key : json) (messages : list json)
  (model_name : string) : outcome string * list llm_call :=
  if negb (ENABLE_MEMORY_SUMMARY w) then (Ret "", [])
  else if negb (truthy (JArr messages)) || negb (truthy key) then (Ret "", [])
  else if negb (Z.of_nat (List.length messages) mod 6 =? 0)%Z then (Ret "", [])
  else
    match ChatGoogleGenerativeAI w (sanitize_model model_name) key with
    | Raise e => (Raise e, [])
    | Ret _ =>
        match map_outcome (format_message w) (slice_last 20 messages) with
        | Raise e => (Raise e, [])
        | Ret lines =>
            let prompt := (SUMMARY_PROMPT ++ String.concat newline lines)%string in
            let call := LlmCall (sanitize_model model_name) key prompt in
            (match llm_invoke w (sanitize_model model_name) key prompt with
             | Ret out => Ret out
             | Raise _ => Ret ""
             end, [call])
        end
    end.

(** The distance below which a single candidate grounds the answer:
    3.0 for the two topical intents, the binary64 value of 3/7 for any
    other intent. *)
Definition distance_bound (intent : string) : float :=
  if String.eqb intent "nec" || String.eqb intent "wattmonk"
  then 3%float else 0x1.b6db6db6db6dbp-2%float.

(** The query of a parsed body: the content of the last message when there
    are messages, the ["query"] field otherwise. *)
Definition request_query (data messages : json) : outcome json :=
  if truthy messages then
    match last_item messages with
    | Raise e => Raise e
    | Ret m => dict_get m "content" JNull
    end
  else dict_get data "query" (JStr "").

(** The answer to a parsed body in a heap: what the handler and the CLI do
    after parsing, with the way [shape] of shaping the documents. *)
Definition answer_to (shape : list StateDoc -> list float -> list OutDoc)
  (w : World) (data : json) (h : Heap) : outcome Payload * Heap :=
  match dict_get data "messages" (JArr []) with
  | Raise e => (Raise e, h)
  | Ret messages =>
      match request_query data messages with
      | Raise e => (Raise e, h)
      | Ret query =>
          match fst (graph_invoke w (mkGraphState query None None None None) h) with
          | Raise e => (Raise e, h)
          | Ret result =>
              let s := summarize_with w (key_in_force w h) (message_list messages)
                                      (CHAT_MODEL w) in
              (match fst s with
               | Raise e => Raise e
               | Ret memory_summary =>
                   Ret (Answer
                          (match st_intent result with Some i => i | None => "general" end)
                          (match st_mode result with Some m => m | None => "general" end)
                          (shape (match st_docs result with Some d => d | None => [] end)
                                 (match st_scores result with Some s => s | None => [] end))
                          memory_summary)
               end,
               mkHeap (KEY_OVERRIDE h) (llm_log h ++ snd s))
          end
      end
  end.

(** The handler's payload for the CLI's. *)
Definition blank_sources (p : Payload) : Payload :=
  match p with
  | Answer intent mode docs memory_summary =>
      Answer intent mode (map blank_source docs) memory_summary
  | _ => p
  end.

(** The override a request body sets: its truthy ["apiKey"], else [None]. *)
Definition body_api_key (data : json) : json :=
  match data with
  | JObj kv => py_or (match assoc "apiKey" kv with Some v => v | None => JNull end) JNull
  | _ => JNull
  end.

(** The text the handler parses. *)
Definition body_text (request : Request) : string :=
  if String.eqb (get_data request) "" then "{}" else get_data request.

(** *** A world that parses a few chat bodies *)

Definition quoted (s : string) : string :=
  (String (ascii_of_nat 34) s ++ String (ascii_of_nat 34) "")%string.

Definition chat_messages : json :=
  JArr [JObj [("role", JStr "user"); ("content", JStr "What does article 250 cover?")]].

Definition chat_messages_text : string :=
  ("[{" ++ quoted "role" ++ ": " ++ quoted "user" ++ ", "
        ++ quoted "content" ++ ": " ++ quoted "What does article 250 cover?" ++ "}]")%string.

(** [{"messages": [...]}] *)
Definition chat_body : string :=
  ("{" ++ quoted "messages" ++ ": " ++ chat_messages_text ++ "}")%string.

(** [{"query": "pricing", "messages": [...]}] *)
Definition chat_body_with_query : string :=
  ("{" ++ quoted "query" ++ ": " ++ quoted "pricing" ++ ", "
       ++ quoted "messages" ++ ": " ++ chat_messages_text ++ "}")%string.

(** [{"apiKey": "request-key", "messages": [...]}] *)
Definition chat_body_with_key : string :=
  ("{" ++ quoted "apiKey" ++ ": " ++ quoted "request-key" ++ ", "
       ++ quoted "messages" ++ ": " ++ chat_messages_text ++ "}")%string.

(** [json.loads] on these bodies. *)
Definition chat_json_loads (s : string) : outcome json :=
  if String.eqb s "{}" then Ret (JObj [])
  else if String.eqb s "[]" then Ret (JArr [])
  else if String.eqb s chat_body then Ret (JObj [("messages", chat_messages)])
  else if String.eqb s chat_body_with_query
  then Ret (JObj [("query", JStr "pricing"); ("messages", chat_messages)])
  else if String.eqb s chat_body_with_key
  then Ret (JObj [("apiKey", JStr "request-key"); ("messages", chat_messages)])
  else Raise JSONDecodeError.

(** [sample_world] with this parser and without a key in the environment. *)
Definition chat_world : World :=
  mkWorld (path_exists sample_world) JNull (load_local sample_world)
          (ENABLE_MEMORY_SUMMARY sample_world) (CHAT_MODEL sample_world)
          (llm_invoke sample_world) chat_json_loads (format_value sample_world)
          (GoogleGenerativeAIEmbeddings sample_world)
          (ChatGoogleGenerativeAI sample_world) (numpy_distances sample_world).

(** A store that returns its whole ranking, whatever number of neighbours
    it is asked for. *)
Definition whole_store (ranking : list (Document * float)) : VectorStore :=
  mkVectorStore (fun _ _ => Ret ranking).

(** Only the topic-A collection is there, with three documents. *)
Definition whole_world : World :=
  mkWorld (fun name => String.eqb name "nec")
          JNull
          (fun _ _ => Ret (whole_store [(sample_doc "third" "a.pdf", 0.3%float);
                                        (sample_doc "first" "b.pdf", 0.1%float);
                                        (sample_doc "second" "c.pdf", 0.2%float)]))
          false
          "gemini-1.5-flash"
          (fun _ _ _ => Raise (ExternalError "no model"))
          sample_json_loads
          (fun _ => "")
          string_key
          (fun _ => string_key)
          false.

(** A process whose override is a list, as after a body with
    ["apiKey": ["a"]]. *)
Definition list_key_heap : Heap := mkHeap (JArr [JStr "a"]) [].

(* ================================================================== *)
(** * Properties *)

(* ------------------------------------------------------------------ *)
(** ** Substring search and lower-casing *)

Lemma starts_with_app (k post : string) :
  Str.starts_with k (k ++ post)%string = true.
Proof.
  induction k as [|a k IH]; simpl.
  - reflexivity.
  - rewrite Ascii.eqb_refl. exact IH.
Qed.

Lemma starts_with_split (k s : string) :
  Str.starts_with k s = true -> exists post, s = (k ++ post)%string.
Proof.
  revert s. induction k as [|a k IH]; intros s H.
  - exists s. reflexivity.
  - destruct s as [|b s]; simpl in H; [discriminate|].
    apply andb_prop in H. destruct H as [Hab Hk].
    apply Ascii.eqb_eq in Hab. subst b.
    destruct (IH _ Hk) as [post ->]. exists post. reflexivity.
Qed.

Lemma contains_app (k pre post : string) :
  Str.contains k (pre ++ k ++ post)%string = true.
Proof.
  induction pre as [|c pre IH].
  - simpl. destruct (k ++ post)%string eqn:E.
    + simpl. rewrite <- E, starts_with_app. reflexivity.
    + simpl Str.contains. rewrite <- E, starts_with_app. reflexivity.
  - simpl. rewrite IH. apply orb_true_r.
Qed.

Lemma contains_split (k s : string) :
  Str.contains k s = true -> exists pre post, s = (pre ++ k ++ post)%string.
Proof.
  induction s as [|c s IH]; simpl; intros H.
  - rewrite orb_false_r in H. apply starts_with_split in H.
    destruct H as [post ->]. exists ""%string, post. reflexivity.
  - apply orb_prop in H. destruct H as [H|H].
    + apply starts_with_split in H. destruct H as [post ->].
      exists ""%string, post. reflexivity.
    + destruct (IH H) as (pre & post & ->).
      exists (String c pre), post. reflexivity.
Qed.

Lemma lower_app (a b : string) :
  Str.lower (a ++ b)%string = (Str.lower a ++ Str.lower b)%string.
Proof.
  induction a as [|c a IH]; simpl; [reflexivity | now rewrite IH].
Qed.

Lemma any_in_intro (ks : list string) (k s : string) :
  In k ks -> Str.contains k s = true -> any_in ks s = true.
Proof.
  intros Hin Hc. unfold any_in. apply existsb_exists. exists k. split; assumption.
Qed.

Lemma classify_intent_nec_iff (q : string) :
  classify_intent q = "nec" <-> any_in NEC_KEYWORDS (Str.lower q) = true.
Proof.
  unfold classify_intent.
  destruct (any_in NEC_KEYWORDS (Str.lower q)); [tauto|].
  destruct (any_in WATTMONK_KEYWORDS (Str.lower q)); split; discriminate.
Qed.

(** The keyword [" nec "] carries its two spaces, and keywords match inside
    longer words. *)
Example classify_scenarios :
  classify_intent "What does NEC Article 250 say about grounding?" = "nec" /\
  classify_intent "What is the NEC requirement for GFCI outlets in kitchens?" = "nec" /\
  classify_intent "NEC requirements" = "general" /\
  classify_intent "What services does Wattmonk provide?" = "wattmonk" /\
  classify_intent "Please translate this" = "wattmonk" /\
  classify_intent "Tell me a joke about electricity" = "general" /\
  classify_intent "" = "general".
Proof. repeat split. Qed.

(** C1: a query in which a regulatory keyword occurs, in any letter case
    and between any surrounding text, is classified ["nec"] (topic A); the
    surrounding text is arbitrary, so it may hold organisation keywords too. *)
Theorem classify_intent_regulatory (kw pre occ post : string) :
  In kw NEC_KEYWORDS ->
  Str.lower occ = kw ->
  classify_intent (pre ++ occ ++ post) = "nec".
Proof.
  intros Hin Hocc.
  apply classify_intent_nec_iff.
  apply any_in_intro with (k := kw); [exact Hin|].
  rewrite !lower_app, Hocc. apply contains_app.
Qed.

Lemma classify_intent_regulatory_witness :
  In "article " NEC_KEYWORDS /\
  Str.lower "ARTICLE " = "article " /\
  classify_intent ("Wattmonk pricing under NEC " ++ "ARTICLE " ++ "250?") = "nec".
Proof.
  split; [simpl; tauto|]. split; [reflexivity|].
  apply (classify_intent_regulatory "article " "Wattmonk pricing under NEC "
           "ARTICLE " "250?"); [simpl; tauto | reflexivity].
Defined.

(* ------------------------------------------------------------------ *)
(** ** The order of binary64 comparisons *)

Lemma SFcompare_trichotomy (a b : spec_float) :
  a <> S754_nan -> b <> S754_nan ->
  (SFcompare a b = Some Lt /\ lex_lt (fkey a) (fkey b)) \/
  (SFcompare a b = Some Eq /\ fkey a = fkey b) \/
  (SFcompare a b = Some Gt /\ lex_lt (fkey b) (fkey a)).
Proof.
  intros Ha Hb.
  destruct a as [sa|sa| |sa ma ea]; try congruence;
  destruct b as [sb|sb| |sb mb eb]; try congruence;
  try destruct sa; try destruct sb; simpl;
  try (left; split; [reflexivity | lia]);
  try (right; left; split; reflexivity);
  try (right; right; split; [reflexivity | lia]);
  change (Pos.compare_cont Eq ma mb) with (ma ?= mb)%positive;
  destruct (Z.compare_spec ea eb); destruct (Pos.compare_spec ma mb); simpl; subst;
  try (left; split; [reflexivity | lia]);
  try (right; left; split; reflexivity);
  try (right; right; split; [reflexivity | lia]).
Qed.

Lemma SFcompare_nan_l (b : spec_float) : SFcompare S754_nan b = None.
Proof. reflexivity. Qed.

Lemma SFcompare_nan_r (a : spec_float) : SFcompare a S754_nan = None.
Proof. destruct a; reflexivity. Qed.

Lemma is_number_spec (x : float) : is_number x <-> Prim2SF x <> S754_nan.
Proof.
  unfold is_number. rewrite eqb_spec. unfold SFeqb. split.
  - intros H E. rewrite E in H. discriminate.
  - intros H. destruct (SFcompare_trichotomy (Prim2SF x) (Prim2SF x) H H)
      as [[E L]|[[E _]|[E L]]]; rewrite E; try reflexivity;
      exfalso; destruct (fkey (Prim2SF x)) as [[k1 k2] k3]; simpl in L; lia.
Qed.

(** The outcome of every comparison between two numbers, read off their
    keys. *)
Lemma float_trichotomy (x y : float) :
  is_number x -> is_number y ->
  (lex_lt (key x) (key y) /\
   (x <? y)%float = true /\ (x <=? y)%float = true /\ (x =? y)%float = false /\
   (y <? x)%float = false /\ (y <=? x)%float = false) \/
  (key x = key y /\
   (x <? y)%float = false /\ (x <=? y)%float = true /\ (x =? y)%float = true /\
   (y <? x)%float = false /\ (y <=? x)%float = true) \/
  (lex_lt (key y) (key x) /\
   (x <? y)%float = false /\ (x <=? y)%float = false /\ (x =? y)%float = false /\
   (y <? x)%float = true /\ (y <=? x)%float = true).
Proof.
  intros Hx Hy. apply is_number_spec in Hx. apply is_number_spec in Hy.
  unfold key. rewrite !ltb_spec, !leb_spec, !eqb_spec.
  unfold SFltb, SFleb, SFeqb.
  destruct (SFcompare_trichotomy _ _ Hx Hy) as [[E L]|[[E L]|[E L]]];
  destruct (SFcompare_trichotomy _ _ Hy Hx) as [[E' L']|[[E' L']|[E' L']]];
  rewrite E, E';
  destruct (fkey (Prim2SF x)) as [[a1 a2] a3];
  destruct (fkey (Prim2SF y)) as [[b1 b2] b3]; simpl in *;
  try (injection L as -> -> ->); try (injection L' as ? ? ?);
  first
    [ exfalso; lia
    | left; repeat split; solve [reflexivity | lia]
    | right; left; repeat split; solve [reflexivity | lia]
    | right; right; repeat split; solve [reflexivity | lia] ].
Qed.

Lemma ltb_is_number (x y : float) :
  (x <? y)%float = true -> is_number x /\ is_number y.
Proof.
  rewrite ltb_spec. unfold SFltb. intros H.
  split; apply is_number_spec; intros E; rewrite E in H.
  - rewrite SFcompare_nan_l in H. discriminate.
  - rewrite SFcompare_nan_r in H. discriminate.
Qed.

Lemma leb_is_number (x y : float) :
  (x <=? y)%float = true -> is_number x /\ is_number y.
Proof.
  rewrite leb_spec. unfold SFleb. intros H.
  split; apply is_number_spec; intros E; rewrite E in H.
  - rewrite SFcompare_nan_l in H. discriminate.
  - rewrite SFcompare_nan_r in H. discriminate.
Qed.

(** Decides a goal about comparisons of three numbers from their keys. *)
Ltac by_keys x y z Hx Hy Hz :=
  destruct (float_trichotomy x y Hx Hy) as [(?&?&?&?&?&?)|[(?&?&?&?&?&?)|(?&?&?&?&?&?)]];
  destruct (float_trichotomy y z Hy Hz) as [(?&?&?&?&?&?)|[(?&?&?&?&?&?)|(?&?&?&?&?&?)]];
  destruct (float_trichotomy x z Hx Hz) as [(?&?&?&?&?&?)|[(?&?&?&?&?&?)|(?&?&?&?&?&?)]];
  try congruence;
  exfalso;
  destruct (key x) as [[? ?] ?]; destruct (key y) as [[? ?] ?];
  destruct (key z) as [[? ?] ?]; simpl in *;
  repeat match goal with H : (_, _, _) = (_, _, _) |- _ => injection H as ? ? ? end;
  lia.

Lemma ltb_trans (x y z : float) :
  (x <? y)%float = true -> (y <? z)%float = true -> (x <? z)%float = true.
Proof.
  intros H1 H2.
  destruct (ltb_is_number _ _ H1) as [Hx Hy].
  destruct (ltb_is_number _ _ H2) as [_ Hz].
  by_keys x y z Hx Hy Hz.
Qed.

Lemma leb_trans (x y z : float) :
  (x <=? y)%float = true -> (y <=? z)%float = true -> (x <=? z)%float = true.
Proof.
  intros H1 H2.
  destruct (leb_is_number _ _ H1) as [Hx Hy].
  destruct (leb_is_number _ _ H2) as [_ Hz].
  by_keys x y z Hx Hy Hz.
Qed.

Lemma ltb_leb_trans (x y z : float) :
  (x <? y)%float = true -> (y <=? z)%float = true -> (x <? z)%float = true.
Proof.
  intros H1 H2.
  destruct (ltb_is_number _ _ H1) as [Hx Hy].
  destruct (leb_is_number _ _ H2) as [_ Hz].
  by_keys x y z Hx Hy Hz.
Qed.


Lemma not_ltb_leb (x y : float) :
  is_number x -> is_number y -> (x <? y)%float = false -> (y <=? x)%float = true.
Proof.
  intros Hx Hy H.
  destruct (float_trichotomy x y Hx Hy) as [(?&?&?&?&?&?)|[(?&?&?&?&?&?)|(?&?&?&?&?&?)]];
    congruence.
Qed.

Lemma ltb_leb (x y : float) : (x <? y)%float = true -> (x <=? y)%float = true.
Proof.
  intros H. destruct (ltb_is_number _ _ H) as [Hx Hy].
  destruct (float_trichotomy x y Hx Hy) as [(?&?&?&?&?&?)|[(?&?&?&?&?&?)|(?&?&?&?&?&?)]];
    congruence.
Qed.

Lemma leb_refl (x : float) : is_number x -> (x <=? x)%float = true.
Proof.
  intros Hx.
  destruct (float_trichotomy x x Hx Hx) as [(?&?&?&?&?&?)|[(?&?&?&?&?&?)|(?&?&?&?&?&?)]];
    congruence.
Qed.

Lemma ltb_irrefl (x : float) : (x <? x)%float = false.
Proof.
  destruct (x <? x)%float eqn:E; [|reflexivity].
  destruct (ltb_is_number _ _ E) as [Hx _].
  destruct (float_trichotomy x x Hx Hx) as [(?&?&?&?&?&?)|[(?&?&?&?&?&?)|(?&?&?&?&?&?)]];
    congruence.
Qed.

(* ------------------------------------------------------------------ *)
(** ** Mode decider *)

Lemma threshold_order : (0.25 <? 0.7)%float = true.
Proof. vm_compute. reflexivity. Qed.

Lemma above_general_above_topical (x : float) :
  (0.7 <? x)%float = true -> (0.25 <? x)%float = true.
Proof. intros H. exact (ltb_trans 0.25 0.7 x threshold_order H). Qed.

(** [py_max] returns an item at least as large as every item. *)
Lemma py_max_upper (l : list float) (x : float) :
  is_number x -> Forall is_number l ->
  is_number (py_max x l) /\
  (x <=? py_max x l)%float = true /\
  Forall (fun y => (y <=? py_max x l)%float = true) l.
Proof.
  revert x. induction l as [|y l IH]; intros x Hx Hl; simpl.
  - split; [exact Hx|]. split; [apply leb_refl; exact Hx | constructor].
  - inversion Hl as [|? ? Hy Hl']; subst.
    unfold py_max in *. simpl.
    destruct (x <? y)%float eqn:E.
    + destruct (IH y Hy Hl') as (Hn & Hle & Hall).
      split; [exact Hn|]. split.
      * apply leb_trans with y; [apply ltb_leb; exact E | exact Hle].
      * constructor; assumption.
    + destruct (IH x Hx Hl') as (Hn & Hle & Hall).
      split; [exact Hn|]. split; [exact Hle|].
      constructor; [|exact Hall].
      apply leb_trans with x; [apply not_ltb_leb; assumption | exact Hle].
Qed.

Lemma py_max_in (l : list float) (x : float) : In (py_max x l) (x :: l).
Proof.
  revert x. induction l as [|y l IH]; intros x; unfold py_max in *; simpl.
  - left. reflexivity.
  - destruct (x <? y)%float.
    + right. apply IH.
    + destruct (IH x) as [H|H]; [left; exact H | right; right; exact H].
Qed.

(** On scores that are numbers, the maximum exceeds a bound exactly when
    some score does. *)
Lemma max_score_exceeds (t : float) (scores : list float) :
  scores <> [] -> Forall is_number scores ->
  ((t <? max_score scores)%float = true <->
   Exists (fun s => (t <? s)%float = true) scores).
Proof.
  intros Hne Hall. destruct scores as [|x l]; [congruence|]. simpl.
  inversion Hall as [|? ? Hx Hl]; subst.
  destruct (py_max_upper l x Hx Hl) as (_ & Hle & Hles).
  split.
  - intros H. apply Exists_exists. exists (py_max x l). split; [apply py_max_in | exact H].
  - intros H. apply Exists_exists in H. destruct H as (s & Hin & Hs).
    apply ltb_leb_trans with s; [exact Hs|].
    destruct Hin as [<-|Hin]; [exact Hle|].
    rewrite Forall_forall in Hles. apply Hles. exact Hin.
Qed.

Example decide_mode_scenarios :
  decide_mode [0x1.d1745d1745d17p-1%float] "nec" = "rag" /\
  decide_mode [0.25%float] "wattmonk" = "general" /\
  decide_mode [0.5%float] "wattmonk" = "rag" /\
  decide_mode [0.5%float] "general" = "general" /\
  decide_mode [0.7%float] "general" = "general" /\
  decide_mode [0.1%float; 0.75%float; 0.2%float] "general" = "rag".
Proof. repeat split. Qed.

(** A NaN in front hides the scores behind it: 0.9 is a score, no score is
    above it and it exceeds 0.7, and the answer is ["general"]. *)
Lemma decide_mode_nan_hides_maximum :
  decide_mode [nan; 0.9%float] "general" = "general" /\
  In 0.9%float [nan; 0.9%float] /\
  Forall (fun s => (0.9 <? s)%float = false) [nan; 0.9%float] /\
  (threshold "general" <? 0.9)%float = true.
Proof.
  split; [reflexivity|]. split; [right; left; reflexivity|].
  split; [repeat constructor | reflexivity].
Qed.

Lemma max_score_is_maximum (scores : list float) :
  scores <> [] -> Forall is_number scores -> is_maximum (max_score scores) scores.
Proof.
  intros Hne Hall. destruct scores as [|x l]; [congruence|]. cbn [max_score].
  inversion Hall as [|? ? Hx Hl]; subst.
  destruct (py_max_upper l x Hx Hl) as (_ & Hle & Hles).
  split; [apply py_max_in|]. constructor; assumption.
Qed.

Lemma maximum_exceeds (t m m' : float) (scores : list float) :
  is_maximum m scores -> is_maximum m' scores ->
  (t <? m)%float = true -> (t <? m')%float = true.
Proof.
  intros [Hin _] [_ Hall] H.
  rewrite Forall_forall in Hall.
  exact (ltb_leb_trans _ _ _ H (Hall m Hin)).
Qed.

(** C2, amended: on scores without NaN, [decide_mode] answers ["rag"]
    (grounded) exactly when the maximum score is strictly above the
    threshold of the intent, 0.25 for ["nec"] and ["wattmonk"] and 0.7 for
    any other intent, and ["general"] (ungrounded) otherwise; scores that
    are not empty have a maximum; no scores count as a maximum of 0.0 and
    give ["general"], and so does a maximum equal to the threshold. *)
Theorem decide_mode_threshold (scores : list float) (intent : string) :
  Forall is_number scores ->
  (forall m, is_maximum m scores ->
     (decide_mode scores intent = "rag" <-> (threshold intent <? m)%float = true) /\
     (m = threshold intent -> decide_mode scores intent = "general")) /\
  (scores <> [] -> exists m, is_maximum m scores) /\
  (decide_mode scores intent <> "rag" -> decide_mode scores intent = "general") /\
  (scores = [] ->
   (decide_mode scores intent = "rag" <-> (threshold intent <? 0)%float = true) /\
   decide_mode scores intent = "general") /\
  threshold intent =
    (if String.eqb intent "nec" || String.eqb intent "wattmonk"
     then 0.25 else 0.7)%float.
Proof.
  intros Hnum.
  assert (Hiff : forall sc, decide_mode sc intent = "rag" <->
                   (threshold intent <? max_score sc)%float = true).
  { intros sc. unfold decide_mode, threshold.
    destruct (String.eqb intent "nec" || String.eqb intent "wattmonk"); simpl.
    - destruct (0.25 <? max_score sc)%float eqn:E25; [tauto|].
      destruct (0.7 <? max_score sc)%float eqn:E7.
      + apply above_general_above_topical in E7. congruence.
      + split; discriminate.
    - destruct (0.7 <? max_score sc)%float; split; try discriminate; reflexivity. }
  assert (Hgen : forall sc, decide_mode sc intent <> "rag" ->
                   decide_mode sc intent = "general").
  { intros sc. unfold decide_mode.
    destruct ((String.eqb intent "nec" || String.eqb intent "wattmonk")
              && (0.25 <? max_score sc)%float); [congruence|].
    destruct (0.7 <? max_score sc)%float; congruence. }
  assert (Hmax : forall m, is_maximum m scores ->
            (decide_mode scores intent = "rag" <->
             (threshold intent <? m)%float = true)).
  { intros m Hm.
    assert (Hne : scores <> []) by (destruct Hm as [Hin _]; intros ->; exact Hin).
    pose proof (max_score_is_maximum scores Hne Hnum) as Hc.
    rewrite Hiff. split; apply maximum_exceeds with scores; assumption. }
  split.
  { intros m Hm. split; [apply Hmax; exact Hm|].
    intros ->. apply Hgen. rewrite (Hmax _ Hm), ltb_irrefl. discriminate. }
  split.
  { intros Hne. exists (max_score scores). apply max_score_is_maximum; assumption. }
  split; [apply Hgen|].
  split; [|reflexivity].
  intros ->. split; [apply Hiff|].
  apply Hgen. rewrite Hiff. simpl. unfold threshold.
  destruct (String.eqb intent "nec" || String.eqb intent "wattmonk");
    vm_compute; discriminate.
Qed.

Lemma decide_mode_threshold_witness :
  is_maximum 0.75%float [0.1%float; 0.75%float; 0.2%float] /\
  (decide_mode [0.1%float; 0.75%float; 0.2%float] "general" = "rag" <->
   (threshold "general" <? 0.75)%float = true).
Proof.
  assert (Hn : Forall is_number [0.1%float; 0.75%float; 0.2%float])
    by (repeat constructor).
  assert (Hm : is_maximum 0.75%float [0.1%float; 0.75%float; 0.2%float]).
  { split; [right; left; reflexivity | repeat constructor]. }
  split; [exact Hm|].
  exact (proj1 (proj1 (decide_mode_threshold
                         [0.1%float; 0.75%float; 0.2%float] "general" Hn) _ Hm)).
Defined.

(* ------------------------------------------------------------------ *)
(** ** Retriever: running the effectful code *)

Lemma bind_get_key {A : Type} (w : World) (f : json -> M A) (h : Heap) :
  (key <- get_key w ;; f key) h = f (py_or (KEY_OVERRIDE h) (env_key w)) h.
Proof. reflexivity. Qed.

Lemma load_vs_run (w : World) (name : string) (h : Heap) :
  load_vs w name h =
  (match (if path_exists w name then embeddings_error w h else None) with
   | Some e => Raise e
   | None => Ret (available w h name)
   end, h).
Proof.
  unfold load_vs, available, embeddings_for, embeddings_error.
  destruct (path_exists w name); cbn [negb]; [|reflexivity].
  rewrite bind_get_key. cbv zeta.
  destruct (truthy (py_or (KEY_OVERRIDE h) (env_key w))); [|reflexivity].
  unfold bind, lift, ret.
  destruct (GoogleGenerativeAIEmbeddings w (py_or (KEY_OVERRIDE h) (env_key w)));
    reflexivity.
Qed.

Lemma select_pools_run (w : World) (hint : string) (h : Heap) :
  select_pools w hint h =
  (match load_failure w h hint with
   | Some e => Raise e
   | None =>
       Ret (flat_map (fun name => match available w h name with
                                  | Some vs => [vs]
                                  | None => []
                                  end) (selected_collections hint))
   end, h).
Proof.
  unfold select_pools, load_failure, selected_collections.
  destruct (String.eqb hint "nec"); [|destruct (String.eqb hint "wattmonk")];
    unfold bind; rewrite ?load_vs_run; cbn [existsb orb flat_map app];
    unfold available;
    repeat match goal with |- context [path_exists ?w ?n] =>
             destruct (path_exists w n) end;
    cbn [orb]; rewrite ?load_vs_run; unfold available;
    destruct (embeddings_error w h); try reflexivity;
    unfold ret, append_if_loaded; cbn [app];
    repeat match goal with |- context [load_local ?w ?n ?e] =>
             destruct (load_local w n e) end; reflexivity.
Qed.

Lemma gather_flat_map (pools : list VectorStore) (query : json) (k : Z)
  (acc : list (Document * float)) :
  gather pools query k acc =
  acc ++ flat_map (fun vs => match similarity_search_with_score vs query (k * 2) with
                             | Ret l => l
                             | Raise _ => []
                             end) pools.
Proof.
  revert acc. induction pools as [|vs rest IH]; intros acc; simpl.
  - now rewrite app_nil_r.
  - destruct (similarity_search_with_score vs query (k * 2)); rewrite IH.
    + now rewrite app_assoc.
    + reflexivity.
Qed.

Lemma gather_fused (w : World) (h : Heap) (query : json) (hint : string) (k : Z) :
  gather (flat_map (fun name => match available w h name with
                                | Some vs => [vs]
                                | None => []
                                end) (selected_collections hint)) query k [] =
  fused_candidates w h query hint k.
Proof.
  rewrite gather_flat_map. simpl. unfold fused_candidates.
  rewrite (Z.mul_comm 2 k).
  induction (selected_collections hint) as [|name names IH]; simpl; [reflexivity|].
  rewrite flat_map_app, IH. f_equal.
  unfold collection_candidates. destruct (available w h name); simpl.
  - now rewrite app_nil_r.
  - reflexivity.
Qed.

Lemma slice_to_nil {A : Type} (k : Z) : slice_to k (@nil A) = [].
Proof. unfold slice_to. destruct (0 <=? k)%Z; apply firstn_nil. Qed.

(** The code of [retrieve] computes: rank the fused candidates, slice, score.
    The heap is read, never written. *)
Lemma retrieve_fused (w : World) (query : json) (hint : string) (k : Z) (h : Heap) :
  retrieve w query hint k h =
  (match load_failure w h hint with
   | Some e => Raise e
   | None =>
       docs_and_scores (numpy_distances w)
         (slice_to k (sort_by_distance (fused_candidates w h query hint k)))
   end, h).
Proof.
  unfold retrieve, bind. rewrite select_pools_run.
  destruct (load_failure w h hint) as [e|]; [reflexivity|].
  pose proof (gather_fused w h query hint k) as G.
  destruct (flat_map _ (selected_collections hint)) as [|vs pools] eqn:P.
  - simpl in G. rewrite <- G. unfold sort_by_distance. simpl.
    rewrite slice_to_nil. reflexivity.
  - rewrite G.
    destruct (fused_candidates w h query hint k) as [|c cs] eqn:F.
    + unfold sort_by_distance. simpl. rewrite slice_to_nil. reflexivity.
    + unfold lift, docs_and_scores, ret.
      destruct (map_outcome _ _); reflexivity.
Qed.

(* ------------------------------------------------------------------ *)
(** ** The sort *)

Lemma insert_by_distance_perm (c : Document * float) (l : list (Document * float)) :
  Permutation (insert_by_distance c l) (c :: l).
Proof.
  induction l as [|c' l IH]; simpl.
  - apply Permutation_refl.
  - destruct (snd c <? snd c')%float.
    + apply Permutation_refl.
    + apply perm_trans with (c' :: c :: l).
      * apply perm_skip. exact IH.
      * apply perm_swap.
Qed.

Lemma fold_insert_perm (l acc : list (Document * float)) :
  Permutation (fold_left (fun a c => insert_by_distance c a) l acc) (acc ++ l).
Proof.
  revert acc. induction l as [|c l IH]; intros acc; simpl.
  - rewrite app_nil_r. apply Permutation_refl.
  - eapply perm_trans; [apply IH|].
    apply perm_trans with ((c :: acc) ++ l).
    + apply Permutation_app_tail. apply insert_by_distance_perm.
    + simpl. apply Permutation_middle.
Qed.

Lemma sort_by_distance_perm (l : list (Document * float)) :
  Permutation (sort_by_distance l) l.
Proof. unfold sort_by_distance. apply (fold_insert_perm l []). Qed.

Lemma insert_by_distance_sorted (c : Document * float) (l : list (Document * float)) :
  is_number (snd c) -> Forall (fun x => is_number (snd x)) l ->
  StronglySorted distance_le l ->
  StronglySorted distance_le (insert_by_distance c l).
Proof.
  intros Hc Hl Hs. induction Hs as [|c' l Hs IH Hall]; simpl.
  - constructor; constructor.
  - inversion Hl as [|? ? Hc' Hl']; subst.
    destruct (snd c <? snd c')%float eqn:E.
    + constructor.
      * constructor; assumption.
      * constructor.
        -- apply ltb_leb. exact E.
        -- eapply Forall_impl; [|exact Hall].
           intros x Hx. unfold distance_le in *.
           apply leb_trans with (snd c'); [apply ltb_leb; exact E | exact Hx].
    + constructor.
      * apply IH. exact Hl'.
      * apply (Permutation_Forall (Permutation_sym (insert_by_distance_perm c l))).
        constructor; [|exact Hall].
        unfold distance_le. apply not_ltb_leb; assumption.
Qed.

Lemma fold_insert_sorted (l acc : list (Document * float)) :
  Forall (fun x => is_number (snd x)) l ->
  Forall (fun x => is_number (snd x)) acc ->
  StronglySorted distance_le acc ->
  StronglySorted distance_le (fold_left (fun a c => insert_by_distance c a) l acc).
Proof.
  revert acc. induction l as [|c l IH]; intros acc Hl Hacc Hs; simpl.
  - exact Hs.
  - inversion Hl as [|? ? Hc Hl']; subst.
    apply IH; [exact Hl' | | apply insert_by_distance_sorted; assumption].
    apply (Permutation_Forall (Permutation_sym (insert_by_distance_perm c acc))).
    constructor; assumption.
Qed.

Lemma sort_by_distance_sorted (l : list (Document * float)) :
  Forall (fun x => is_number (snd x)) l ->
  StronglySorted distance_le (sort_by_distance l).
Proof.
  intros Hl. unfold sort_by_distance.
  apply fold_insert_sorted; [exact Hl | constructor | constructor].
Qed.

Lemma eqb_is_number (x y : float) :
  (x =? y)%float = true -> is_number x /\ is_number y.
Proof.
  rewrite eqb_spec. unfold SFeqb. intros H.
  split; apply is_number_spec; intros E; rewrite E in H.
  - rewrite SFcompare_nan_l in H. discriminate.
  - rewrite SFcompare_nan_r in H. discriminate.
Qed.

(** Nothing equal to [y] lies above something that a value equal to [y] is
    below. *)
Lemma eqb_ltb_leb_false (x y z w : float) :
  (x =? y)%float = true -> (x <? z)%float = true -> (z <=? w)%float = true ->
  (w =? y)%float = false.
Proof.
  intros E L Le.
  destruct (w =? y)%float eqn:F; [|reflexivity]. exfalso.
  destruct (eqb_is_number _ _ E) as [Hx Hy].
  destruct (eqb_is_number _ _ F) as [Hw _].
  pose proof (ltb_leb_trans _ _ _ L Le) as Lw.
  destruct (float_trichotomy x y Hx Hy) as [(?&?&?&?&?&?)|[(Kxy&?&?&?&?&?)|(?&?&?&?&?&?)]];
    try congruence.
  destruct (float_trichotomy w y Hw Hy) as [(?&?&?&?&?&?)|[(Kwy&?&?&?&?&?)|(?&?&?&?&?&?)]];
    try congruence.
  destruct (float_trichotomy x w Hx Hw) as [(Kxw&?&?&?&?&?)|[(?&?&?&?&?&?)|(?&?&?&?&?&?)]];
    try congruence.
  rewrite Kxy, <- Kwy in Kxw.
  destruct (key w) as [[a b] c]. simpl in Kxw. lia.
Qed.

(** An inserted item ends behind the items of its own distance. *)
Lemma insert_by_distance_stable (d : float) (c : Document * float)
  (l : list (Document * float)) :
  StronglySorted distance_le l ->
  filter (fun x => (snd x =? d)%float) (insert_by_distance c l) =
  filter (fun x => (snd x =? d)%float) l ++ filter (fun x => (snd x =? d)%float) [c].
Proof.
  intros Hs. induction Hs as [|c' l Hs IH Hall].
  - simpl. destruct (snd c =? d)%float; reflexivity.
  - cbn [insert_by_distance].
    destruct (snd c <? snd c')%float eqn:L.
    + cbn [filter]. destruct (snd c =? d)%float eqn:E.
      * assert (Hc' : (snd c' =? d)%float = false).
        { apply (eqb_ltb_leb_false (snd c) d (snd c') (snd c') E L).
          apply leb_refl. apply (ltb_is_number _ _ L). }
        rewrite Hc'.
        assert (Hl : filter (fun x => (snd x =? d)%float) l = []).
        { clear IH Hs. induction Hall as [|y l Hy Hall IHl]; [reflexivity|].
          cbn [filter]. rewrite (eqb_ltb_leb_false _ _ _ _ E L Hy). exact IHl. }
        rewrite Hl. reflexivity.
      * rewrite app_nil_r. reflexivity.
    + cbn [filter]. rewrite IH.
      destruct (snd c' =? d)%float; reflexivity.
Qed.

(** Sorting keeps the order of the items of any one distance. *)
Lemma sort_by_distance_stable (d : float) (l : list (Document * float)) :
  Forall (fun x => is_number (snd x)) l ->
  filter (fun x => (snd x =? d)%float) (sort_by_distance l) =
  filter (fun x => (snd x =? d)%float) l.
Proof.
  intros Hl. unfold sort_by_distance.
  assert (G : forall l acc,
            Forall (fun x => is_number (snd x)) l ->
            Forall (fun x => is_number (snd x)) acc ->
            StronglySorted distance_le acc ->
            filter (fun x => (snd x =? d)%float)
                   (fold_left (fun a c => insert_by_distance c a) l acc) =
            filter (fun x => (snd x =? d)%float) acc ++
            filter (fun x => (snd x =? d)%float) l).
  { clear l Hl. induction l as [|c l IH]; intros acc Hl Hacc Hs; simpl fold_left.
    - simpl. now rewrite app_nil_r.
    - inversion Hl as [|? ? Hc Hl']; subst.
      rewrite IH; [| exact Hl' | | apply insert_by_distance_sorted; assumption].
      + rewrite insert_by_distance_stable by exact Hs.
        rewrite <- app_assoc. f_equal.
        cbn [filter]. destruct (snd c =? d)%float; reflexivity.
      + apply (Permutation_Forall (Permutation_sym (insert_by_distance_perm c acc))).
        constructor; assumption. }
  apply (G l []); [exact Hl | constructor | constructor].
Qed.

Lemma slice_to_nonneg {A : Type} (k : Z) (l : list A) :
  (0 <= k)%Z -> slice_to k l = firstn (Z.to_nat k) l.
Proof.
  intros Hk. unfold slice_to.
  destruct (0 <=? k)%Z eqn:E; [reflexivity|].
  apply Z.leb_gt in E. lia.
Qed.

Lemma slice_to_length {A : Type} (k : Z) (l : list A) :
  List.length (slice_to k l) =
  if (0 <=? k)%Z then Nat.min (Z.to_nat k) (List.length l)
  else (List.length l - Z.to_nat (- k))%nat.
Proof.
  unfold slice_to. destruct (0 <=? k)%Z; rewrite length_firstn; lia.
Qed.

(* ------------------------------------------------------------------ *)
(** ** Documents and scores *)

Lemma map_outcome_length {A B : Type} (f : A -> outcome B) (l : list A) (r : list B) :
  map_outcome f l = Ret r -> List.length r = List.length l.
Proof.
  revert r. induction l as [|x l IH]; intros r H; simpl in H.
  - injection H as <-. reflexivity.
  - destruct (f x); [|discriminate].
    destruct (map_outcome f l); [|discriminate].
    injection H as <-. simpl. f_equal. apply IH. reflexivity.
Qed.

Lemma map_outcome_raise {A B : Type} (f : A -> outcome B) (l : list A) (e : exn) :
  map_outcome f l = Raise e -> exists x, In x l /\ f x = Raise e.
Proof.
  induction l as [|x l IH]; simpl; intros H; [discriminate|].
  destruct (f x) eqn:Fx.
  - destruct (map_outcome f l); [discriminate|].
    injection H as ->. destruct (IH eq_refl) as (y & Hin & Hy).
    exists y. split; [right; exact Hin | exact Hy].
  - injection H as ->. exists x. split; [left; reflexivity | exact Fx].
Qed.

Lemma score_raise (numpy : bool) (d : float) (e : exn) :
  score numpy d = Raise e ->
  numpy = false /\ e = ZeroDivisionError /\ (1 + d =? 0)%float = true.
Proof.
  unfold score, py_div. destruct numpy; [discriminate|].
  destruct (1 + d =? 0)%float; intros H; [|discriminate].
  injection H as <-. repeat split.
Qed.

Lemma docs_and_scores_lengths (numpy : bool) (kept : list (Document * float)) :
  match docs_and_scores numpy kept with
  | Ret (docs, scores) =>
      List.length docs = List.length kept /\ List.length scores = List.length kept
  | Raise e =>
      numpy = false /\ e = ZeroDivisionError /\
      exists c, In c kept /\ (1 + snd c =? 0)%float = true
  end.
Proof.
  unfold docs_and_scores.
  destruct (map_outcome (fun c => score numpy (snd c)) kept) as [scores|e] eqn:E.
  - split; [apply length_map | eapply map_outcome_length; exact E].
  - apply map_outcome_raise in E. destruct E as (c & Hin & Hc).
    apply score_raise in Hc. destruct Hc as (-> & -> & Hz).
    split; [reflexivity|]. split; [reflexivity|]. exists c. split; assumption.
Qed.

Lemma slice_to_incl {A : Type} (k : Z) (l : list A) (x : A) :
  In x (slice_to k l) -> In x l.
Proof.
  assert (F : forall n, In x (firstn n l) -> In x l).
  { intros n H. rewrite <- (firstn_skipn n l). apply in_or_app. left. exact H. }
  unfold slice_to. destruct (0 <=? k)%Z; apply F.
Qed.

(** Without a failure of the embeddings constructor, [retrieve] ranks the
    fused candidates, slices and scores. *)
Lemma retrieve_loaded (w : World) (query : json) (hint : string) (k : Z) (h : Heap) :
  load_failure w h hint = None ->
  retrieve w query hint k h =
  (docs_and_scores (numpy_distances w)
     (slice_to k (sort_by_distance (fused_candidates w h query hint k))), h).
Proof. intros L. rewrite retrieve_fused, L. reflexivity. Qed.

(* ------------------------------------------------------------------ *)
(** ** Retriever: selection, fusion and ranking *)

Lemma StronglySorted_related {A : Type} (R : A -> A -> Prop) (l : list A) (x y : A) :
  StronglySorted R l -> In x l -> In y l -> x = y \/ R x y \/ R y x.
Proof.
  induction 1 as [|a l Hs IH Hall]; intros Hx Hy; [contradiction|].
  rewrite Forall_forall in Hall.
  destruct Hx as [<-|Hx], Hy as [<-|Hy].
  - left. reflexivity.
  - right. left. apply Hall. exact Hy.
  - right. right. apply Hall. exact Hx.
  - apply IH; assumption.
Qed.

(** A count below zero cuts the ranking from its end; a credential the
    embeddings constructor rejects makes [retrieve] raise; and candidates
    with a NaN among their distances have no ascending order at all.  In none
    of these cases does [retrieve] return the first [k] candidates of an
    ascending ranking. *)
Lemma retrieve_not_always_first_k :
  (exists docs scores,
     retrieve whole_world (JStr "q") "nec" (-1) empty_heap = (Ret (docs, scores), empty_heap) /\
     map page_content docs = ["first"; "second"] /\
     retrieve_spec whole_world empty_heap (JStr "q") "nec" (-1) = Ret ([], [])) /\
  retrieve sample_world (JStr "q") "nec" 6 list_key_heap =
    (Raise ValidationError, list_key_heap) /\
  (forall ranked,
     Permutation ranked [(sample_doc "a" "a.pdf", 1%float);
                         (sample_doc "b" "b.pdf", nan);
                         (sample_doc "c" "c.pdf", 0.5%float)] ->
     ~ StronglySorted distance_le ranked).
Proof.
  split.
  { eexists. eexists. split; [vm_compute; reflexivity|].
    split; reflexivity. }
  split; [reflexivity|].
  intros ranked P S.
  assert (Ha : In (sample_doc "a" "a.pdf", 1%float) ranked).
  { apply (Permutation_in _ (Permutation_sym P)). left. reflexivity. }
  assert (Hb : In (sample_doc "b" "b.pdf", nan) ranked).
  { apply (Permutation_in _ (Permutation_sym P)). right. left. reflexivity. }
  destruct (StronglySorted_related _ _ _ _ S Ha Hb) as [E|[L|L]].
  - discriminate E.
  - unfold distance_le in L. cbn [snd] in L. vm_compute in L. discriminate L.
  - unfold distance_le in L. cbn [snd] in L. vm_compute in L. discriminate L.
Qed.

(** C3, amended: for a count [k >= 0], when the embeddings object is built
    and the distances are numbers, [retrieve] takes the candidates of the
    collections its hint selects (["nec"] alone, ["wattmonk"] alone, or
    both), asking each available one for [2k] neighbours, concatenates them,
    sorts the whole list by distance (ascending and stable), and returns the
    first [k]. *)
Theorem retrieve_fuses_and_ranks (w : World) (query : json) (hint : string)
  (k : Z) (h : Heap) :
  (0 <= k)%Z ->
  load_failure w h hint = None ->
  Forall (fun c => is_number (snd c)) (fused_candidates w h query hint k) ->
  let per_collection := collection_candidates w h query (2 * k) in
  let fused := fused_candidates w h query hint k in
  let ranked := sort_by_distance fused in
  fused =
    (if String.eqb hint "nec" then per_collection "nec"
     else if String.eqb hint "wattmonk" then per_collection "wattmonk"
     else per_collection "nec" ++ per_collection "wattmonk") /\
  Permutation ranked fused /\
  StronglySorted distance_le ranked /\
  (forall d, filter (fun c => (snd c =? d)%float) ranked =
             filter (fun c => (snd c =? d)%float) fused) /\
  retrieve w query hint k h =
    (docs_and_scores (numpy_distances w) (firstn (Z.to_nat k) ranked), h) /\
  retrieve w query hint k h = (retrieve_spec w h query hint k, h).
Proof.
  intros Hk Hl Hnum per_collection fused ranked.
  assert (R : retrieve w query hint k h =
              (docs_and_scores (numpy_distances w) (firstn (Z.to_nat k) ranked), h)).
  { rewrite retrieve_loaded by exact Hl.
    rewrite slice_to_nonneg by exact Hk. reflexivity. }
  split.
  { unfold fused, fused_candidates, selected_collections, per_collection.
    destruct (String.eqb hint "nec"); [|destruct (String.eqb hint "wattmonk")];
      simpl; now rewrite ?app_nil_r. }
  split; [apply sort_by_distance_perm|].
  split; [apply sort_by_distance_sorted; exact Hnum|].
  split; [intros d; apply sort_by_distance_stable; exact Hnum|].
  split; exact R.
Qed.

Lemma retrieve_fuses_and_ranks_witness :
  StronglySorted distance_le
    (sort_by_distance
       (fused_candidates sample_world empty_heap (JStr "grounding") "general" 2)) /\
  retrieve sample_world (JStr "grounding") "general" 2 empty_heap =
    (retrieve_spec sample_world empty_heap (JStr "grounding") "general" 2, empty_heap).
Proof.
  assert (Hk : (0 <= 2)%Z) by lia.
  assert (Hl : load_failure sample_world empty_heap "general" = None) by reflexivity.
  assert (Hnum : Forall (fun c => is_number (snd c))
            (fused_candidates sample_world empty_heap (JStr "grounding") "general" 2)).
  { vm_compute. repeat constructor. }
  pose proof (retrieve_fuses_and_ranks sample_world (JStr "grounding") "general" 2
                empty_heap Hk Hl Hnum) as T.
  cbv zeta in T. destruct T as (_ & _ & S & _ & _ & R).
  split; [exact S | exact R].
Defined.

(** [retrieve] either returns as many scores as documents, or raises what
    the embeddings constructor raises, or raises the division by zero of a
    candidate's score. *)
Lemma retrieve_returns_or_divides (w : World) (query : json) (hint : string)
  (k : Z) (h : Heap) :
  match fst (retrieve w query hint k h) with
  | Ret (docs, scores) =>
      load_failure w h hint = None /\
      List.length docs = List.length scores /\
      List.length docs =
        List.length (slice_to k (sort_by_distance (fused_candidates w h query hint k)))
  | Raise e =>
      load_failure w h hint = Some e \/
      (load_failure w h hint = None /\
       numpy_distances w = false /\ e = ZeroDivisionError /\
       exists c, In c (fused_candidates w h query hint k) /\
                 (1 + snd c =? 0)%float = true)
  end.
Proof.
  rewrite retrieve_fused. cbn [fst].
  destruct (load_failure w h hint) as [e|]; [left; reflexivity|].
  pose proof (docs_and_scores_lengths (numpy_distances w)
                (slice_to k (sort_by_distance (fused_candidates w h query hint k)))) as L.
  destruct (docs_and_scores _ _) as [[docs scores]|e].
  - destruct L as [Ld Ls]. split; [reflexivity|]. split; congruence.
  - destruct L as (Hn & -> & c & Hin & Hz). right.
    split; [reflexivity|]. split; [exact Hn|]. split; [reflexivity|].
    exists c. split; [|exact Hz].
    apply slice_to_incl in Hin.
    apply (Permutation_in _ (sort_by_distance_perm _)). exact Hin.
Qed.

(** C10: whenever [retrieve] returns, it returns as many scores as
    documents, also when it returns nothing: with the embeddings object
    built and no candidate it returns two empty sequences.  When it raises it
    returns no sequences; that is what the embeddings constructor raises or,
    on Python floats, the division by zero of a candidate's score. *)
Theorem retrieve_lengths_agree (w : World) (query : json) (hint : string)
  (k : Z) (h : Heap) :
  match fst (retrieve w query hint k h) with
  | Ret (docs, scores) => List.length docs = List.length scores
  | Raise e =>
      load_failure w h hint = Some e \/
      (numpy_distances w = false /\ e = ZeroDivisionError /\
       exists c, In c (fused_candidates w h query hint k) /\
                 (1 + snd c =? 0)%float = true)
  end /\
  (load_failure w h hint = None ->
   fused_candidates w h query hint k = [] ->
   retrieve w query hint k h = (Ret ([], []), h)).
Proof.
  split.
  - pose proof (retrieve_returns_or_divides w query hint k h) as L.
    destruct (fst (retrieve w query hint k h)) as [[docs scores]|e]; tauto.
  - intros Hl E. rewrite retrieve_loaded by exact Hl.
    rewrite E. unfold sort_by_distance. simpl.
    rewrite slice_to_nil. reflexivity.
Qed.

(* ------------------------------------------------------------------ *)
(** ** Retriever: failing collections *)

Lemma failed_collection_contributes_nothing (w : World) (h : Heap) (query : json)
  (n : Z) (name : string) :
  collection_failed w h query n name ->
  collection_candidates w h query n name = [].
Proof.
  unfold collection_failed, collection_candidates, available.
  intros [Hp | [[e He] | (vs & e & Hl & Hs)]].
  - rewrite Hp. reflexivity.
  - rewrite He. destruct (path_exists w name); reflexivity.
  - rewrite Hl. destruct (path_exists w name); [rewrite Hs|]; reflexivity.
Qed.

Lemma load_failure_selected (w : World) (h : Heap) (hint name : string) (e : exn) :
  In name (selected_collections hint) -> path_exists w name = true ->
  embeddings_error w h = Some e ->
  load_failure w h hint = Some e.
Proof.
  intros Hin Hp He. unfold load_failure.
  assert (X : existsb (path_exists w) (selected_collections hint) = true).
  { apply existsb_exists. exists name. split; assumption. }
  rewrite X. exact He.
Qed.

(** C6: the constructor of the embeddings object stands before the [try] of
    [load_vs]: for a collection whose directory exists, what the constructor
    raises on the credential leaves [load_vs], and leaves [retrieve] for
    every hint that selects the collection, where the claim has the failure
    swallowed and nothing returned. *)
Theorem load_vs_lets_constructor_error_out (w : World) (name : string) (h : Heap)
  (e : exn) :
  path_exists w name = true ->
  truthy (py_or (KEY_OVERRIDE h) (env_key w)) = true ->
  GoogleGenerativeAIEmbeddings w (py_or (KEY_OVERRIDE h) (env_key w)) = Raise e ->
  load_vs w name h = (Raise e, h) /\
  forall query hint k,
    In name (selected_collections hint) ->
    retrieve w query hint k h = (Raise e, h).
Proof.
  intros Hp Ht Hc.
  assert (He : embeddings_error w h = Some e).
  { unfold embeddings_error. rewrite Ht, Hc. reflexivity. }
  split.
  - rewrite load_vs_run, Hp, He. reflexivity.
  - intros query hint k Hin. rewrite retrieve_fused.
    rewrite (load_failure_selected w h hint name e Hin Hp He). reflexivity.
Qed.

Lemma load_vs_lets_constructor_error_out_witness :
  load_vs sample_world "nec" list_key_heap = (Raise ValidationError, list_key_heap) /\
  retrieve sample_world (JStr "grounding") "nec" 6 list_key_heap =
    (Raise ValidationError, list_key_heap).
Proof.
  destruct (load_vs_lets_constructor_error_out sample_world "nec" list_key_heap
              ValidationError eq_refl eq_refl eq_refl) as [L R].
  split; [exact L|].
  apply (R (JStr "grounding") "nec" 6%Z). left. reflexivity.
Defined.

(** X23: with the embeddings object built, a collection that is missing,
    fails to load, or whose search raises contributes no candidates, and
    the candidates of the others are kept: what [retrieve] returns has the
    length of the cut of all of them.  When every selected collection fails
    [retrieve] returns two empty sequences, on which [decide_mode] answers
    ["general"]. *)
Theorem retrieve_swallows_collection_failures (w : World) (query : json)
  (hint : string) (k : Z) (h : Heap) :
  load_failure w h hint = None ->
  (forall name, collection_failed w h query (2 * k) name ->
                collection_candidates w h query (2 * k) name = []) /\
  (forall docs scores,
     fst (retrieve w query hint k h) = Ret (docs, scores) ->
     List.length docs =
       List.length (slice_to k (flat_map (collection_candidates w h query (2 * k))
                                         (selected_collections hint)))) /\
  ((forall name, In name (selected_collections hint) ->
                 collection_failed w h query (2 * k) name) ->
   retrieve w query hint k h = (Ret ([], []), h)) /\
  (forall intent, decide_mode [] intent = "general").
Proof.
  intros Hl.
  split; [intros name; apply failed_collection_contributes_nothing|].
  split.
  { intros docs scores R.
    pose proof (retrieve_returns_or_divides w query hint k h) as L.
    rewrite R in L. destruct L as (_ & _ & L). rewrite L.
    fold (fused_candidates w h query hint k).
    rewrite !slice_to_length.
    rewrite (Permutation_length (sort_by_distance_perm _)). reflexivity. }
  split.
  { intros Hall. rewrite retrieve_loaded by exact Hl. unfold fused_candidates.
    assert (E : flat_map (collection_candidates w h query (2 * k))
                         (selected_collections hint) = []).
    { induction (selected_collections hint) as [|name names IH]; simpl; [reflexivity|].
      rewrite failed_collection_contributes_nothing by (apply Hall; left; reflexivity).
      apply IH. intros n Hn. apply Hall. right. exact Hn. }
    rewrite E. unfold sort_by_distance. simpl. rewrite slice_to_nil. reflexivity. }
  intros intent. unfold decide_mode. simpl.
  destruct (String.eqb intent "nec" || String.eqb intent "wattmonk"); reflexivity.
Qed.

Lemma retrieve_swallows_collection_failures_witness :
  (forall name, In name (selected_collections "general") ->
                collection_failed failing_world empty_heap (JStr "q") (2 * 6) name) /\
  retrieve failing_world (JStr "q") "general" 6 empty_heap = (Ret ([], []), empty_heap).
Proof.
  assert (F : forall name, In name (selected_collections "general") ->
                collection_failed failing_world empty_heap (JStr "q") (2 * 6) name).
  { intros name [<-|[<-|[]]].
    - left. reflexivity.
    - right. right. exists broken_store, (ExternalError "search failed").
      split; reflexivity. }
  split; [exact F|].
  exact (proj1 (proj2 (proj2 (retrieve_swallows_collection_failures
                                failing_world (JStr "q") "general" 6 empty_heap
                                eq_refl))) F).
Defined.

(* ------------------------------------------------------------------ *)
(** ** Conversation summary *)

Lemma summarize_history_closed_gate (w : World) (messages : list json)
  (model_name : string) (h : Heap) :
  ENABLE_MEMORY_SUMMARY w = false \/ messages = [] \/
  truthy (py_or (KEY_OVERRIDE h) (env_key w)) = false \/
  (Z.of_nat (List.length messages) mod 6 <> 0)%Z ->
  summarize_history w messages model_name h = (Ret "", h).
Proof.
  intros G. unfold summarize_history.
  destruct (ENABLE_MEMORY_SUMMARY w) eqn:En; cbn [negb]; [|reflexivity].
  rewrite bind_get_key.
  destruct (truthy (JArr messages)) eqn:TM; cbn [negb orb]; [|reflexivity].
  destruct (truthy (py_or (KEY_OVERRIDE h) (env_key w))) eqn:K; cbn [negb];
    [|reflexivity].
  destruct (Z.eqb_spec (Z.of_nat (List.length messages) mod 6) 0) as [Mo|Mo];
    cbn [negb]; [|reflexivity].
  destruct G as [G|[G|[G|G]]]; try congruence.
  subst messages. discriminate TM.
Qed.

Lemma summarize_history_open_gate (w : World) (messages : list json)
  (model_name : string) (h : Heap) :
  ENABLE_MEMORY_SUMMARY w = true -> messages <> [] ->
  truthy (py_or (KEY_OVERRIDE h) (env_key w)) = true ->
  (Z.of_nat (List.length messages) mod 6 = 0)%Z ->
  summarize_history w messages model_name h =
  let key := py_or (KEY_OVERRIDE h) (env_key w) in
  let model := sanitize_model model_name in
  match ChatGoogleGenerativeAI w model key with
  | Raise e => (Raise e, h)
  | Ret _ =>
      match map_outcome (format_message w) (slice_last 20 messages) with
      | Raise e => (Raise e, h)
      | Ret lines =>
          let prompt := (SUMMARY_PROMPT ++ String.concat newline lines)%string in
          (match llm_invoke w model key prompt with
           | Ret out => Ret out
           | Raise _ => Ret ""
           end,
           mkHeap (KEY_OVERRIDE h) (llm_log h ++ [LlmCall model key prompt]))
      end
  end.
Proof.
  intros En Hne K Mo. unfold summarize_history.
  rewrite En. cbn [negb]. rewrite bind_get_key.
  assert (TM : truthy (JArr messages) = true)
    by (destruct messages; [congruence | reflexivity]).
  rewrite TM, K. cbn [negb orb].
  apply Z.eqb_eq in Mo. rewrite Mo. cbn [negb]. cbv zeta.
  unfold bind at 1. unfold lift at 1.
  destruct (ChatGoogleGenerativeAI w (sanitize_model model_name)
              (py_or (KEY_OVERRIDE h) (env_key w))) as [[]|e]; [|reflexivity].
  unfold bind at 1. unfold lift at 1.
  destruct (map_outcome (format_message w) (slice_last 20 messages)) as [lines|e];
    [|reflexivity].
  unfold try_except, bind, log_call, lift, ret.
  cbn [KEY_OVERRIDE llm_log].
  destruct (llm_invoke w (sanitize_model model_name)
              (py_or (KEY_OVERRIDE h) (env_key w))
              (SUMMARY_PROMPT ++ String.concat newline lines)%string) as [out|e].
  - destruct (String.eqb out "") eqn:O; [|reflexivity].
    apply String.eqb_eq in O. subst out. reflexivity.
  - reflexivity.
Qed.



(* ------------------------------------------------------------------ *)
(** ** Request handler *)

(** C8: whatever the request and whatever happens while it is served, the
    handler returns a response and leaves [KEY_OVERRIDE] at [None]. *)
Theorem handler_clears_key_override (w : World) (request : Request) (h : Heap) :
  KEY_OVERRIDE (snd (handler w request h)) = JNull /\
  exists response, fst (handler w request h) = Ret response.
Proof.
  unfold handler, try_finally.
  destruct (try_except (handler_try w request)
              (fun e => ret (mkResponse 500 (Error e))) h) as [o h'] eqn:E.
  simpl. split; [reflexivity|].
  unfold try_except in E.
  destruct (handler_try w request h) as [[r|e] h''].
  - injection E as <- <-. exists r. reflexivity.
  - unfold ret in E. injection E as <- <-. eexists. reflexivity.
Qed.

Lemma graph_invoke_no_candidates (w : World) (h : Heap) :
  load_failure w h "general" = None ->
  fused_candidates w h (JStr "") "general" 6 = [] ->
  graph_invoke w (mkGraphState (JStr "") None None None None) h =
  (Ret (mkGraphState (JStr "") (Some "general") (Some []) (Some []) (Some "general")), h).
Proof.
  intros L F. unfold graph_invoke, _start, _retrieve.
  unfold bind at 1. unfold bind at 1. unfold lift, ret.
  cbn [st_query st_intent st_docs st_scores st_mode].
  change (classify_intent_value (JStr "")) with (Ret (A := string) "general").
  cbn iota beta. unfold bind.
  cbn [st_query st_intent st_docs st_scores st_mode].
  rewrite retrieve_loaded by exact L. rewrite F. reflexivity.
Qed.

(** The heap in which the graph runs: the override is the truthy ["apiKey"]
    of the body, [None] otherwise. *)
Lemma handler_try_empty_request (w : World) (request : Request) (h : Heap)
  (kv : list (string * json)) :
  String.eqb (method request) "OPTIONS" = false ->
  json_loads w (if String.eqb (get_data request) "" then "{}" else get_data request)
    = Ret (JObj kv) ->
  assoc "messages" kv = None \/ assoc "messages" kv = Some (JArr []) ->
  assoc "query" kv = None \/ assoc "query" kv = Some (JStr "") ->
  let h1 := mkHeap (py_or (match assoc "apiKey" kv with Some v => v | None => JNull end)
                          JNull) (llm_log h) in
  load_failure w h1 "general" = None ->
  fused_candidates w h1 (JStr "") "general" 6 = [] ->
  handler_try w request h =
  (Ret (mkResponse 200 (Answer "general" "general" [] "")), h1).
Proof.
  intros Hm Hj Hmsg Hq h1 L F.
  unfold handler_try. rewrite Hm.
  unfold bind at 1. unfold lift at 1. rewrite Hj.
  unfold bind at 1. unfold lift at 1. cbn [dict_get].
  unfold bind at 1. unfold set_override at 1. cbn [llm_log].
  fold h1.
  unfold bind at 1. unfold lift at 1. cbn [dict_get].
  assert (Hmessages : match assoc "messages" kv with Some v => v | None => JArr [] end
                      = JArr []) by (destruct Hmsg as [-> | ->]; reflexivity).
  rewrite Hmessages. cbn [truthy].
  unfold bind at 1. unfold lift at 1. cbn [dict_get].
  assert (Hquery : match assoc "query" kv with Some v => v | None => JStr "" end
                   = JStr "") by (destruct Hq as [-> | ->]; reflexivity).
  rewrite Hquery.
  unfold bind at 1. rewrite (graph_invoke_no_candidates w h1 L F).
  unfold bind at 1. cbn [message_list].
  rewrite summarize_history_closed_gate by (right; left; reflexivity).
  reflexivity.
Qed.

(** An empty request against two loaded collections: the empty query is
    searched like any other, three documents come back and the mode is
    ["rag"]. *)
Lemma empty_request_grounded_by_store :
  json_loads sample_world "{}" = Ret (JObj []) /\
  exists docs,
    handler sample_world (mkRequest "POST" "") empty_heap =
      (Ret (mkResponse 200 (Answer "general" "rag" docs "")), empty_heap) /\
    List.length docs = 3%nat.
Proof.
  split; [reflexivity|].
  vm_compute. eexists. split; reflexivity.
Qed.

(** C7, amended: a request with no messages and an empty or absent query
    runs the graph on the query [""], which is classified ["general"] and
    searched in both collections; when the embeddings object is built for
    the request's credential and the collections yield no candidate for the
    query, the state ends with no documents, no scores and mode
    ["general"], and the handler answers 200 with intent ["general"], mode
    ["general"], no documents and an empty summary. *)
Theorem empty_request_pipeline (w : World) (request : Request) (h : Heap)
  (kv : list (string * json)) :
  String.eqb (method request) "OPTIONS" = false ->
  json_loads w (if String.eqb (get_data request) "" then "{}" else get_data request)
    = Ret (JObj kv) ->
  assoc "messages" kv = None \/ assoc "messages" kv = Some (JArr []) ->
  assoc "query" kv = None \/ assoc "query" kv = Some (JStr "") ->
  let h1 := mkHeap (py_or (match assoc "apiKey" kv with Some v => v | None => JNull end)
                          JNull) (llm_log h) in
  load_failure w h1 "general" = None ->
  fused_candidates w h1 (JStr "") "general" 6 = [] ->
  classify_intent "" = "general" /\
  graph_invoke w (mkGraphState (JStr "") None None None None) h1 =
    (Ret (mkGraphState (JStr "") (Some "general") (Some []) (Some []) (Some "general")),
     h1) /\
  handler w request h =
    (Ret (mkResponse 200 (Answer "general" "general" [] "")),
     mkHeap JNull (llm_log h)).
Proof.
  intros Hm Hj Hmsg Hq h1 L F.
  split; [reflexivity|].
  split; [exact (graph_invoke_no_candidates w h1 L F)|].
  unfold handler, try_finally, try_except.
  rewrite (handler_try_empty_request w request h kv Hm Hj Hmsg Hq L F).
  reflexivity.
Qed.

Lemma empty_request_pipeline_witness :
  handler failing_world (mkRequest "POST" "") empty_heap =
    (Ret (mkResponse 200 (Answer "general" "general" [] "")), empty_heap).
Proof.
  refine (proj2 (proj2 (empty_request_pipeline failing_world (mkRequest "POST" "")
                          empty_heap [] _ _ _ _ _ _))).
  - reflexivity.
  - reflexivity.
  - left. reflexivity.
  - left. reflexivity.
  - reflexivity.
  - reflexivity.
Defined.

(* ------------------------------------------------------------------ *)
(** ** The score transform on concrete distances *)

(** Two distinct distances below the rounding step of 1.0 get the same
    score, and a distance below -1 gets a smaller score than distance 0. *)
Lemma score_not_strictly_decreasing :
  (0x1p-60 <? 0x1p-59)%float = true /\
  score false 0x1p-60 = Ret 1%float /\
  score false 0x1p-59 = Ret 1%float /\
  (1 <? 1)%float = false /\
  (-3 <? 0)%float = true /\
  score false (-3) = Ret (-0.5)%float /\
  score false 0 = Ret 1%float /\
  (1 <? -0.5)%float = false.
Proof. vm_compute. repeat split. Qed.

(* ------------------------------------------------------------------ *)
(** ** Binary64 rounding is monotone

    [binary_round_aux] is analysed on a fraction [N / D] scaled by [2^e]:
    it rounds [N / (D * 2^s)] to the nearest integer, ties to even, at the
    target exponent [t = e + s], and renormalises.  Values are compared in
    units of [2^-1074], so only integers occur. *)

Section Rounding.
Local Open Scope Z_scope.

(** *** Digits and powers of two *)

(** [fexp] for binary64: 53 bits of precision, exponents from -1074. *)
Lemma fexp_eq (z : Z) : fexp prec emax z = Z.max (z - 53) (-1074).
Proof. reflexivity. Qed.

(** A number of [d] binary digits lies in [[2^(d-1), 2^d)]. *)
Lemma digits2_pos_bounds (p : positive) :
  2 ^ (Zpos (digits2_pos p) - 1) <= Zpos p < 2 ^ Zpos (digits2_pos p).
Proof.
  induction p as [p IH|p IH|]; simpl digits2_pos.
  - rewrite Pos2Z.inj_succ.
    replace (Z.succ (Zpos (digits2_pos p)) - 1) with (Z.succ (Zpos (digits2_pos p) - 1)) by lia.
    rewrite !Z.pow_succ_r by lia. lia.
  - rewrite Pos2Z.inj_succ.
    replace (Z.succ (Zpos (digits2_pos p)) - 1) with (Z.succ (Zpos (digits2_pos p) - 1)) by lia.
    rewrite !Z.pow_succ_r by lia. lia.
  - simpl. lia.
Qed.

Lemma Zdigits2_bounds (q : Z) :
  0 < q -> 2 ^ (Zdigits2 q - 1) <= q < 2 ^ Zdigits2 q.
Proof.
  destruct q as [|p|p]; try lia. intros _. simpl. apply digits2_pos_bounds.
Qed.

Lemma Zdigits2_nonneg (q : Z) : 0 <= Zdigits2 q.
Proof. destruct q; simpl; lia. Qed.

Lemma Zdigits2_pos (q : Z) : 0 < q -> 0 < Zdigits2 q.
Proof. destruct q; simpl; lia. Qed.

Lemma pow2_lt_mono (a b : Z) : 0 <= a -> 2 ^ a < 2 ^ b -> a < b.
Proof.
  intros Ha H. destruct (Z_lt_le_dec a b) as [L|L]; [exact L|].
  destruct (Z_lt_le_dec b 0) as [N|N].
  - rewrite (Z.pow_neg_r 2 b N) in H. pose proof (Z.pow_pos_nonneg 2 a). lia.
  - pose proof (Z.pow_le_mono_r 2 b a). lia.
Qed.

Lemma Zdigits2_unique (q k : Z) :
  0 < k -> 2 ^ (k - 1) <= q < 2 ^ k -> Zdigits2 q = k.
Proof.
  intros Hk [L U].
  assert (Hq : 0 < q) by (pose proof (Z.pow_pos_nonneg 2 (k - 1)); lia).
  pose proof (Zdigits2_bounds q Hq) as [L' U'].
  pose proof (Zdigits2_pos q Hq) as Hd.
  assert (Zdigits2 q - 1 < k) by (apply pow2_lt_mono; lia).
  assert (k - 1 < Zdigits2 q) by (apply pow2_lt_mono; lia).
  lia.
Qed.

(** *** Shifting a fraction right *)

(** Settles a goal about comparisons of integers by cases. *)
Ltac bool_cases :=
  repeat match goal with
         | |- context [(?a =? ?b)] => destruct (Z.eqb_spec a b)
         | |- context [(?a <=? ?b)] => destruct (Z.leb_spec a b)
         | |- context [(?a ?= ?b)] => destruct (Z.compare_spec a b)
         end;
  cbn [negb andb orb]; first [reflexivity | exfalso; lia].

(** One right shift halves the integer part; the bit shifted out becomes
    the round bit and the old round bit joins the sticky bit. *)
Lemma shr_1_fields (m : Z) (r s : bool) :
  0 <= m ->
  shr_1 {| shr_m := m; shr_r := r; shr_s := s |} =
  {| shr_m := m / 2; shr_r := Z.odd m; shr_s := r || s |}.
Proof.
  intros Hm. destruct m as [|p|p]; try lia.
  - reflexivity.
  - destruct p as [p|p|]; simpl shr_1; f_equal.
    + rewrite Pos2Z.inj_xI. apply Z.div_unique with 1; lia.
    + rewrite Pos2Z.inj_xO. apply Z.div_unique with 0; lia.
Qed.

Lemma frac_double (N D : Z) :
  0 <= N -> 0 < D ->
  N / (2 * D) = N / D / 2 /\
  N mod (2 * D) = N mod D + D * (N / D mod 2).
Proof.
  intros HN HD.
  pose proof (Z.div_mod N D ltac:(lia)) as E.
  pose proof (Z.mod_pos_bound N D HD) as B.
  pose proof (Z.div_mod (N / D) 2 ltac:(lia)) as E2.
  pose proof (Z.mod_pos_bound (N / D) 2 ltac:(lia)) as B2.
  assert (Q : N / (2 * D) = N / D / 2).
  { symmetry. apply Z.div_unique with (N mod D + D * (N / D mod 2)); nia. }
  split; [exact Q|].
  pose proof (Z.div_mod N (2 * D) ltac:(lia)) as E3. rewrite Q in E3. nia.
Qed.

(** Shifting the record of [N / D] gives the record of [N / (2 D)]. *)
Lemma shr_1_rec (N D : Z) :
  0 <= N -> 0 < D -> shr_1 (rec_of N D) = rec_of N (2 * D).
Proof.
  intros HN HD. unfold rec_of.
  rewrite shr_1_fields by (apply Z.div_pos; lia).
  destruct (frac_double N D HN HD) as [Q R]. rewrite Q, R.
  pose proof (Z.mod_pos_bound N D HD) as B.
  pose proof (Z.mod_pos_bound (N / D) 2 ltac:(lia)) as B2.
  rewrite (Zmod_odd (N / D)) in *.
  f_equal; destruct (Z.odd (N / D)); bool_cases.
Qed.

Lemma iter_shr_1_rec (p : positive) (N D : Z) :
  0 <= N -> 0 < D ->
  iter_pos shr_1 p (rec_of N D) = rec_of N (D * 2 ^ Zpos p).
Proof.
  intros HN. revert D. induction p as [p IH|p IH|]; intros D HD; cbn [iter_pos].
  - rewrite shr_1_rec, IH, IH by (try assumption; pose proof (Z.pow_pos_nonneg 2 (Zpos p)); nia).
    f_equal. replace (Zpos p~1) with (Zpos p + Zpos p + 1) by lia.
    rewrite !Z.pow_add_r by lia. change (2 ^ 1) with 2. ring.
  - rewrite IH, IH by (try assumption; pose proof (Z.pow_pos_nonneg 2 (Zpos p)); nia).
    f_equal. replace (Zpos p~0) with (Zpos p + Zpos p) by lia.
    rewrite !Z.pow_add_r by lia. ring.
  - rewrite shr_1_rec by assumption. f_equal. change (2 ^ 1) with 2. ring.
Qed.

Lemma shr_record_of_loc_frac (N D : Z) :
  0 < D -> shr_record_of_loc (N / D) (loc_frac N D) = rec_of N D.
Proof.
  intros HD. unfold loc_frac, rec_of.
  pose proof (Z.mod_pos_bound N D HD) as B.
  destruct (Z.eqb_spec (N mod D) 0) as [E|E].
  - cbn [shr_record_of_loc]. f_equal; bool_cases.
  - destruct (Z.compare_spec (2 * (N mod D)) D) as [C|C|C];
      cbn [shr_record_of_loc]; f_equal; bool_cases.
Qed.

Lemma round_rec (N D : Z) :
  0 < D ->
  round_nearest_even (shr_m (rec_of N D)) (loc_of_shr_record (rec_of N D)) = rne N D.
Proof.
  intros HD. unfold rec_of, rne. cbn [shr_m].
  pose proof (Z.mod_pos_bound N D HD) as B.
  destruct (Z.leb_spec D (2 * (N mod D))) as [L|L];
    destruct (Z.eqb_spec (N mod D) 0) as [E|E];
    destruct (Z.eqb_spec (2 * (N mod D)) D) as [F|F];
    cbn [negb andb loc_of_shr_record round_nearest_even];
    destruct (Z.compare_spec (2 * (N mod D)) D) as [C|C|C];
    first [reflexivity | exfalso; lia].
Qed.

(** *** Rounding at the target exponent *)

(** [binary_round_aux] on the fraction [N / D] at exponent [e]: round
    [N / (D * 2^(t - e))] to the nearest integer and encode it at the target
    exponent [t]. *)
Lemma binary_round_aux_frac (N D e : Z) :
  0 <= N -> 0 < D ->
  binary_round_aux prec emax false (N / D) e (loc_frac N D) =
  encode (rne N (D * 2 ^ (target N D e - e))) (target N D e).
Proof.
  intros HN HD. unfold binary_round_aux.
  unfold shr_fexp at 1. rewrite shr_record_of_loc_frac by exact HD.
  unfold target, shr.
  destruct (fexp prec emax (Zdigits2 (N / D) + e) - e) as [|p|p] eqn:S.
  - replace (Z.max e (fexp prec emax (Zdigits2 (N / D) + e))) with e by lia.
    rewrite Z.sub_diag, Z.mul_1_r. rewrite round_rec by exact HD. reflexivity.
  - replace (Z.max e (fexp prec emax (Zdigits2 (N / D) + e))) with (e + Zpos p) by lia.
    rewrite iter_shr_1_rec by assumption.
    replace (e + Zpos p - e) with (Zpos p) by lia.
    rewrite round_rec by (pose proof (Z.pow_pos_nonneg 2 (Zpos p)); nia).
    reflexivity.
  - replace (Z.max e (fexp prec emax (Zdigits2 (N / D) + e))) with e by lia.
    rewrite Z.sub_diag, Z.mul_1_r. rewrite round_rec by exact HD. reflexivity.
Qed.

Lemma rne_cases (N D : Z) :
  0 < D ->
  (rne N D = N / D /\ 2 * (N mod D) <= D) \/
  (rne N D = N / D + 1 /\ D <= 2 * (N mod D)).
Proof.
  intros HD. unfold rne.
  destruct (Z.compare_spec (2 * (N mod D)) D) as [C|C|C].
  - destruct (Z.even (N / D)); [left | right]; split; lia.
  - left. split; lia.
  - right. split; lia.
Qed.

(** Rounding to the nearest integer is monotone on fractions. *)
Lemma rne_mono (N1 D1 N2 D2 : Z) :
  0 < D1 -> 0 < D2 -> N1 * D2 <= N2 * D1 -> rne N1 D1 <= rne N2 D2.
Proof.
  intros H1 H2 H.
  pose proof (Z.div_mod N1 D1 ltac:(lia)) as E1.
  pose proof (Z.mod_pos_bound N1 D1 H1) as B1.
  pose proof (Z.div_mod N2 D2 ltac:(lia)) as E2.
  pose proof (Z.mod_pos_bound N2 D2 H2) as B2.
  assert (Q : N1 / D1 <= N2 / D2).
  { destruct (Z_le_gt_dec (N1 / D1) (N2 / D2)) as [L|G]; [exact L|]. exfalso.
    assert (D1 * D2 * (N2 / D2 + 1) <= D1 * D2 * (N1 / D1)) by nia. nia. }
  destruct (Z.eq_dec (N1 / D1) (N2 / D2)) as [Eq|Ne].
  - assert (R : N1 mod D1 * D2 <= N2 mod D2 * D1) by nia.
    unfold rne. rewrite <- Eq.
    destruct (Z.compare_spec (2 * (N1 mod D1)) D1) as [C1|C1|C1];
      destruct (Z.compare_spec (2 * (N2 mod D2)) D2) as [C2|C2|C2];
      try destruct (Z.even (N1 / D1)); try lia; exfalso; nia.
  - destruct (rne_cases N1 D1 H1) as [[-> _]|[-> _]];
      destruct (rne_cases N2 D2 H2) as [[-> _]|[-> _]]; lia.
Qed.

Lemma rne_exact (K : Z) : rne K 1 = K.
Proof.
  unfold rne. rewrite Z.mod_1_r, Z.div_1_r. reflexivity.
Qed.

Lemma rne_upper (N D K : Z) : 0 < D -> N <= K * D -> rne N D <= K.
Proof.
  intros HD H. rewrite <- (rne_exact K). apply rne_mono; lia.
Qed.

Lemma rne_lower (N D K : Z) : 0 < D -> K * D <= N -> K <= rne N D.
Proof.
  intros HD H. rewrite <- (rne_exact K) at 1. apply rne_mono; lia.
Qed.

(** The value bracket of the target exponent. *)
Lemma target_bracket (N D e : Z) :
  0 <= N -> 0 < D ->
  e <= fexp prec emax (Zdigits2 (N / D) + e) ->
  let t := target N D e in
  let D' := D * 2 ^ (t - e) in
  -1074 <= t /\ e <= t /\ 0 < D' /\
  N < 2 ^ 53 * D' /\
  (t = -1074 \/ 2 ^ 52 * D' <= N).
Proof.
  intros HN HD Pre. cbv zeta. set (t := target N D e).
  assert (Ht : t = Z.max e (Z.max (Zdigits2 (N / D) + e - 53) (-1074))) by reflexivity.
  clearbody t. rewrite fexp_eq in Pre. set (D' := D * 2 ^ (t - e)).
  pose proof (Z.div_mod N D ltac:(lia)) as E.
  pose proof (Z.mod_pos_bound N D HD) as B.
  assert (Hq : 0 <= N / D) by (apply Z.div_pos; lia).
  pose proof (Zdigits2_nonneg (N / D)) as Hd.
  assert (Ps : 0 < 2 ^ (t - e)) by (apply Z.pow_pos_nonneg; lia).
  assert (HD' : 0 < D') by (unfold D'; nia).
  split; [lia|]. split; [lia|]. split; [exact HD'|].
  split.
  - assert (U : N < 2 ^ Zdigits2 (N / D) * D).
    { destruct (Z.eq_dec (N / D) 0) as [Z0|NZ].
      - rewrite Z0 in *. change (Zdigits2 0) with 0. rewrite Z.pow_0_r. lia.
      - pose proof (Zdigits2_bounds (N / D) ltac:(lia)). nia. }
    assert (P : 2 ^ Zdigits2 (N / D) <= 2 ^ (53 + (t - e)))
      by (apply Z.pow_le_mono_r; lia).
    rewrite Z.pow_add_r in P by lia. unfold D'. nia.
  - destruct (Z.eq_dec t (-1074)) as [Et|Nt]; [left; exact Et | right].
    assert (S : t - e = Zdigits2 (N / D) - 53) by lia.
    assert (NZ : N / D <> 0).
    { intros Z0. rewrite Z0 in S. change (Zdigits2 0) with 0 in S. lia. }
    pose proof (Zdigits2_bounds (N / D) ltac:(lia)) as [L _].
    replace (Zdigits2 (N / D) - 1) with (52 + (t - e)) in L by lia.
    rewrite Z.pow_add_r in L by lia. unfold D'. nia.
Qed.

(** *** Order of rounded values *)

(** The float that encodes a rounded mantissa [M <= 2^53] at exponent [t]:
    zero, a finite float, or infinity past the largest exponent. *)
Lemma encode_key (M t : Z) :
  0 <= M <= 2 ^ 53 -> -1074 <= t -> (t = -1074 \/ 2 ^ 52 <= M) ->
  encode M t <> S754_nan /\ fkey (encode M t) = okey M t.
Proof.
  intros HM Ht Hn. unfold encode, okey, shr_fexp. rewrite fexp_eq.
  destruct (Z.eqb_spec M 0) as [Z0|NZ].
  - subst M. change (Zdigits2 0) with 0.
    destruct (Z.max (0 + t - 53) (-1074) - t) as [|p|p] eqn:S; try lia;
      cbn; split; [discriminate | reflexivity].
  - destruct (Z.eqb_spec M (2 ^ 53)) as [E|NE].
    + subst M. change (Zdigits2 (2 ^ 53)) with 54.
      replace (Z.max (54 + t - 53) (-1074) - t) with 1 by lia.
      cbn [shr shr_record_of_loc iter_pos shr_1 shr_m].
      change (2 ^ 53) with 9007199254740992. cbn [shr_1 shr_m].
      replace (emax - prec) with 971 by reflexivity.
      destruct (Z.leb_spec (t + 1) 971); split; try discriminate; reflexivity.
    + assert (D : Z.max (Zdigits2 M + t - 53) (-1074) - t = 0).
      { pose proof (Zdigits2_bounds M ltac:(lia)) as [L U].
        pose proof (Zdigits2_pos M ltac:(lia)).
        destruct Hn as [-> | Hn].
        - assert (Zdigits2 M - 1 < 53) by (apply pow2_lt_mono; lia). lia.
        - rewrite (Zdigits2_unique M 53) by lia. lia. }
      rewrite D. cbn [shr shr_record_of_loc shr_m].
      destruct M as [|p|p]; try lia.
      replace (emax - prec) with 971 by reflexivity.
      destruct (Z.leb_spec t 971); split; try discriminate; reflexivity.
Qed.

(** Encoded values are ordered by target exponent, then by mantissa. *)
Lemma okey_mono (M1 t1 M2 t2 : Z) :
  0 <= M1 <= 2 ^ 53 -> (t1 = -1074 \/ 2 ^ 52 <= M1) ->
  0 <= M2 <= 2 ^ 53 -> (t2 = -1074 \/ 2 ^ 52 <= M2) ->
  -1074 <= t1 -> -1074 <= t2 ->
  t1 < t2 \/ (t1 = t2 /\ M1 <= M2) ->
  ~ lex_lt (okey M2 t2) (okey M1 t1).
Proof.
  intros H1 N1 H2 N2 T1 T2 Ho. unfold okey.
  destruct (Z.eqb_spec M1 0); destruct (Z.eqb_spec M2 0);
    destruct (Z.eqb_spec M1 (2 ^ 53)); destruct (Z.eqb_spec M2 (2 ^ 53));
    destruct (Z.leb_spec (t1 + 1) 971); destruct (Z.leb_spec (t2 + 1) 971);
    destruct (Z.leb_spec t1 971); destruct (Z.leb_spec t2 971);
    simpl; lia.
Qed.

Lemma SFleb_key (a b : spec_float) :
  a <> S754_nan -> b <> S754_nan ->
  ~ lex_lt (fkey b) (fkey a) -> SFleb a b = true.
Proof.
  intros Ha Hb H. unfold SFleb.
  destruct (SFcompare_trichotomy a b Ha Hb) as [[E _]|[[E _]|[E L]]]; rewrite E;
    try reflexivity; contradiction.
Qed.

(** Rounding is monotone: the inputs are fractions [N/D] at exponents not
    below [emin], compared in units of [2^emin]. *)
Lemma round_mono (N1 D1 e1 N2 D2 e2 : Z) :
  0 <= N1 -> 0 < D1 -> -1074 <= e1 ->
  e1 <= fexp prec emax (Zdigits2 (N1 / D1) + e1) ->
  0 <= N2 -> 0 < D2 -> -1074 <= e2 ->
  e2 <= fexp prec emax (Zdigits2 (N2 / D2) + e2) ->
  N1 * 2 ^ (e1 + 1074) * D2 <= N2 * 2 ^ (e2 + 1074) * D1 ->
  SFleb (binary_round_aux prec emax false (N1 / D1) e1 (loc_frac N1 D1))
        (binary_round_aux prec emax false (N2 / D2) e2 (loc_frac N2 D2)) = true.
Proof.
  intros HN1 HD1 He1 P1 HN2 HD2 He2 P2 Hle.
  rewrite !binary_round_aux_frac by assumption.
  destruct (target_bracket N1 D1 e1 HN1 HD1 P1) as (Ta1 & Tb1 & Dp1 & U1 & L1).
  destruct (target_bracket N2 D2 e2 HN2 HD2 P2) as (Ta2 & Tb2 & Dp2 & U2 & L2).
  set (t1 := target N1 D1 e1) in *. set (t2 := target N2 D2 e2) in *.
  set (D1' := D1 * 2 ^ (t1 - e1)) in *. set (D2' := D2 * 2 ^ (t2 - e2)) in *.
  assert (M1u : rne N1 D1' <= 2 ^ 53) by (apply rne_upper; lia).
  assert (M2u : rne N2 D2' <= 2 ^ 53) by (apply rne_upper; lia).
  assert (M1l : 0 <= rne N1 D1') by (apply rne_lower; lia).
  assert (M2l : 0 <= rne N2 D2') by (apply rne_lower; lia).
  assert (M1n : t1 = -1074 \/ 2 ^ 52 <= rne N1 D1')
    by (destruct L1; [left; assumption | right; apply rne_lower; lia]).
  assert (M2n : t2 = -1074 \/ 2 ^ 52 <= rne N2 D2')
    by (destruct L2; [left; assumption | right; apply rne_lower; lia]).
  destruct (encode_key (rne N1 D1') t1 ltac:(lia) Ta1 M1n) as [Nn1 K1].
  destruct (encode_key (rne N2 D2') t2 ltac:(lia) Ta2 M2n) as [Nn2 K2].
  apply SFleb_key; [exact Nn1 | exact Nn2 |]. rewrite K1, K2.
  apply okey_mono; try assumption; try lia.
  (* the scaled comparison *)
  assert (X1 : 2 ^ (t1 + 1074) = 2 ^ (e1 + 1074) * 2 ^ (t1 - e1)).
  { rewrite <- Z.pow_add_r by lia. f_equal. lia. }
  assert (X2 : 2 ^ (t2 + 1074) = 2 ^ (e2 + 1074) * 2 ^ (t2 - e2)).
  { rewrite <- Z.pow_add_r by lia. f_equal. lia. }
  assert (Pa1 : 0 < 2 ^ (e1 + 1074)) by (apply Z.pow_pos_nonneg; lia).
  assert (Pa2 : 0 < 2 ^ (e2 + 1074)) by (apply Z.pow_pos_nonneg; lia).
  assert (Pb1 : 0 < 2 ^ (t1 - e1)) by (apply Z.pow_pos_nonneg; lia).
  assert (Pb2 : 0 < 2 ^ (t2 - e2)) by (apply Z.pow_pos_nonneg; lia).
  assert (Hs : N1 * 2 ^ (t1 + 1074) * D2' <= N2 * 2 ^ (t2 + 1074) * D1').
  { rewrite X1, X2. unfold D1', D2'.
    replace (N1 * (2 ^ (e1 + 1074) * 2 ^ (t1 - e1)) * (D2 * 2 ^ (t2 - e2)))
      with ((N1 * 2 ^ (e1 + 1074) * D2) * (2 ^ (t1 - e1) * 2 ^ (t2 - e2))) by ring.
    replace (N2 * (2 ^ (e2 + 1074) * 2 ^ (t2 - e2)) * (D1 * 2 ^ (t1 - e1)))
      with ((N2 * 2 ^ (e2 + 1074) * D1) * (2 ^ (t1 - e1) * 2 ^ (t2 - e2))) by ring.
    apply Z.mul_le_mono_nonneg_r; [nia | exact Hle]. }
  assert (Pt2 : 0 < 2 ^ (t2 + 1074)) by (apply Z.pow_pos_nonneg; lia).
  destruct (Z.lt_trichotomy t1 t2) as [L|[E|G]].
  - left. exact L.
  - right. split; [exact E|]. apply rne_mono; try assumption.
    rewrite E in Hs.
    apply (Z.mul_le_mono_pos_l _ _ (2 ^ (t2 + 1074)) Pt2).
    lia.
  - exfalso.
    assert (X : 2 ^ (t1 + 1074) = 2 ^ (t2 + 1074) * 2 ^ (t1 - t2)).
    { rewrite <- Z.pow_add_r by lia. f_equal. lia. }
    assert (Y : 2 <= 2 ^ (t1 - t2)).
    { change 2 with (2 ^ 1) at 1. apply Z.pow_le_mono_r; lia. }
    destruct L1 as [L1|L1]; [lia|].
    rewrite X in Hs.
    assert (A : 2 ^ 52 * D1' * (2 ^ (t2 + 1074) * 2) * D2' <= N1 * (2 ^ (t2 + 1074) * 2 ^ (t1 - t2)) * D2').
    { apply Z.mul_le_mono_nonneg_r; [lia|].
      apply Z.mul_le_mono_nonneg; nia. }
    assert (B : N2 * 2 ^ (t2 + 1074) * D1' < 2 ^ 53 * D2' * 2 ^ (t2 + 1074) * D1').
    { apply Z.mul_lt_mono_pos_r; [lia|]. apply Z.mul_lt_mono_pos_r; lia. }
    change (2 ^ 53) with (2 ^ 52 * 2) in B. nia.
Qed.

(** *** Values of valid floats *)

Lemma iter_xO_value (d m : positive) :
  Zpos (Pos.iter xO m d) = Zpos m * 2 ^ Zpos d.
Proof.
  induction d as [|d IH] using Pos.peano_ind.
  - simpl. lia.
  - rewrite Pos.iter_succ, Pos2Z.inj_xO, IH, Pos2Z.inj_succ, Z.pow_succ_r by lia. ring.
Qed.

Lemma shl_align_value (mx : positive) (ex ex' : Z) :
  let '(m', e') := shl_align mx ex ex' in
  e' = Z.min ex ex' /\ Zpos m' = Zpos mx * 2 ^ (ex - e').
Proof.
  unfold shl_align. destruct (ex' - ex) as [|d|d] eqn:S.
  - split; [lia|]. rewrite Z.sub_diag. simpl. lia.
  - split; [lia|]. rewrite Z.sub_diag. simpl. lia.
  - split; [lia|]. rewrite iter_xO_value. f_equal. f_equal. lia.
Qed.

(** A valid finite float: exponent in range, at most 53 bits, and a full
    53 bits unless the exponent is the smallest. *)
Lemma valid_finite (s : bool) (m : positive) (e : Z) :
  valid_binary (S754_finite s m e) = true ->
  -1074 <= e <= 971 /\ Zpos m < 2 ^ 53 /\ (e = -1074 \/ 2 ^ 52 <= Zpos m).
Proof.
  unfold SpecFloat.valid_binary, bounded, canonical_mantissa. rewrite fexp_eq.
  intros H. apply andb_prop in H. destruct H as [C B].
  apply Z.eqb_eq in C. apply Z.leb_le in B.
  change (emax - prec) with 971 in B.
  pose proof (digits2_pos_bounds m) as [L U].
  assert (D : Zpos (digits2_pos m) <= 53) by lia.
  split; [lia|]. split.
  - assert (2 ^ Zpos (digits2_pos m) <= 2 ^ 53) by (apply Z.pow_le_mono_r; lia). lia.
  - destruct (Z.eq_dec e (-1074)) as [E|NE]; [left; exact E | right].
    replace (Zpos (digits2_pos m)) with 53 in L by lia. exact L.
Qed.

Lemma pow2_pos (z : Z) : 0 <= z -> 0 < 2 ^ z.
Proof. intros. apply Z.pow_pos_nonneg; lia. Qed.

(** On valid positive floats, the order of (exponent, mantissa) is the order
    of values. *)
Lemma valid_value_lt (m1 : positive) (e1 : Z) (m2 : positive) (e2 : Z) :
  valid_binary (S754_finite false m1 e1) = true ->
  valid_binary (S754_finite false m2 e2) = true ->
  e1 < e2 ->
  Zpos m1 * 2 ^ (e1 + 1074) < Zpos m2 * 2 ^ (e2 + 1074).
Proof.
  intros V1 V2 H.
  apply valid_finite in V1. apply valid_finite in V2.
  destruct V1 as (E1 & U1 & _). destruct V2 as (E2 & _ & [L2|L2]); [lia|].
  pose proof (pow2_pos (e1 + 1074) ltac:(lia)) as P1.
  assert (X : 2 ^ (e1 + 1 + 1074) <= 2 ^ (e2 + 1074)) by (apply Z.pow_le_mono_r; lia).
  replace (e1 + 1 + 1074) with (1 + (e1 + 1074)) in X by lia.
  rewrite Z.pow_add_r in X by lia. change (2 ^ 1) with 2 in X.
  change (2 ^ 53) with (2 ^ 52 * 2) in U1. nia.
Qed.

(** Among valid finite floats the order of keys is the order of values. *)
Lemma key_le_uval (x y : spec_float) :
  valid_binary x = true -> valid_binary y = true ->
  is_finite_or_zero x = true -> is_finite_or_zero y = true ->
  ~ lex_lt (fkey y) (fkey x) -> uval x <= uval y.
Proof.
  intros Vx Vy Fx Fy H.
  assert (P : forall s m e, valid_binary (S754_finite s m e) = true ->
                            0 < Zpos m * 2 ^ (e + 1074)).
  { intros s m e V. apply valid_finite in V. destruct V as (E & _ & _).
    pose proof (pow2_pos (e + 1074) ltac:(lia)). nia. }
  destruct x as [sx| | |sx mx ex]; try discriminate;
  destruct y as [sy| | |sy my ey]; try discriminate;
  try destruct sx; try destruct sy;
  try (pose proof (P _ _ _ Vx)); try (pose proof (P _ _ _ Vy));
  cbn [uval fkey lex_lt] in *; try lia.
  - destruct (Z.lt_trichotomy ex ey) as [L|[E|G]].
    + exfalso. lia.
    + subst. pose proof (pow2_pos (ey + 1074) ltac:(apply valid_finite in Vx; lia)). nia.
    + pose proof (valid_value_lt my ey mx ex Vy Vx G). lia.
  - destruct (Z.lt_trichotomy ex ey) as [L|[E|G]].
    + pose proof (valid_value_lt mx ex my ey Vx Vy L). lia.
    + subst. pose proof (pow2_pos (ey + 1074) ltac:(apply valid_finite in Vx; lia)). nia.
    + exfalso. lia.
Qed.

(** *** Addition to 1.0 *)

Lemma okey_positive (M t : Z) (x : spec_float) :
  0 < M -> x <> S754_nan -> fkey x = okey M t -> sf_positive x.
Proof.
  intros HM Hn K. unfold okey in K.
  destruct (Z.eqb_spec M 0); [lia|].
  assert (C : fkey x = (2, 0, 0) \/ exists e m, fkey x = (1, e, m)).
  { destruct (M =? 2 ^ 53); [destruct (t + 1 <=? 971) | destruct (t <=? 971)];
      rewrite K; eauto. }
  destruct x as [s|s| |s m e]; try congruence; try destruct s;
    destruct C as [C|(e' & m' & C)]; simpl in C; try discriminate.
  - right. reflexivity.
  - left. eauto.
Qed.

(** A fraction of at least one unit does not round to zero. *)
Lemma round_frac_positive (N D e : Z) :
  0 <= N -> 0 < D -> -1074 <= e ->
  e <= fexp prec emax (Zdigits2 (N / D) + e) ->
  D <= N * 2 ^ (e + 1074) ->
  sf_positive (binary_round_aux prec emax false (N / D) e (loc_frac N D)).
Proof.
  intros HN HD He Pre Hone.
  rewrite binary_round_aux_frac by assumption.
  destruct (target_bracket N D e HN HD Pre) as (Ta & Tb & Dp & U & L).
  set (t := target N D e) in *. set (D' := D * 2 ^ (t - e)) in *.
  assert (Mu : rne N D' <= 2 ^ 53) by (apply rne_upper; lia).
  assert (Ml : 0 <= rne N D') by (apply rne_lower; lia).
  assert (Mn : t = -1074 \/ 2 ^ 52 <= rne N D')
    by (destruct L; [left; assumption | right; apply rne_lower; lia]).
  destruct (encode_key (rne N D') t ltac:(lia) Ta Mn) as [Nn K].
  apply (okey_positive (rne N D') t); [|exact Nn | exact K].
  destruct L as [Et|L].
  - assert (e = -1074) by lia. subst e.
    assert (D' = D) by (unfold D'; rewrite Et; simpl; lia).
    replace (-1074 + 1074) with 0 in Hone by lia. rewrite Z.pow_0_r in Hone.
    assert (1 <= rne N D') by (apply rne_lower; lia). lia.
  - assert (2 ^ 52 <= rne N D') by (apply rne_lower; lia). lia.
Qed.

Lemma round_frac_not_nan (N D e : Z) :
  0 <= N -> 0 < D ->
  e <= fexp prec emax (Zdigits2 (N / D) + e) ->
  let r := binary_round_aux prec emax false (N / D) e (loc_frac N D) in
  r <> S754_nan /\ ~ lex_lt (fkey r) (0, 0, 0).
Proof.
  intros HN HD Pre r. unfold r.
  rewrite binary_round_aux_frac by assumption.
  destruct (target_bracket N D e HN HD Pre) as (Ta & Tb & Dp & U & L).
  set (t := target N D e) in *. set (D' := D * 2 ^ (t - e)) in *.
  assert (Mu : rne N D' <= 2 ^ 53) by (apply rne_upper; lia).
  assert (Ml : 0 <= rne N D') by (apply rne_lower; lia).
  assert (Mn : t = -1074 \/ 2 ^ 52 <= rne N D')
    by (destruct L; [left; assumption | right; apply rne_lower; lia]).
  destruct (encode_key (rne N D') t ltac:(lia) Ta Mn) as [Nn K].
  split; [exact Nn|]. rewrite K. unfold okey.
  destruct (_ =? 0); [simpl; lia|].
  destruct (_ =? 2 ^ 53); destruct (_ <=? 971); simpl; lia.
Qed.

(** [binary_round] first aligns the mantissa so that no precision is
    missing, then rounds the same value. *)
Lemma binary_round_as_frac (M : positive) (e : Z) :
  -1074 <= e ->
  exists N e',
    0 < N /\ -1074 <= e' /\
    e' <= fexp prec emax (Zdigits2 (N / 1) + e') /\
    N * 2 ^ (e' + 1074) = Zpos M * 2 ^ (e + 1074) /\
    binary_round prec emax false M e =
      binary_round_aux prec emax false (N / 1) e' (loc_frac N 1).
Proof.
  intros He. unfold binary_round.
  pose proof (shl_align_value M e (fexp prec emax (Zpos (digits2_pos M) + e))) as A.
  destruct (shl_align M e _) as [mz ez]. destruct A as [Ee Em].
  rewrite fexp_eq in Ee.
  exists (Zpos mz), ez. rewrite Z.div_1_r.
  split; [lia|]. split; [lia|]. split; [|split].
  - rewrite fexp_eq.
    assert (Dz : Zdigits2 (Zpos mz) = Zpos (digits2_pos M) + (e - ez)).
    { apply Zdigits2_unique; [lia|].
      pose proof (digits2_pos_bounds M) as [L U].
      assert (P : 0 < 2 ^ (e - ez)) by (apply Z.pow_pos_nonneg; lia).
      replace (Zpos (digits2_pos M) + (e - ez) - 1)
        with ((Zpos (digits2_pos M) - 1) + (e - ez)) by lia.
      rewrite !Z.pow_add_r by lia. nia. }
    rewrite Dz. lia.
  - rewrite Em. rewrite <- Z.mul_assoc, <- Z.pow_add_r by lia. do 2 f_equal. lia.
  - unfold loc_frac. rewrite Z.mod_1_r. reflexivity.
Qed.

Lemma binary_round_mono (M1 : positive) (e1 : Z) (M2 : positive) (e2 : Z) :
  -1074 <= e1 -> -1074 <= e2 ->
  Zpos M1 * 2 ^ (e1 + 1074) <= Zpos M2 * 2 ^ (e2 + 1074) ->
  SFleb (binary_round prec emax false M1 e1) (binary_round prec emax false M2 e2) = true.
Proof.
  intros H1 H2 H.
  destruct (binary_round_as_frac M1 e1 H1) as (N1 & e1' & P1 & E1 & Pre1 & V1 & ->).
  destruct (binary_round_as_frac M2 e2 H2) as (N2 & e2' & P2 & E2 & Pre2 & V2 & ->).
  apply round_mono; try assumption; try lia.
Qed.

Lemma binary_round_positive (M : positive) (e : Z) :
  -1074 <= e -> sf_positive (binary_round prec emax false M e).
Proof.
  intros H.
  destruct (binary_round_as_frac M e H) as (N & e' & P & E & Pre & V & ->).
  apply round_frac_positive; try assumption; try lia.
Qed.

(** [1.0 + x] for a finite [x] above -1 rounds the exact sum. *)
Lemma SFadd_one_round (x : spec_float) :
  valid_binary x = true -> is_finite_or_zero x = true ->
  - 2 ^ 1074 < uval x ->
  exists M e,
    -1074 <= e /\ Zpos M * 2 ^ (e + 1074) = 2 ^ 1074 + uval x /\
    SFadd prec emax sf_one x = binary_round prec emax false M e.
Proof.
  intros V F H. destruct x as [s| | |s m e]; try discriminate.
  - exists 4503599627370496%positive, (-52). split; [lia|]. split; reflexivity.
  - pose proof (valid_finite s m e V) as (E & _ & _).
    unfold sf_one. cbn [SFadd].
    pose proof (shl_align_value 4503599627370496 (-52) (Z.min (-52) e)) as A1.
    pose proof (shl_align_value m e (Z.min (-52) e)) as A2.
    destruct (shl_align 4503599627370496 (-52) _) as [m1 x1].
    destruct (shl_align m e _) as [m2 x2].
    destruct A1 as [X1 V1]. destruct A2 as [X2 V2]. cbn [fst cond_Zopp].
    set (ez := Z.min (-52) e) in *.
    assert (Ez : -1074 <= ez <= -52) by lia.
    assert (X1' : x1 = ez) by lia. assert (X2' : x2 = ez) by lia. subst x1 x2.
    assert (S1 : Zpos m1 * 2 ^ (ez + 1074) = 2 ^ 1074).
    { rewrite V1. change 4503599627370496 with (2 ^ 52).
      rewrite <- !Z.pow_add_r by lia. f_equal. lia. }
    assert (S2 : Zpos m2 * 2 ^ (ez + 1074) = Zpos m * 2 ^ (e + 1074)).
    { rewrite V2. rewrite <- Z.mul_assoc, <- Z.pow_add_r by lia. do 2 f_equal. lia. }
    pose proof (pow2_pos (ez + 1074) ltac:(lia)) as Pz.
    assert (S : (Zpos m1 + cond_Zopp s (Zpos m2)) * 2 ^ (ez + 1074) = 2 ^ 1074 + uval (S754_finite s m e)).
    { destruct s; cbn [cond_Zopp uval]; nia. }
    destruct (Zpos m1 + cond_Zopp s (Zpos m2)) as [|M|M] eqn:Sum; try nia.
    exists M, ez. split; [lia|]. split; [exact S|]. reflexivity.
Qed.

(** *** Division of 1.0 *)

(** The location computed from a remainder is that of the fraction. *)
Lemma new_location_frac (N D : Z) :
  0 < D -> new_location D (N mod D) = loc_frac N D.
Proof.
  intros HD. pose proof (Z.mod_pos_bound N D HD) as B.
  unfold new_location, new_location_even, new_location_odd, loc_frac.
  destruct (Z.even D) eqn:Ev; [reflexivity|].
  destruct (Z.eqb_spec (N mod D) 0); [reflexivity|].
  assert (Od : Z.odd D = true) by (rewrite <- Z.negb_even, Ev; reflexivity).
  apply Z.odd_spec in Od. destruct Od as [d Ed].
  destruct (Z.compare_spec (2 * (N mod D) + 1) D);
    destruct (Z.compare_spec (2 * (N mod D)) D); try reflexivity; exfalso; lia.
Qed.

Lemma div_eucl_div_mod (a b : Z) : Z.div_eucl a b = (a / b, a mod b).
Proof. unfold Z.div, Z.modulo. destruct (Z.div_eucl a b). reflexivity. Qed.

Lemma shift_case (a s : Z) :
  0 <= s ->
  match s with
  | 0 => a
  | Zpos _ => Z.shiftl a s
  | Zneg _ => 0
  end = a * 2 ^ s.
Proof.
  intros Hs. destruct s as [|p|p]; try lia.
  apply Z.shiftl_mul_pow2. lia.
Qed.

(** [1.0 / a] for a finite positive [a] rounds the exact quotient. *)
Lemma SFdiv_one_frac (m : positive) (e : Z) :
  valid_binary (S754_finite false m e) = true ->
  exists N e',
    0 <= N /\ -1074 <= e' /\
    e' <= fexp prec emax (Zdigits2 (N / Zpos m) + e') /\
    N * 2 ^ (e' + 1074) = 2 ^ (1074 - e) /\
    SFdiv prec emax sf_one (S754_finite false m e) =
      binary_round_aux prec emax false (N / Zpos m) e' (loc_frac N (Zpos m)).
Proof.
  intros V. pose proof (valid_finite false m e V) as (E & U & _).
  pose proof (digits2_pos_bounds m) as [Ld Ud].
  assert (Hd : 1 <= Zpos (digits2_pos m) <= 53).
  { split; [lia|]. assert (Zpos (digits2_pos m) - 1 < 53) by (apply pow2_lt_mono; lia). lia. }
  unfold sf_one. cbn [SFdiv xorb]. unfold SFdiv_core_binary.
  change (Zdigits2 4503599627370496) with 53.
  change (Zdigits2 (Zpos m)) with (Zpos (digits2_pos m)).
  rewrite fexp_eq.
  set (d2 := Zpos (digits2_pos m)) in *.
  set (e' := Z.min (Z.max (53 + -52 - (d2 + e) - 53) (-1074)) (-52 - e)).
  set (s := -52 - e - e').
  assert (Hs : 0 <= s) by lia.
  assert (Hs2 : d2 <= 52 + s) by lia.
  assert (Nm : match s with
               | 0 => 4503599627370496
               | Zpos _ => Z.shiftl 4503599627370496 s
               | Zneg _ => 0
               end = 2 ^ (52 + s)).
  { rewrite Z.pow_add_r by lia. change (2 ^ 52) with 4503599627370496.
    apply shift_case. exact Hs. }
  rewrite Nm. rewrite div_eucl_div_mod. rewrite new_location_frac by lia.
  exists (2 ^ (52 + s)), e'.
  pose proof (pow2_pos (52 + s) ltac:(lia)) as PN.
  split; [lia|]. split; [lia|]. split; [|split; [|reflexivity]].
  - rewrite fexp_eq.
    assert (Q : 2 ^ (52 + s - d2) <= 2 ^ (52 + s) / Zpos m).
    { apply Z.div_le_lower_bound; [lia|].
      replace (52 + s) with (d2 + (52 + s - d2)) at 2 by lia.
      rewrite Z.pow_add_r by lia.
      pose proof (pow2_pos (52 + s - d2) ltac:(lia)). nia. }
    pose proof (pow2_pos (52 + s - d2) ltac:(lia)) as Pq.
    pose proof (Zdigits2_bounds (2 ^ (52 + s) / Zpos m) ltac:(lia)) as [_ Uq].
    assert (52 + s - d2 < Zdigits2 (2 ^ (52 + s) / Zpos m))
      by (apply pow2_lt_mono; lia).
    lia.
  - rewrite <- Z.pow_add_r by lia. f_equal. lia.
Qed.

Lemma SFdiv_one_antimono (m1 : positive) (e1 : Z) (m2 : positive) (e2 : Z) :
  valid_binary (S754_finite false m1 e1) = true ->
  valid_binary (S754_finite false m2 e2) = true ->
  Zpos m1 * 2 ^ (e1 + 1074) <= Zpos m2 * 2 ^ (e2 + 1074) ->
  SFleb (SFdiv prec emax sf_one (S754_finite false m2 e2))
        (SFdiv prec emax sf_one (S754_finite false m1 e1)) = true.
Proof.
  intros V1 V2 H.
  destruct (SFdiv_one_frac m1 e1 V1) as (N1 & e1' & P1 & E1 & Pre1 & X1 & ->).
  destruct (SFdiv_one_frac m2 e2 V2) as (N2 & e2' & P2 & E2 & Pre2 & X2 & ->).
  pose proof (valid_finite false m1 e1 V1) as (B1 & _ & _).
  pose proof (valid_finite false m2 e2 V2) as (B2 & _ & _).
  apply round_mono; try assumption; try lia.
  rewrite X1, X2.
  pose proof (pow2_pos (e1 + 1074) ltac:(lia)) as A.
  pose proof (pow2_pos (e2 + 1074) ltac:(lia)) as B.
  assert (W1 : 2 ^ (1074 - e1) * 2 ^ (e1 + 1074) = 2 ^ 2148)
    by (rewrite <- Z.pow_add_r by lia; f_equal; lia).
  assert (W2 : 2 ^ (1074 - e2) * 2 ^ (e2 + 1074) = 2 ^ 2148)
    by (rewrite <- Z.pow_add_r by lia; f_equal; lia).
  pose proof (pow2_pos 2148 ltac:(lia)) as W.
  apply (Z.mul_le_mono_pos_r _ _ (2 ^ (e1 + 1074) * 2 ^ (e2 + 1074))); [nia|].
  replace (2 ^ (1074 - e2) * Zpos m1 * (2 ^ (e1 + 1074) * 2 ^ (e2 + 1074)))
    with ((Zpos m1 * 2 ^ (e1 + 1074)) * (2 ^ (1074 - e2) * 2 ^ (e2 + 1074))) by ring.
  replace (2 ^ (1074 - e1) * Zpos m2 * (2 ^ (e1 + 1074) * 2 ^ (e2 + 1074)))
    with ((Zpos m2 * 2 ^ (e2 + 1074)) * (2 ^ (1074 - e1) * 2 ^ (e1 + 1074))) by ring.
  rewrite W1, W2. apply Z.mul_le_mono_nonneg_r; lia.
Qed.

(** *** From the specification to the primitive operations *)

Lemma SFleb_true_key (a b : spec_float) :
  SFleb a b = true ->
  a <> S754_nan /\ b <> S754_nan /\ ~ lex_lt (fkey b) (fkey a).
Proof.
  unfold SFleb. intros H.
  assert (Ha : a <> S754_nan) by (intros ->; discriminate H).
  assert (Hb : b <> S754_nan) by (intros ->; destruct a; discriminate H).
  split; [exact Ha|]. split; [exact Hb|].
  destruct (SFcompare_trichotomy a b Ha Hb) as [[E L]|[[E L]|[E L]]];
    rewrite E in H; try discriminate;
    destruct (fkey a) as [[a1 a2] a3]; destruct (fkey b) as [[b1 b2] b3];
    simpl in *; [lia | injection L as -> -> ->; lia].
Qed.

Lemma SFltb_true_key (a b : spec_float) :
  SFltb a b = true ->
  a <> S754_nan /\ b <> S754_nan /\ lex_lt (fkey a) (fkey b).
Proof.
  unfold SFltb. intros H.
  assert (Ha : a <> S754_nan) by (intros ->; discriminate H).
  assert (Hb : b <> S754_nan) by (intros ->; destruct a; discriminate H).
  split; [exact Ha|]. split; [exact Hb|].
  destruct (SFcompare_trichotomy a b Ha Hb) as [[E L]|[[E L]|[E L]]];
    rewrite E in H; try discriminate. exact L.
Qed.

(** The floats above -1: the finite ones whose value exceeds [-2^1074]
    units, and plus infinity. *)
Lemma above_minus_one (x : spec_float) :
  valid_binary x = true -> x <> S754_nan ->
  lex_lt (fkey sf_minus_one) (fkey x) ->
  (is_finite_or_zero x = true /\ - 2 ^ 1074 < uval x) \/ x = S754_infinity false.
Proof.
  intros V Hn L.
  destruct x as [s|s| |s m e]; try congruence.
  - left. split; [reflexivity|]. simpl. lia.
  - destruct s; [simpl in L; lia | right; reflexivity].
  - left. split; [reflexivity|].
    pose proof (valid_finite s m e V) as (E & U & N).
    pose proof (pow2_pos (e + 1074) ltac:(lia)) as P.
    destruct s; cbn [uval]; [|nia].
    cbn [fkey sf_minus_one lex_lt] in L.
    assert (Ee : e <= -53) by (change 4503599627370496 with (2 ^ 52) in L; lia).
    assert (X : 2 ^ (e + 1074) <= 2 ^ 1021) by (apply Z.pow_le_mono_r; lia).
    change (2 ^ 1074) with (2 ^ 53 * 2 ^ 1021). nia.
Qed.

Lemma SFadd_one_positive (x : spec_float) :
  valid_binary x = true -> x <> S754_nan ->
  lex_lt (fkey sf_minus_one) (fkey x) ->
  sf_positive (SFadd prec emax sf_one x).
Proof.
  intros V Hn L.
  destruct (above_minus_one x V Hn L) as [[F U]| ->].
  - destruct (SFadd_one_round x V F U) as (M & e & He & _ & ->).
    apply binary_round_positive. exact He.
  - right. reflexivity.
Qed.

Lemma sf_positive_leb_infinity (a : spec_float) :
  sf_positive a -> SFleb a (S754_infinity false) = true.
Proof. intros [(m & e & ->)| ->]; reflexivity. Qed.

(** [1.0 + x] does not decrease when [x], above -1, grows. *)
Lemma SFadd_one_mono (x y : spec_float) :
  valid_binary x = true -> valid_binary y = true ->
  lex_lt (fkey sf_minus_one) (fkey x) ->
  SFleb x y = true ->
  SFleb (SFadd prec emax sf_one x) (SFadd prec emax sf_one y) = true.
Proof.
  intros Vx Vy Lx Hxy.
  destruct (SFleb_true_key x y Hxy) as (Nx & Ny & K).
  assert (Ly : lex_lt (fkey sf_minus_one) (fkey y)).
  { destruct (fkey sf_minus_one) as [[a1 a2] a3]; destruct (fkey x) as [[b1 b2] b3];
      destruct (fkey y) as [[c1 c2] c3]; simpl in *; lia. }
  destruct (above_minus_one y Vy Ny Ly) as [[Fy Uy]| ->].
  - destruct (above_minus_one x Vx Nx Lx) as [[Fx Ux]| ->].
    + destruct (SFadd_one_round x Vx Fx Ux) as (M1 & e1 & He1 & S1 & ->).
      destruct (SFadd_one_round y Vy Fy Uy) as (M2 & e2 & He2 & S2 & ->).
      apply binary_round_mono; try assumption.
      rewrite S1, S2. pose proof (key_le_uval x y Vx Vy Fx Fy K). lia.
    + exfalso. destruct y as [s|s| |s m e]; try discriminate;
        try destruct s; simpl in K; lia.
  - change (SFadd prec emax sf_one (S754_infinity false)) with (S754_infinity false).
    apply sf_positive_leb_infinity. apply SFadd_one_positive; assumption.
Qed.

(** [1.0 / a] does not increase when the positive [a] grows. *)
Lemma SFdiv_one_leb (a1 a2 : spec_float) :
  valid_binary a1 = true -> valid_binary a2 = true ->
  sf_positive a1 -> sf_positive a2 ->
  SFleb a1 a2 = true ->
  SFleb (SFdiv prec emax sf_one a2) (SFdiv prec emax sf_one a1) = true.
Proof.
  intros V1 V2 P1 P2 H.
  destruct (SFleb_true_key a1 a2 H) as (N1 & N2 & K).
  destruct P1 as [(m1 & e1 & ->)| ->]; destruct P2 as [(m2 & e2 & ->)| ->].
  - apply SFdiv_one_antimono; try assumption.
    exact (key_le_uval _ _ V1 V2 eq_refl eq_refl K).
  - change (SFdiv prec emax sf_one (S754_infinity false)) with (S754_zero false).
    destruct (SFdiv_one_frac m1 e1 V1) as (N & e' & HN & He & Pre & _ & ->).
    destruct (round_frac_not_nan N (Zpos m1) e' HN ltac:(lia) Pre) as [Nn Kn].
    apply SFleb_key; [discriminate | exact Nn | exact Kn].
  - discriminate H.
  - reflexivity.
Qed.

Lemma sf_positive_nonzero (a : spec_float) :
  sf_positive a -> SFeqb a (S754_zero false) = false.
Proof. intros [(m & e & ->)| ->]; reflexivity. Qed.

Lemma Prim2SF_one : Prim2SF 1 = sf_one.
Proof. reflexivity. Qed.

Lemma Prim2SF_minus_one : Prim2SF (-1) = sf_minus_one.
Proof. reflexivity. Qed.

Lemma Prim2SF_zero : Prim2SF 0 = S754_zero false.
Proof. reflexivity. Qed.

(** The divisor of the score is never zero above -1, and the quotient does
    not increase with the distance. *)
Lemma score_transform_monotone (d1 d2 : float) :
  (-1 <? d1)%float = true -> (d1 <=? d2)%float = true ->
  ((1 + d1 =? 0)%float = false /\ (1 + d2 =? 0)%float = false) /\
  (1 / (1 + d2) <=? 1 / (1 + d1))%float = true.
Proof.
  intros H1 H12.
  rewrite ltb_spec, Prim2SF_minus_one in H1. rewrite leb_spec in H12.
  pose proof (Prim2SF_valid d1) as V1. pose proof (Prim2SF_valid d2) as V2.
  destruct (SFltb_true_key _ _ H1) as (_ & N1 & L1).
  destruct (SFleb_true_key _ _ H12) as (_ & N2 & K).
  assert (L2 : lex_lt (fkey sf_minus_one) (fkey (Prim2SF d2))).
  { destruct (fkey sf_minus_one) as [[a1 a2] a3];
      destruct (fkey (Prim2SF d1)) as [[b1 b2] b3];
      destruct (fkey (Prim2SF d2)) as [[c1 c2] c3]; simpl in *; lia. }
  pose proof (SFadd_one_positive _ V1 N1 L1) as P1.
  pose proof (SFadd_one_positive _ V2 N2 L2) as P2.
  pose proof (SFadd_one_mono _ _ V1 V2 L1 H12) as A.
  assert (S1 : Prim2SF (1 + d1) = SFadd prec emax sf_one (Prim2SF d1))
    by (rewrite add_spec, Prim2SF_one; reflexivity).
  assert (S2 : Prim2SF (1 + d2) = SFadd prec emax sf_one (Prim2SF d2))
    by (rewrite add_spec, Prim2SF_one; reflexivity).
  split.
  - rewrite !eqb_spec, Prim2SF_zero, S1, S2.
    split; apply sf_positive_nonzero; assumption.
  - rewrite leb_spec, !div_spec, Prim2SF_one.
    apply SFdiv_one_leb; try apply Prim2SF_valid; rewrite ?S1, ?S2; assumption.
Qed.


End Rounding.

(* ------------------------------------------------------------------ *)
(** ** The score transform *)

Lemma score_defined (numpy : bool) (d : float) :
  (-1 <? d)%float = true -> score numpy d = Ret (1 / (1 + d))%float.
Proof.
  intros H.
  assert (Hd : (d <=? d)%float = true)
    by (apply leb_refl; apply (ltb_is_number _ _ H)).
  destruct (score_transform_monotone d d H Hd) as [[Z _] _].
  unfold score, py_div. rewrite Z. destruct numpy; reflexivity.
Qed.

(** C5, amended: on distances above -1 the score [1/(1+d)] is defined and
    never increases with the distance, though distinct distances may get
    equal scores; the score of distance 0 is exactly 1.0.  That holds for
    Python floats and for numpy scalars alike. *)
Theorem score_non_increasing (numpy : bool) (d1 d2 : float) :
  (-1 <? d1)%float = true ->
  (d1 <=? d2)%float = true ->
  (exists s1 s2,
     score numpy d1 = Ret s1 /\ score numpy d2 = Ret s2 /\
     (s2 <=? s1)%float = true) /\
  score numpy 0 = Ret 1%float.
Proof.
  intros H1 H12.
  assert (H2 : (-1 <? d2)%float = true) by (exact (ltb_leb_trans _ _ _ H1 H12)).
  split; [|destruct numpy; reflexivity].
  exists (1 / (1 + d1))%float, (1 / (1 + d2))%float.
  split; [apply score_defined; exact H1|].
  split; [apply score_defined; exact H2|].
  apply (score_transform_monotone d1 d2 H1 H12).
Qed.

Lemma score_non_increasing_witness :
  (-1 <? 0x1p-60)%float = true /\
  (0x1p-60 <=? 0x1p-59)%float = true /\
  exists s1 s2,
    score false 0x1p-60 = Ret s1 /\ score false 0x1p-59 = Ret s2 /\
    (s2 <=? s1)%float = true.
Proof.
  split; [reflexivity|]. split; [reflexivity|].
  exact (proj1 (score_non_increasing false 0x1p-60 0x1p-59 eq_refl eq_refl)).
Defined.

(* ------------------------------------------------------------------ *)
(** ** Retriever: size and order of the result *)

Lemma StronglySorted_firstn {A : Type} (R : A -> A -> Prop) (n : nat) (l : list A) :
  StronglySorted R l -> StronglySorted R (firstn n l).
Proof.
  revert l. induction n as [|n IH]; intros l H; simpl.
  - constructor.
  - destruct H as [|x l Hs Hall]; [constructor|].
    constructor; [apply IH; exact Hs|].
    rewrite Forall_forall in *. intros y Hy. apply Hall.
    rewrite <- (firstn_skipn n l). apply in_or_app. left. exact Hy.
Qed.

Lemma Forall_firstn {A : Type} (P : A -> Prop) (n : nat) (l : list A) :
  Forall P l -> Forall P (firstn n l).
Proof.
  intros H. rewrite Forall_forall in *. intros x Hx. apply H.
  rewrite <- (firstn_skipn n l). apply in_or_app. left. exact Hx.
Qed.

(** Candidates in ascending order of distance, all above -1, have scores in
    descending order. *)
Lemma scores_of_ranked (numpy : bool) (kept : list (Document * float)) :
  StronglySorted distance_le kept ->
  Forall (fun c => (-1 <? snd c)%float = true) kept ->
  exists scores,
    map_outcome (fun c => score numpy (snd c)) kept = Ret scores /\
    Forall2 (fun c s => score numpy (snd c) = Ret s) kept scores /\
    StronglySorted score_ge scores.
Proof.
  intros Hs. induction Hs as [|c kept Hs IH Hall]; intros Hb.
  - exists []. repeat split; constructor.
  - inversion Hb as [|? ? Hc Hb']; subst.
    destruct (IH Hb') as (scores & E & F & S).
    exists ((1 / (1 + snd c))%float :: scores).
    simpl. rewrite (score_defined numpy _ Hc), E.
    split; [reflexivity|]. split.
    + constructor; [apply score_defined; exact Hc | exact F].
    + constructor; [exact S|].
      clear E S IH Hs Hb.
      induction F as [|c' s' kept' scores' Hc' F IHF]; constructor.
      * inversion Hall as [|? ? Hle _]; subst.
        inversion Hb' as [|? ? Hbc' _]; subst.
        rewrite (score_defined numpy _ Hbc') in Hc'. injection Hc' as <-.
        apply (score_transform_monotone (snd c) (snd c') Hc Hle).
      * inversion Hall; inversion Hb'; subst. apply IHF; assumption.
Qed.

(** A store that reports the distances 0 and -3: the document ranked first
    by distance gets the lower score, so the scores increase with the rank.
    And a negative [k] is below every length. *)
Lemma retrieve_scores_can_increase :
  (exists docs,
     retrieve signed_world (JStr "q") "nec" 6 empty_heap =
       (Ret (docs, [(-0.5)%float; 1%float]), empty_heap) /\
     List.length docs = 2%nat /\
     ((-0.5) <? 1)%float = true /\
     ~ StronglySorted score_ge [(-0.5)%float; 1%float]) /\
  (exists docs scores,
     retrieve signed_world (JStr "q") "nec" (-1) empty_heap =
       (Ret (docs, scores), empty_heap) /\
     (-1 < Z.of_nat (List.length docs))%Z).
Proof.
  split.
  - eexists. split; [vm_compute; reflexivity|].
    split; [reflexivity|]. split; [reflexivity|].
    intros H. inversion H as [|? ? _ Hall]; subst.
    inversion Hall as [|? ? Hge _]; subst.
    unfold score_ge in Hge. vm_compute in Hge. discriminate.
  - exists [], []. split; [vm_compute; reflexivity | simpl; lia].
Qed.

(** C4, amended: for a count [k >= 0] and candidates whose distances are
    above -1, once the embeddings object is built [retrieve] returns at most
    [k] documents, with as many scores, and the scores never increase along
    the ranking. *)
Theorem retrieve_bounded_and_ranked (w : World) (query : json) (hint : string)
  (k : Z) (h : Heap) :
  (0 <= k)%Z ->
  load_failure w h hint = None ->
  Forall (fun c => (-1 <? snd c)%float = true) (fused_candidates w h query hint k) ->
  exists docs scores,
    retrieve w query hint k h = (Ret (docs, scores), h) /\
    (Z.of_nat (List.length docs) <= k)%Z /\
    List.length scores = List.length docs /\
    StronglySorted score_ge scores.
Proof.
  intros Hk Hl Hb.
  rewrite retrieve_loaded by exact Hl. rewrite slice_to_nonneg by exact Hk.
  set (cands := fused_candidates w h query hint k) in *.
  assert (Hnum : Forall (fun c => is_number (snd c)) cands).
  { eapply Forall_impl; [|exact Hb]. intros c Hc. apply (ltb_is_number _ _ Hc). }
  assert (Hs : StronglySorted distance_le (firstn (Z.to_nat k) (sort_by_distance cands)))
    by (apply StronglySorted_firstn, sort_by_distance_sorted; exact Hnum).
  assert (Hb' : Forall (fun c => (-1 <? snd c)%float = true)
                       (firstn (Z.to_nat k) (sort_by_distance cands))).
  { apply Forall_firstn.
    apply (Permutation_Forall (Permutation_sym (sort_by_distance_perm cands))).
    exact Hb. }
  destruct (scores_of_ranked (numpy_distances w) _ Hs Hb') as (scores & E & _ & S).
  exists (map fst (firstn (Z.to_nat k) (sort_by_distance cands))), scores.
  unfold docs_and_scores. rewrite E.
  split; [reflexivity|]. split; [|split; [|exact S]].
  - rewrite length_map. pose proof (firstn_le_length (Z.to_nat k) (sort_by_distance cands)).
    lia.
  - rewrite length_map. apply (map_outcome_length _ _ _ E).
Qed.

Lemma retrieve_bounded_and_ranked_witness :
  (0 <= 2)%Z /\
  Forall (fun c => (-1 <? snd c)%float = true)
         (fused_candidates sample_world empty_heap (JStr "grounding") "general" 2) /\
  exists docs scores,
    retrieve sample_world (JStr "grounding") "general" 2 empty_heap =
      (Ret (docs, scores), empty_heap) /\
    (Z.of_nat (List.length docs) <= 2)%Z /\
    List.length scores = List.length docs /\
    StronglySorted score_ge scores.
Proof.
  assert (Hk : (0 <= 2)%Z) by lia.
  assert (Hb : Forall (fun c => (-1 <? snd c)%float = true)
            (fused_candidates sample_world empty_heap (JStr "grounding") "general" 2)).
  { vm_compute. repeat constructor. }
  split; [exact Hk|]. split; [exact Hb|].
  exact (retrieve_bounded_and_ranked sample_world (JStr "grounding") "general" 2
           empty_heap Hk eq_refl Hb).
Defined.

(* ================================================================== *)
(** * Further properties *)

(* ------------------------------------------------------------------ *)
(** ** Intent classifier: the three labels *)

Lemma lower_split (q a b : string) :
  Str.lower q = (a ++ b)%string ->
  exists qa qb, q = (qa ++ qb)%string /\ Str.lower qa = a /\ Str.lower qb = b.
Proof.
  revert q. induction a as [|c a IH]; intros q H.
  - exists ""%string, q. repeat split. exact H.
  - destruct q as [|d q]; simpl in H; [discriminate|].
    injection H as Hc Hq. destruct (IH q Hq) as (qa & qb & -> & Ha & Hb).
    exists (String d qa), qb. simpl. rewrite Hc, Ha. repeat split. exact Hb.
Qed.

Lemma contains_lower_occurs (kw q : string) :
  Str.contains kw (Str.lower q) = true <-> occurs_in kw q.
Proof.
  split.
  - intros H. apply contains_split in H. destruct H as (pre' & post' & E).
    destruct (lower_split q pre' (kw ++ post') E) as (pre & rest & -> & Hp & Hr).
    destruct (lower_split rest kw post' Hr) as (occ & post & -> & Ho & _).
    exists pre, occ, post. split; [reflexivity | exact Ho].
  - intros (pre & occ & post & -> & Ho).
    rewrite !lower_app, Ho. apply contains_app.
Qed.

Lemma any_in_occurs (ks : list string) (q : string) :
  any_in ks (Str.lower q) = true <-> exists kw, In kw ks /\ occurs_in kw q.
Proof.
  unfold any_in. rewrite existsb_exists. split.
  - intros (kw & Hin & Hc). exists kw. split; [exact Hin|].
    apply contains_lower_occurs. exact Hc.
  - intros (kw & Hin & Ho). exists kw. split; [exact Hin|].
    apply contains_lower_occurs. exact Ho.
Qed.

(** X1: on an ASCII query [classify_intent] answers one of three labels:
    ["nec"] exactly when a regulatory keyword occurs in the query in some
    letter case, ["wattmonk"] exactly when none does and an organisation
    keyword occurs, ["general"] exactly when no keyword of either list
    occurs. *)
Theorem classify_intent_labels (q : string) :
  Str.is_ascii q = true ->
  In (classify_intent q) INTENTS /\
  (classify_intent q = "nec" <->
   exists kw, In kw NEC_KEYWORDS /\ occurs_in kw q) /\
  (classify_intent q = "wattmonk" <->
   (~ exists kw, In kw NEC_KEYWORDS /\ occurs_in kw q) /\
   exists kw, In kw WATTMONK_KEYWORDS /\ occurs_in kw q) /\
  (classify_intent q = "general" <->
   ~ exists kw, In kw (NEC_KEYWORDS ++ WATTMONK_KEYWORDS) /\ occurs_in kw q).
Proof.
  intros _.
  pose proof (any_in_occurs NEC_KEYWORDS q) as N.
  pose proof (any_in_occurs WATTMONK_KEYWORDS q) as W.
  unfold classify_intent.
  destruct (any_in NEC_KEYWORDS (Str.lower q)) eqn:En.
  - assert (Hn : exists kw, In kw NEC_KEYWORDS /\ occurs_in kw q) by (apply N; reflexivity).
    split; [simpl; tauto|]. split; [tauto|]. split.
    + split; [discriminate | intros [H _]; contradiction].
    + split; [discriminate|]. intros H. exfalso. apply H.
      destruct Hn as (kw & Hin & Ho). exists kw. split; [|exact Ho].
      apply in_or_app. left. exact Hin.
  - assert (Hn : ~ exists kw, In kw NEC_KEYWORDS /\ occurs_in kw q)
      by (intros H; apply N in H; discriminate).
    destruct (any_in WATTMONK_KEYWORDS (Str.lower q)) eqn:Ew.
    + assert (Hw : exists kw, In kw WATTMONK_KEYWORDS /\ occurs_in kw q)
        by (apply W; reflexivity).
      split; [simpl; tauto|]. split; [split; [discriminate | contradiction]|].
      split; [tauto|].
      split; [discriminate|]. intros H. exfalso. apply H.
      destruct Hw as (kw & Hin & Ho). exists kw. split; [|exact Ho].
      apply in_or_app. right. exact Hin.
    + assert (Hw : ~ exists kw, In kw WATTMONK_KEYWORDS /\ occurs_in kw q)
        by (intros H; apply W in H; discriminate).
      split; [simpl; tauto|]. split; [split; [discriminate | contradiction]|].
      split; [split; [discriminate | intros [_ H]; contradiction]|].
      split; [|reflexivity]. intros _ (kw & Hin & Ho).
      apply in_app_or in Hin. destruct Hin as [Hin|Hin]; [apply Hn | apply Hw];
        exists kw; split; assumption.
Qed.

Lemma classify_intent_labels_witness :
  classify_intent "What is the SLA?" = "wattmonk" <->
  (~ exists kw, In kw NEC_KEYWORDS /\ occurs_in kw "What is the SLA?") /\
  exists kw, In kw WATTMONK_KEYWORDS /\ occurs_in kw "What is the SLA?".
Proof.
  exact (proj1 (proj2 (proj2 (classify_intent_labels "What is the SLA?" eq_refl)))).
Defined.

Lemma lower_ascii_idempotent (c : ascii) :
  Str.lower_ascii (Str.lower_ascii c) = Str.lower_ascii c.
Proof. destruct c as [[] [] [] [] [] [] [] []]; reflexivity. Qed.

Lemma lower_idempotent (s : string) : Str.lower (Str.lower s) = Str.lower s.
Proof.
  induction s as [|c s IH]; simpl; [reflexivity|].
  now rewrite lower_ascii_idempotent, IH.
Qed.

(** X2: the label depends on the query only up to letter case: two queries
    with the same lower-casing get the same label, and so does a query and
    its lower-casing. *)
Theorem classify_intent_case_insensitive (q1 q2 : string) :
  Str.lower q1 = Str.lower q2 ->
  classify_intent q1 = classify_intent q2 /\
  classify_intent (Str.lower q1) = classify_intent q1.
Proof.
  intros H. unfold classify_intent. rewrite lower_idempotent, H. split; reflexivity.
Qed.

Lemma classify_intent_case_insensitive_witness :
  Str.lower "NFPA 70 rules" = Str.lower "nfpa 70 RULES" /\
  classify_intent "NFPA 70 rules" = classify_intent "nfpa 70 RULES".
Proof.
  split; [reflexivity|].
  exact (proj1 (classify_intent_case_insensitive "NFPA 70 rules" "nfpa 70 RULES"
                  eq_refl)).
Defined.

(* ------------------------------------------------------------------ *)
(** ** Model names *)

Lemma is_digit_cases (d : ascii) :
  is_digit d = true ->
  In d ["0"; "1"; "2"; "3"; "4"; "5"; "6"; "7"; "8"; "9"]%char.
Proof.
  destruct d as [[] [] [] [] [] [] [] []]; intros H; try discriminate H;
    simpl; tauto.
Qed.

(** X3: [sanitize_model] only ever answers one of the two allowed model
    names, leaves those two unchanged, accepts them with a version suffix
    [-00d], and is idempotent. *)
Theorem sanitize_model_allowed (name : string) :
  (sanitize_model name = "gemini-1.5-flash" \/ sanitize_model name = "gemini-1.5-pro") /\
  sanitize_model (sanitize_model name) = sanitize_model name /\
  sanitize_model "gemini-1.5-flash" = "gemini-1.5-flash" /\
  sanitize_model "gemini-1.5-pro" = "gemini-1.5-pro" /\
  (forall d, is_digit d = true ->
     sanitize_model ("gemini-1.5-flash-00" ++ String d "") = "gemini-1.5-flash" /\
     sanitize_model ("gemini-1.5-pro-00" ++ String d "") = "gemini-1.5-pro").
Proof.
  assert (A : sanitize_model name = "gemini-1.5-flash" \/
              sanitize_model name = "gemini-1.5-pro").
  { unfold sanitize_model.
    destruct (String.eqb (strip_version name) "gemini-1.5-flash") eqn:F; simpl.
    - left. apply String.eqb_eq. exact F.
    - destruct (String.eqb (strip_version name) "gemini-1.5-pro") eqn:P.
      + right. apply String.eqb_eq. exact P.
      + left. reflexivity. }
  split; [exact A|]. split.
  { destruct A as [-> | ->]; reflexivity. }
  split; [reflexivity|]. split; [reflexivity|].
  intros d Hd. apply is_digit_cases in Hd. simpl in Hd.
  repeat (destruct Hd as [<- | Hd]; [split; reflexivity|]). contradiction.
Qed.

(* ------------------------------------------------------------------ *)
(** ** Mode decider: which scores matter *)

Lemma decide_mode_rag_iff (scores : list float) (intent : string) :
  decide_mode scores intent = "rag" <->
  (threshold intent <? max_score scores)%float = true.
Proof.
  unfold decide_mode, threshold.
  destruct (String.eqb intent "nec" || String.eqb intent "wattmonk"); simpl.
  - destruct (0.25 <? max_score scores)%float eqn:E25; [tauto|].
    destruct (0.7 <? max_score scores)%float eqn:E7.
    + apply above_general_above_topical in E7. congruence.
    + split; discriminate.
  - destruct (0.7 <? max_score scores)%float; split; try discriminate; reflexivity.
Qed.

Lemma decide_mode_two_modes (scores : list float) (intent : string) :
  In (decide_mode scores intent) MODES.
Proof.
  unfold decide_mode, MODES.
  destruct ((String.eqb intent "nec" || String.eqb intent "wattmonk")
            && (0.25 <? max_score scores)%float); [simpl; tauto|].
  destruct (0.7 <? max_score scores)%float; simpl; tauto.
Qed.

Lemma decide_mode_by_rag (s1 s2 : list float) (i1 i2 : string) :
  (decide_mode s1 i1 = "rag" <-> decide_mode s2 i2 = "rag") ->
  decide_mode s1 i1 = decide_mode s2 i2.
Proof.
  intros H.
  destruct (decide_mode_two_modes s1 i1) as [E1|[E1|[]]];
    destruct (decide_mode_two_modes s2 i2) as [E2|[E2|[]]];
    try congruence.
  - pose proof (proj1 H (eq_sym E1)). congruence.
  - pose proof (proj2 H (eq_sym E2)). congruence.
Qed.

Lemma threshold_exceeded_mono (intent : string) (x : float) :
  (0.7 <? x)%float = true -> (threshold intent <? x)%float = true.
Proof.
  intros H. unfold threshold.
  destruct (String.eqb intent "nec" || String.eqb intent "wattmonk");
    [apply above_general_above_topical|]; exact H.
Qed.

(** X4: on scores without NaN, [decide_mode] answers ["rag"] exactly when
    some score exceeds the threshold of the intent; so the answer does not
    depend on the order of the scores, further scores never turn ["rag"]
    into ["general"], and whatever grounds a general query grounds a query
    of any intent. *)
Theorem decide_mode_some_score_exceeds (scores : list float) (intent : string) :
  Forall is_number scores ->
  (decide_mode scores intent = "rag" <->
   Exists (fun s => (threshold intent <? s)%float = true) scores) /\
  (forall scores', Permutation scores scores' ->
     decide_mode scores' intent = decide_mode scores intent) /\
  (forall more, Forall is_number more ->
     decide_mode scores intent = "rag" -> decide_mode (scores ++ more) intent = "rag") /\
  (decide_mode scores "general" = "rag" -> decide_mode scores intent = "rag").
Proof.
  intros Hn.
  assert (Iff : forall sc, Forall is_number sc ->
            (decide_mode sc intent = "rag" <->
             Exists (fun s => (threshold intent <? s)%float = true) sc)).
  { intros sc Hsc. rewrite decide_mode_rag_iff.
    destruct sc as [|x l].
    - simpl. split.
      + intros H. exfalso. unfold threshold in H.
        destruct (String.eqb intent "nec" || String.eqb intent "wattmonk");
          vm_compute in H; discriminate.
      + intros H. inversion H.
    - apply max_score_exceeds; [discriminate | exact Hsc]. }
  split; [apply Iff; exact Hn|]. split; [|split].
  - intros scores' P. apply decide_mode_by_rag.
    rewrite (Iff scores Hn), (Iff scores' (Permutation_Forall P Hn)).
    rewrite !Exists_exists. split; intros (s & Hin & Hs); exists s; split; try exact Hs.
    + apply (Permutation_in _ (Permutation_sym P)). exact Hin.
    + apply (Permutation_in _ P). exact Hin.
  - intros more Hm H. apply Iff; [apply Forall_app; split; assumption|].
    apply (Iff scores Hn) in H. apply Exists_app. left. exact H.
  - intros H. apply decide_mode_rag_iff. apply decide_mode_rag_iff in H.
    apply threshold_exceeded_mono. exact H.
Qed.

Lemma decide_mode_some_score_exceeds_witness :
  Forall is_number [0.1%float; 0.75%float; 0.2%float] /\
  decide_mode [0.2%float; 0.1%float; 0.75%float] "general" =
  decide_mode [0.1%float; 0.75%float; 0.2%float] "general".
Proof.
  assert (Hn : Forall is_number [0.1%float; 0.75%float; 0.2%float])
    by (repeat constructor).
  split; [exact Hn|].
  apply (proj1 (proj2 (decide_mode_some_score_exceeds
                         [0.1%float; 0.75%float; 0.2%float] "general" Hn))).
  apply Permutation_sym. apply (Permutation_cons_append [0.1%float; 0.75%float] 0.2%float).
Defined.

Lemma leb_not_ltb (x y : float) :
  (x <=? y)%float = true -> (y <? x)%float = false.
Proof.
  intros H. destruct (leb_is_number _ _ H) as [Hx Hy].
  destruct (float_trichotomy x y Hx Hy) as [(?&?&?&?&?&?)|[(?&?&?&?&?&?)|(?&?&?&?&?&?)]];
    congruence.
Qed.

Lemma py_max_of_ranked (s : float) (rest : list float) :
  Forall (score_ge s) rest -> py_max s rest = s.
Proof.
  induction rest as [|y rest IH]; intros H; [reflexivity|].
  inversion H as [|? ? Hy Hr]; subst. unfold py_max in *. simpl.
  rewrite (leb_not_ltb _ _ Hy). apply IH. exact Hr.
Qed.

(** X5: on scores in rank order (never increasing), the maximum is the
    first score, so [decide_mode] decides on the top-ranked score alone. *)
Theorem decide_mode_top_score (s : float) (rest : list float) (intent : string) :
  StronglySorted score_ge (s :: rest) ->
  max_score (s :: rest) = s /\
  decide_mode (s :: rest) intent = decide_mode [s] intent.
Proof.
  intros H. inversion H as [|? ? _ Hall]; subst.
  assert (M : max_score (s :: rest) = s) by (apply py_max_of_ranked; exact Hall).
  split; [exact M|].
  apply decide_mode_by_rag. rewrite !decide_mode_rag_iff, M. simpl. tauto.
Qed.

Lemma decide_mode_top_score_witness :
  StronglySorted score_ge [0.75%float; 0.2%float; 0.1%float] /\
  decide_mode [0.75%float; 0.2%float; 0.1%float] "general" =
  decide_mode [0.75%float] "general".
Proof.
  assert (H : StronglySorted score_ge [0.75%float; 0.2%float; 0.1%float])
    by (repeat constructor).
  split; [exact H|].
  exact (proj2 (decide_mode_top_score 0.75 [0.2%float; 0.1%float] "general" H)).
Defined.

(* ------------------------------------------------------------------ *)
(** ** Scores: range and the distance behind each threshold *)

Lemma leb_infinity (x : float) : is_number x -> (x <=? infinity)%float = true.
Proof.
  intros Hx. apply is_number_spec in Hx.
  rewrite leb_spec. change (Prim2SF infinity) with (S754_infinity false).
  destruct (Prim2SF x) as [s|s| |s m e]; try congruence; destruct s; reflexivity.
Qed.

(** X6: a distance that is not negative gets a score between 0.0 and 1.0. *)
Theorem score_in_unit_interval (numpy : bool) (d : float) :
  (0 <=? d)%float = true ->
  exists s, score numpy d = Ret s /\ (0 <=? s)%float = true /\ (s <=? 1)%float = true.
Proof.
  intros H0.
  assert (Hm : (-1 <? d)%float = true).
  { apply (ltb_leb_trans (-1) 0 d); [reflexivity | exact H0]. }
  destruct (leb_is_number _ _ H0) as [_ Hd].
  exists (1 / (1 + d))%float. split; [apply score_defined; exact Hm|]. split.
  - exact (proj2 (score_transform_monotone d infinity Hm (leb_infinity d Hd))).
  - assert (H1 : (-1 <? 0)%float = true) by reflexivity.
    exact (proj2 (score_transform_monotone 0 d H1 H0)).
Qed.

Lemma score_in_unit_interval_witness :
  (0 <=? 0.1)%float = true /\
  exists s, score false 0.1 = Ret s /\ (0 <=? s)%float = true /\ (s <=? 1)%float = true.
Proof.
  split; [reflexivity|]. exact (score_in_unit_interval false 0.1 eq_refl).
Defined.

(** Below a float means at most its predecessor. *)
Lemma ltb_leb_pred (d c p : float) (e m : Z) :
  key c = (1, e, m)%Z -> key p = (1, e, m - 1)%Z ->
  (d <? c)%float = true -> (d <=? p)%float = true.
Proof.
  intros Kc Kp H.
  destruct (ltb_is_number _ _ H) as [Hd Hc].
  assert (Hp : is_number p).
  { apply is_number_spec. intros E. unfold key in Kp. rewrite E in Kp.
    simpl in Kp. discriminate. }
  destruct (float_trichotomy d c Hd Hc) as [(L&?&?&?&?&?)|[(?&?&?&?&?&?)|(?&?&?&?&?&?)]];
    try congruence.
  destruct (float_trichotomy d p Hd Hp) as [(?&?&?&?&?&?)|[(?&?&?&?&?&?)|(G&?&?&?&?&?)]];
    try assumption.
  exfalso. rewrite Kc in L. rewrite Kp in G.
  destruct (key d) as [[a1 a2] a3]. simpl in *. lia.
Qed.

(** The score exceeds [t] exactly below the distance [c], when the
    predecessor [p] of [c] still scores above [t] and [c] does not. *)
Lemma score_threshold_distance (t c p : float) (e m : Z) (d : float) :
  key c = (1, e, m)%Z -> key p = (1, e, m - 1)%Z ->
  (t <? 1 / (1 + p))%float = true ->
  (1 / (1 + c) <=? t)%float = true ->
  (-1 <? d)%float = true ->
  (t <? 1 / (1 + d))%float = (d <? c)%float.
Proof.
  intros Kc Kp Hp Hc Hd.
  destruct (d <? c)%float eqn:L.
  - pose proof (ltb_leb_pred d c p e m Kc Kp L) as Le.
    apply (ltb_leb_trans t (1 / (1 + p)) (1 / (1 + d))); [exact Hp|].
    exact (proj2 (score_transform_monotone d p Hd Le)).
  - assert (Nc : is_number c).
    { apply is_number_spec. intros E. unfold key in Kc. rewrite E in Kc.
      simpl in Kc. discriminate. }
    pose proof (not_ltb_leb d c (proj2 (ltb_is_number _ _ Hd)) Nc L) as Le.
    assert (Hcm : (-1 <? c)%float = true).
    { assert (Km : key (-1) = (-1, 52, -4503599627370496)%Z)
        by (vm_compute; reflexivity).
      assert (Nm : is_number (-1)) by reflexivity.
      destruct (float_trichotomy (-1) c Nm Nc)
        as [(?&?&?&?&?&?)|[(K&?&?&?&?&?)|(G&?&?&?&?&?)]]; [assumption| |];
        exfalso.
      - rewrite Kc, Km in K. discriminate K.
      - rewrite Kc, Km in G. cbn [lex_lt] in G. lia. }
    apply leb_not_ltb.
    apply (leb_trans (1 / (1 + d)) (1 / (1 + c)) t); [|exact Hc].
    exact (proj2 (score_transform_monotone c d Hcm Le)).
Qed.

(** X7: for a distance above -1, the score exceeds the threshold of the
    intent exactly when the distance is below a fixed bound: 3.0 for the two
    topical intents, 0.42857142857142855 for any other; a single candidate
    grounds the answer exactly below that bound. *)
Theorem grounding_distance (numpy : bool) (d : float) (intent : string) :
  (-1 <? d)%float = true ->
  exists s,
    score numpy d = Ret s /\
    (threshold intent <? s)%float = (d <? distance_bound intent)%float /\
    (decide_mode [s] intent = "rag" <-> (d <? distance_bound intent)%float = true).
Proof.
  intros Hd. exists (1 / (1 + d))%float.
  split; [apply score_defined; exact Hd|].
  assert (E : (threshold intent <? 1 / (1 + d))%float = (d <? distance_bound intent)%float).
  { unfold threshold, distance_bound.
    destruct (String.eqb intent "nec" || String.eqb intent "wattmonk").
    - apply (score_threshold_distance 0.25 3 0x1.7ffffffffffffp+1
               (-51) 6755399441055744 d); try (vm_compute; reflexivity). exact Hd.
    - apply (score_threshold_distance 0.7 0x1.b6db6db6db6dbp-2 0x1.b6db6db6db6dap-2
               (-54) 7720456504063707 d); try (vm_compute; reflexivity). exact Hd. }
  split; [exact E|].
  rewrite decide_mode_rag_iff. simpl. rewrite E. tauto.
Qed.

Lemma grounding_distance_witness :
  (-1 <? 0.1)%float = true /\
  exists s,
    score false 0.1 = Ret s /\
    (threshold "nec" <? s)%float = (0.1 <? distance_bound "nec")%float /\
    (decide_mode [s] "nec" = "rag" <-> (0.1 <? distance_bound "nec")%float = true).
Proof.
  split; [reflexivity|]. exact (grounding_distance false 0.1 "nec" eq_refl).
Defined.

(* ------------------------------------------------------------------ *)
(** ** Retriever: what is returned *)

Lemma map_outcome_Forall2 {A B : Type} (f : A -> outcome B) (l : list A) (r : list B) :
  map_outcome f l = Ret r -> Forall2 (fun x y => f x = Ret y) l r.
Proof.
  revert r. induction l as [|x l IH]; intros r H; simpl in H.
  - injection H as <-. constructor.
  - destruct (f x) as [y|] eqn:Fx; [|discriminate].
    destruct (map_outcome f l) as [ys|]; [|discriminate].
    injection H as <-. constructor; [exact Fx | apply IH; reflexivity].
Qed.

Lemma Forall2_map_l {A B C : Type} (g : A -> C) (R : C -> B -> Prop)
  (l : list A) (r : list B) :
  Forall2 (fun x y => R (g x) y) l r -> Forall2 R (map g l) r.
Proof. induction 1; simpl; constructor; assumption. Qed.

Lemma Forall2_strengthen_l {A B : Type} (P : A -> Prop) (R : A -> B -> Prop)
  (l : list A) (r : list B) :
  Forall P l -> Forall2 R l r -> Forall2 (fun x y => P x /\ R x y) l r.
Proof.
  intros HP H. induction H; inversion HP; subst; constructor; auto.
Qed.

Lemma retrieve_run (w : World) (query : json) (hint : string) (k : Z) (h : Heap) :
  retrieve w query hint k h = (retrieve_outcome w h query hint k, h).
Proof. apply retrieve_fused. Qed.

Lemma retrieve_outcome_cases (w : World) (h : Heap) (query : json) (hint : string)
  (k : Z) :
  let kept := slice_to k (sort_by_distance (fused_candidates w h query hint k)) in
  match retrieve_outcome w h query hint k with
  | Ret (docs, scores) =>
      load_failure w h hint = None /\
      docs = map fst kept /\ List.length scores = List.length kept /\
      Forall2 (fun c s => score (numpy_distances w) (snd c) = Ret s) kept scores
  | Raise e =>
      load_failure w h hint = Some e \/
      (load_failure w h hint = None /\
       numpy_distances w = false /\ e = ZeroDivisionError /\
       exists c, In c kept /\ (1 + snd c =? 0)%float = true)
  end.
Proof.
  intros kept. unfold retrieve_outcome. fold kept.
  destruct (load_failure w h hint) as [e|]; [left; reflexivity|].
  unfold docs_and_scores.
  destruct (map_outcome (fun c => score (numpy_distances w) (snd c)) kept)
    as [scores|e] eqn:E.
  - split; [reflexivity|]. split; [reflexivity|].
    split; [exact (map_outcome_length _ _ _ E)|].
    apply map_outcome_Forall2 in E. exact E.
  - right. apply map_outcome_raise in E. destruct E as (c & Hin & Hc).
    apply score_raise in Hc. destruct Hc as (Hn & -> & Hz).
    split; [reflexivity|]. split; [exact Hn|]. split; [reflexivity|].
    exists c. split; assumption.
Qed.

Lemma kept_is_candidate (k : Z) (cands : list (Document * float))
  (c : Document * float) :
  In c (slice_to k (sort_by_distance cands)) -> In c cands.
Proof.
  intros Hc. apply slice_to_incl in Hc.
  apply (Permutation_in _ (sort_by_distance_perm _)). exact Hc.
Qed.

(** X8: whatever [retrieve] returns was returned by a selected collection:
    every returned document comes, in order, with the score [1/(1+d)] of a
    candidate of that document at distance [d].  What it raises is what the
    embeddings constructor raises or, on Python floats, the division by
    zero. *)
Theorem retrieve_returns_candidates (w : World) (query : json) (hint : string)
  (k : Z) (h : Heap) :
  match fst (retrieve w query hint k h) with
  | Ret (docs, scores) =>
      Forall2 (fun doc s =>
                 exists c, In c (fused_candidates w h query hint k) /\
                           fst c = doc /\
                           score (numpy_distances w) (snd c) = Ret s)
              docs scores
  | Raise e =>
      load_failure w h hint = Some e \/
      (numpy_distances w = false /\ e = ZeroDivisionError)
  end.
Proof.
  rewrite retrieve_run. cbn [fst].
  pose proof (retrieve_outcome_cases w h query hint k) as C. cbv zeta in C.
  destruct (retrieve_outcome w h query hint k) as [[docs scores]|e]; [|tauto].
  destruct C as (_ & -> & _ & F).
  apply Forall2_map_l.
  set (kept := slice_to k (sort_by_distance (fused_candidates w h query hint k))) in *.
  assert (Hin : Forall (fun c => In c (fused_candidates w h query hint k)) kept).
  { apply Forall_forall. intros c Hc. exact (kept_is_candidate _ _ _ Hc). }
  pose proof (Forall2_strengthen_l _ _ _ _ Hin F) as G.
  clear F Hin. induction G as [|c s l r [Hc Hs] G IH]; constructor; [|exact IH].
  exists c. repeat split; assumption.
Qed.

(** X9: when [retrieve] returns, the number of documents is the smaller of
    [k] and the number of candidates; for a negative [k] the last [-k]
    candidates of the ranking are dropped instead; and for [k = 0], once the
    embeddings object is built, it returns two empty sequences whatever the
    collections hold. *)
Theorem retrieve_count (w : World) (query : json) (hint : string) (k : Z) (h : Heap) :
  let n := List.length (fused_candidates w h query hint k) in
  match fst (retrieve w query hint k h) with
  | Ret (docs, scores) =>
      List.length docs =
        (if (0 <=? k)%Z then Nat.min (Z.to_nat k) n else (n - Z.to_nat (- k))%nat)
  | Raise e =>
      load_failure w h hint = Some e \/
      (numpy_distances w = false /\ e = ZeroDivisionError)
  end /\
  (k = 0%Z -> load_failure w h hint = None ->
   retrieve w query hint k h = (Ret ([], []), h)).
Proof.
  intros n. split.
  - pose proof (retrieve_returns_or_divides w query hint k h) as L.
    destruct (fst (retrieve w query hint k h)) as [[docs scores]|e]; [|tauto].
    destruct L as (_ & _ & L). rewrite L, slice_to_length.
    rewrite (Permutation_length (sort_by_distance_perm _)). reflexivity.
  - intros -> Hl. rewrite retrieve_loaded by exact Hl. reflexivity.
Qed.

(* ------------------------------------------------------------------ *)
(** ** The two-stage graph *)

Lemma classify_intent_in_INTENTS (q : string) : In (classify_intent q) INTENTS.
Proof.
  unfold classify_intent, INTENTS.
  destruct (any_in NEC_KEYWORDS _); [simpl; tauto|].
  destruct (any_in WATTMONK_KEYWORDS _); simpl; tauto.
Qed.

Lemma classify_intent_value_cases (q : json) :
  match classify_intent_value q with
  | Ret intent => In intent INTENTS
  | Raise e => e = AttributeError
  end.
Proof.
  unfold classify_intent_value.
  destruct (py_or q (JStr "")); try reflexivity.
  apply classify_intent_in_INTENTS.
Qed.

(** The graph reads the heap and never writes it; its result is the
    classification followed by the retriever's ranking. *)
Lemma graph_invoke_run (w : World) (state : GraphState) (h : Heap) :
  graph_invoke w state h =
  (match classify_intent_value (st_query state) with
   | Raise e => Raise e
   | Ret intent =>
       match retrieve_outcome w h (st_query state) intent 6 with
       | Raise e => Raise e
       | Ret (docs, scores) =>
           Ret (mkGraphState (st_query state) (Some intent)
                             (Some (map state_doc docs)) (Some scores)
                             (Some (decide_mode scores intent)))
       end
   end, h).
Proof.
  unfold graph_invoke, _start. unfold bind at 1. unfold bind at 1.
  unfold lift at 1.
  destruct (classify_intent_value (st_query state)) as [intent|e]; [|reflexivity].
  unfold ret at 1. unfold _retrieve, bind.
  cbn [st_query st_intent st_docs st_scores st_mode].
  rewrite retrieve_run.
  destruct (retrieve_outcome _ _ _ _ _) as [[docs scores]|e]; reflexivity.
Qed.

Lemma slice_to_6_length {A : Type} (l : list A) : (List.length (slice_to 6 l) <= 6)%nat.
Proof. rewrite slice_to_length. change (0 <=? 6)%Z with true. cbn iota. lia. Qed.



(* ------------------------------------------------------------------ *)
(** ** Conversation summary: effect on the process state *)

Lemma heap_eta (h : Heap) : mkHeap (KEY_OVERRIDE h) (llm_log h ++ []) = h.
Proof. destruct h as [o l]. cbn [KEY_OVERRIDE llm_log]. rewrite app_nil_r. reflexivity. Qed.

(** [summarize_history] reads the credential in force and appends the calls
    it makes to the log. *)
Lemma summarize_history_run (w : World) (messages : list json) (model_name : string)
  (h : Heap) :
  summarize_history w messages model_name h =
  (fst (summarize_with w (key_in_force w h) messages model_name),
   mkHeap (KEY_OVERRIDE h)
          (llm_log h ++ snd (summarize_with w (key_in_force w h) messages model_name))).
Proof.
  unfold summarize_with, key_in_force.
  destruct (ENABLE_MEMORY_SUMMARY w) eqn:En; cbn [negb];
    [|rewrite summarize_history_closed_gate by (left; exact En);
      cbn [fst snd]; rewrite heap_eta; reflexivity].
  destruct messages as [|m ms] eqn:Em;
    [rewrite summarize_history_closed_gate by (right; left; reflexivity);
     cbn [fst snd]; rewrite heap_eta; reflexivity|].
  rewrite <- Em. assert (Hne : messages <> []) by (rewrite Em; discriminate).
  assert (TM : truthy (JArr messages) = true) by (rewrite Em; reflexivity).
  rewrite TM. cbn [negb orb]. clear Em.
  destruct (truthy (py_or (KEY_OVERRIDE h) (env_key w))) eqn:K; cbn [negb];
    [|rewrite summarize_history_closed_gate by (right; right; left; exact K);
      cbn [fst snd]; rewrite heap_eta; reflexivity].
  destruct (Z.eqb_spec (Z.of_nat (List.length messages) mod 6) 0) as [Mo|Mo];
    cbn [negb];
    [|rewrite summarize_history_closed_gate by (right; right; right; exact Mo);
      cbn [fst snd]; rewrite heap_eta; reflexivity].
  rewrite (summarize_history_open_gate w messages model_name h En Hne K Mo).
  cbv zeta.
  destruct (ChatGoogleGenerativeAI w (sanitize_model model_name)
              (py_or (KEY_OVERRIDE h) (env_key w))) as [[]|e];
    [|cbn [fst snd]; rewrite heap_eta; reflexivity].
  destruct (map_outcome (format_message w) (slice_last 20 messages)) as [lines|e];
    cbn [fst snd]; [reflexivity | rewrite heap_eta; reflexivity].
Qed.

(* ------------------------------------------------------------------ *)
(** ** Request handler and command line: the steps after parsing *)

Lemma request_query_run (data messages : json) (h : Heap) :
  (if truthy messages
   then (m <- lift (last_item messages) ;; lift (dict_get m "content" JNull))
   else lift (dict_get data "query" (JStr ""))) h =
  (request_query data messages, h).
Proof.
  unfold request_query. destruct (truthy messages); [|reflexivity].
  unfold bind, lift. destruct (last_item messages); reflexivity.
Qed.

Lemma graph_invoke_fst_snd (w : World) (state : GraphState) (h : Heap) :
  graph_invoke w state h = (fst (graph_invoke w state h), h).
Proof. rewrite graph_invoke_run. reflexivity. Qed.

Lemma handler_try_run (w : World) (request : Request) (h : Heap) :
  handler_try w request h =
  if String.eqb (method request) "OPTIONS" then (Ret (mkResponse 200 NoBody), h)
  else
    match json_loads w (body_text request) with
    | Raise e => (Raise e, h)
    | Ret data =>
        match dict_get data "apiKey" JNull with
        | Raise e => (Raise e, h)
        | Ret api_key =>
            let r := answer_to (shape_docs 0) w data
                               (mkHeap (py_or api_key JNull) (llm_log h)) in
            (match fst r with
             | Ret p => Ret (mkResponse 200 p)
             | Raise e => Raise e
             end, snd r)
        end
    end.
Proof.
  unfold handler_try. fold (body_text request).
  destruct (String.eqb (method request) "OPTIONS"); [reflexivity|].
  unfold bind at 1. unfold lift at 1.
  destruct (json_loads w (body_text request)) as [data|e]; [|reflexivity].
  unfold bind at 1. unfold lift at 1.
  destruct (dict_get data "apiKey" JNull) as [api_key|e]; [|reflexivity].
  unfold bind at 1. unfold set_override at 1.
  set (h1 := mkHeap (py_or api_key JNull) (llm_log h)).
  cbv zeta. unfold answer_to.
  unfold bind at 1. unfold lift at 1.
  destruct (dict_get data "messages" (JArr [])) as [messages|e]; [|reflexivity].
  unfold bind at 1. rewrite request_query_run.
  destruct (request_query data messages) as [query|e]; [|reflexivity].
  unfold bind at 1. rewrite graph_invoke_fst_snd.
  destruct (fst (graph_invoke w _ h1)) as [result|e]; [|reflexivity].
  unfold bind at 1. rewrite summarize_history_run. cbn [fst snd].
  destruct (fst (summarize_with w (key_in_force w h1) (message_list messages)
                                (CHAT_MODEL w))); reflexivity.
Qed.

Lemma handler_run (w : World) (request : Request) (h : Heap) :
  handler w request h =
  (Ret (match fst (handler_try w request h) with
        | Ret response => response
        | Raise e => mkResponse 500 (Error e)
        end),
   mkHeap JNull (llm_log (snd (handler_try w request h)))).
Proof.
  unfold handler, try_finally, try_except.
  destruct (handler_try w request h) as [[r|e] h']; reflexivity.
Qed.

Lemma main_run (w : World) (stdin : string) (h : Heap) :
  RagCli.main w stdin h =
  match json_loads w (if String.eqb stdin "" then "{}" else stdin) with
  | Raise e => (Raise e, h)
  | Ret data => answer_to (RagCli.shape_docs 0) w data h
  end.
Proof.
  unfold RagCli.main.
  unfold bind at 1. unfold lift at 1.
  destruct (json_loads w _) as [data|e]; [|reflexivity].
  unfold answer_to.
  unfold bind at 1. unfold lift at 1.
  destruct (dict_get data "messages" (JArr [])) as [messages|e]; [|reflexivity].
  unfold bind at 1. rewrite request_query_run.
  destruct (request_query data messages) as [query|e]; [|reflexivity].
  unfold bind at 1. rewrite graph_invoke_fst_snd.
  destruct (fst (graph_invoke w _ h)) as [result|e]; [|reflexivity].
  unfold bind at 1. rewrite summarize_history_run. cbn [fst snd].
  destruct (fst (summarize_with w (key_in_force w h) (message_list messages)
                                (CHAT_MODEL w))); reflexivity.
Qed.

(* ------------------------------------------------------------------ *)
(** ** Conversation summary: calls and window *)

Lemma sanitize_model_cases (name : string) :
  In (sanitize_model name) ["gemini-1.5-flash"; "gemini-1.5-pro"].
Proof.
  unfold sanitize_model.
  destruct (String.eqb (strip_version name) "gemini-1.5-flash") eqn:F; cbn [orb].
  - left. symmetry. apply String.eqb_eq. exact F.
  - destruct (String.eqb (strip_version name) "gemini-1.5-pro") eqn:P.
    + right. left. symmetry. apply String.eqb_eq. exact P.
    + left. reflexivity.
Qed.

Lemma format_message_raise (w : World) (m : json) (e : exn) :
  format_message w m = Raise e ->
  e = AttributeError /\ forall kv, m <> JObj kv.
Proof.
  unfold format_message. destruct m; cbn [dict_get]; intros H;
    try (injection H as <-; split; [reflexivity | intros kv; discriminate]).
  discriminate H.
Qed.

Lemma summarize_with_cases (w : World) (key : json) (messages : list json)
  (model_name : string) :
  let s := summarize_with w key messages model_name in
  (List.length (snd s) <= 1)%nat /\
  Forall (fun c => In (call_model c) ["gemini-1.5-flash"; "gemini-1.5-pro"] /\
                   call_key c = key /\ truthy key = true /\
                   ENABLE_MEMORY_SUMMARY w = true)
         (snd s) /\
  match fst s with
  | Ret out => snd s = [] -> out = ""
  | Raise e =>
      snd s = [] /\
      (ChatGoogleGenerativeAI w (sanitize_model model_name) key = Raise e \/
       (e = AttributeError /\
        exists m, In m (slice_last 20 messages) /\ forall kv, m <> JObj kv))
  end.
Proof.
  unfold summarize_with.
  destruct (ENABLE_MEMORY_SUMMARY w); cbn [negb];
    [|cbn [fst snd List.length]; repeat split; [lia | constructor]].
  destruct (truthy (JArr messages)); cbn [negb orb];
    [|cbn [fst snd List.length]; repeat split; [lia | constructor]].
  destruct (truthy key) eqn:K; cbn [negb];
    [|cbn [fst snd List.length]; repeat split; [lia | constructor]].
  destruct (negb _);
    [cbn [fst snd List.length]; repeat split; [lia | constructor]|].
  destruct (ChatGoogleGenerativeAI w (sanitize_model model_name) key) as [[]|e0];
    [|cbn [fst snd List.length]; split; [lia|]; split; [constructor|];
      split; [reflexivity | left; reflexivity]].
  destruct (map_outcome (format_message w) (slice_last 20 messages)) as [lines|e] eqn:E.
  - cbn [fst snd List.length]. split; [lia|]. split.
    + constructor; [|constructor]. cbn [call_model call_key].
      repeat split; try reflexivity. apply sanitize_model_cases.
    + destruct (llm_invoke w _ key _); discriminate.
  - cbn [fst snd List.length]. split; [lia|]. split; [constructor|].
    apply map_outcome_raise in E. destruct E as (m & Hin & Hm).
    apply format_message_raise in Hm. destruct Hm as [-> Hm].
    split; [reflexivity|]. right. split; [reflexivity|].
    exists m. split; assumption.
Qed.

(** X11: [summarize_history] leaves [KEY_OVERRIDE] alone and appends at most
    one call to the log, made with an allowed model name and with the
    credential in force, which is truthy.  It lets two exceptions out, both
    before any call: what the constructor of the model object raises on the
    credential, and the [AttributeError] of a message among the last twenty
    that is not a dict. *)
Theorem summarize_history_effect (w : World) (messages : list json)
  (model_name : string) (h : Heap) :
  exists calls,
    snd (summarize_history w messages model_name h) =
      mkHeap (KEY_OVERRIDE h) (llm_log h ++ calls) /\
    (List.length calls <= 1)%nat /\
    Forall (fun c => In (call_model c) ["gemini-1.5-flash"; "gemini-1.5-pro"] /\
                     call_key c = key_in_force w h /\
                     truthy (call_key c) = true) calls /\
    match fst (summarize_history w messages model_name h) with
    | Ret _ => True
    | Raise e =>
        calls = [] /\
        (ChatGoogleGenerativeAI w (sanitize_model model_name) (key_in_force w h)
           = Raise e \/
         (e = AttributeError /\
          exists m, In m (slice_last 20 messages) /\ forall kv, m <> JObj kv))
    end.
Proof.
  rewrite summarize_history_run. cbn [fst snd].
  pose proof (summarize_with_cases w (key_in_force w h) messages model_name) as S.
  cbv zeta in S. destruct S as (L & F & R).
  exists (snd (summarize_with w (key_in_force w h) messages model_name)).
  split; [reflexivity|]. split; [exact L|]. split;
    [|destruct (fst (summarize_with w (key_in_force w h) messages model_name));
      [exact I | exact R]].
  eapply Forall_impl; [|exact F]. cbv beta. intros c (Hm & Hk & Ht & _).
  rewrite Hk. auto.
Qed.

(** X12: once the gates are open, [summarize_history] looks at the last
    twenty messages only: two histories of lengths divisible by 6 with the
    same last twenty messages give the same result and the same call. *)
Theorem summarize_history_window (w : World) (m1 m2 : list json)
  (model_name : string) (h : Heap) :
  m1 <> [] -> m2 <> [] ->
  (Z.of_nat (List.length m1) mod 6 = 0)%Z ->
  (Z.of_nat (List.length m2) mod 6 = 0)%Z ->
  slice_last 20 m1 = slice_last 20 m2 ->
  summarize_history w m1 model_name h = summarize_history w m2 model_name h.
Proof.
  intros N1 N2 L1 L2 E. rewrite !summarize_history_run.
  assert (S : summarize_with w (key_in_force w h) m1 model_name =
              summarize_with w (key_in_force w h) m2 model_name).
  { unfold summarize_with. rewrite E, L1, L2.
    destruct m1; [congruence|]. destruct m2; [congruence|]. reflexivity. }
  rewrite S. reflexivity.
Qed.

Lemma summarize_history_window_witness :
  let m1 := repeat (JObj [("role", JStr "user"); ("content", JStr "hi")]) 24 in
  let m2 := repeat (JObj [("role", JStr "user"); ("content", JStr "hi")]) 30 in
  m1 <> m2 /\
  summarize_history sample_world m1 "gemini-1.5-pro" empty_heap =
  summarize_history sample_world m2 "gemini-1.5-pro" empty_heap.
Proof.
  intros m1 m2. split.
  - intros E. apply (f_equal (@List.length json)) in E. vm_compute in E. discriminate E.
  - apply (summarize_history_window sample_world m1 m2 "gemini-1.5-pro" empty_heap).
    + discriminate.
    + discriminate.
    + reflexivity.
    + reflexivity.
    + reflexivity.
Defined.

(* ------------------------------------------------------------------ *)
(** ** Shaping the documents of a response *)

Lemma shape_docs_length (i : nat) (docs : list StateDoc) (scores : list float) :
  List.length (shape_docs i docs scores) = List.length docs.
Proof.
  revert i. induction docs as [|d docs IH]; intros i; [reflexivity|].
  cbn [shape_docs List.length]. rewrite IH. reflexivity.
Qed.

Lemma shape_docs_ids (i : nat) (docs : list StateDoc) (scores : list float) :
  map od_id (shape_docs i docs scores) =
  map Z.of_nat (seq (S i) (List.length docs)).
Proof.
  revert i. induction docs as [|d docs IH]; intros i; [reflexivity|].
  cbn [shape_docs List.length seq map od_id]. rewrite IH.
  f_equal. lia.
Qed.

Lemma skipn_nth_cons {A : Type} (i : nat) (l : list A) (d : A) :
  (i < List.length l)%nat -> skipn i l = nth i l d :: skipn (S i) l.
Proof.
  revert i. induction l as [|x l IH]; intros i H; [simpl in H; lia|].
  destruct i as [|i]; [reflexivity|].
  cbn [List.length] in H. change (skipn (S i) (x :: l)) with (skipn i l).
  rewrite (IH i) by lia. reflexivity.
Qed.

Lemma shape_docs_scores_from (i : nat) (docs : list StateDoc) (scores : list float) :
  (i + List.length docs <= List.length scores)%nat ->
  map od_score (shape_docs i docs scores) =
  firstn (List.length docs) (skipn i scores).
Proof.
  revert i. induction docs as [|d docs IH]; intros i H; [reflexivity|].
  cbn [List.length] in H.
  cbn [shape_docs List.length map od_score].
  rewrite (skipn_nth_cons i scores 0%float) by lia.
  cbn [firstn]. rewrite IH by lia. reflexivity.
Qed.

Lemma shape_docs_scores (docs : list StateDoc) (scores : list float) :
  List.length docs = List.length scores ->
  map od_score (shape_docs 0 docs scores) = scores.
Proof.
  intros L. rewrite shape_docs_scores_from by (rewrite L; apply Nat.le_refl).
  cbn [skipn]. rewrite L. apply firstn_all.
Qed.

Lemma shape_docs_blank_source (i : nat) (docs : list StateDoc) (scores : list float) :
  shape_docs i docs scores = map blank_source (RagCli.shape_docs i docs scores).
Proof.
  revert i. induction docs as [|d docs IH]; intros i; [reflexivity|].
  cbn [shape_docs RagCli.shape_docs map]. rewrite IH. reflexivity.
Qed.

(* ------------------------------------------------------------------ *)
(** ** The answer to a parsed body *)

Lemma answer_to_cases (shape : list StateDoc -> list float -> list OutDoc)
  (w : World) (data : json) (h : Heap) :
  exists calls,
    snd (answer_to shape w data h) = mkHeap (KEY_OVERRIDE h) (llm_log h ++ calls) /\
    (List.length calls <= 1)%nat /\
    match fst (answer_to shape w data h) with
    | Ret (Answer intent mode docs memory_summary) =>
        (calls = [] -> memory_summary = "") /\
        exists sdocs scores,
          docs = shape sdocs scores /\
          List.length sdocs = List.length scores /\
          (List.length sdocs <= 6)%nat /\
          In intent INTENTS /\ mode = decide_mode scores intent
    | Ret _ => False
    | Raise _ => calls = []
    end.
Proof.
  unfold answer_to.
  destruct (dict_get data "messages" (JArr [])) as [messages|e];
    [|exists []; cbn [fst snd List.length]; rewrite heap_eta; auto].
  destruct (request_query data messages) as [query|e];
    [|exists []; cbn [fst snd List.length]; rewrite heap_eta; auto].
  pose proof (graph_invoke_run w (mkGraphState query None None None None) h) as G.
  cbn [st_query] in G. rewrite G. cbn [fst]. clear G.
  pose proof (classify_intent_value_cases query) as C.
  destruct (classify_intent_value query) as [intent|e];
    [|exists []; cbn [fst snd List.length]; rewrite heap_eta; auto].
  pose proof (retrieve_outcome_cases w h query intent 6) as D. cbv zeta in D.
  set (kept := slice_to 6 _) in D.
  destruct (retrieve_outcome w h query intent 6) as [[docs scores]|e];
    [|exists []; cbn [fst snd List.length]; rewrite heap_eta; auto].
  destruct D as (_ & -> & L & _).
  pose proof (summarize_with_cases w (key_in_force w h) (message_list messages)
                                   (CHAT_MODEL w)) as S.
  cbv zeta in S. destruct S as (Lc & _ & R).
  exists (snd (summarize_with w (key_in_force w h) (message_list messages)
                              (CHAT_MODEL w))).
  cbn [fst snd]. split; [reflexivity|]. split; [exact Lc|].
  destruct (fst (summarize_with w (key_in_force w h) (message_list messages)
                                (CHAT_MODEL w))) as [ms|e].
  - cbn [st_intent st_mode st_docs st_scores]. split; [exact R|].
    exists (map state_doc (map fst kept)), scores.
    repeat split; try assumption.
    + rewrite !length_map. symmetry. exact L.
    + rewrite !length_map. apply slice_to_6_length.
  - tauto.
Qed.

(** X13: the handler always answers, with at most one call to the model.
    It answers a preflight, and nothing else, with 200 and no body; the
    other requests with 500 and the error, or with 200, one of the three
    labels, at most six documents numbered from 1, the mode decided from
    that label and the scores of exactly these documents, and an empty
    summary unless the model was called. *)
Theorem handler_response_shape (w : World) (request : Request) (h : Heap) :
  exists response calls,
    handler w request h = (Ret response, mkHeap JNull (llm_log h ++ calls)) /\
    (List.length calls <= 1)%nat /\
    match payload response with
    | NoBody =>
        status response = 200%Z /\ method request = "OPTIONS" /\ calls = []
    | Answer intent mode docs memory_summary =>
        status response = 200%Z /\ method request <> "OPTIONS" /\
        (calls = [] -> memory_summary = "") /\
        In intent INTENTS /\ In mode MODES /\
        mode = decide_mode (map od_score docs) intent /\
        (List.length docs <= 6)%nat /\
        map od_id docs = map Z.of_nat (seq 1 (List.length docs))
    | Error _ =>
        status response = 500%Z /\ method request <> "OPTIONS" /\ calls = []
    end.
Proof.
  rewrite handler_run, handler_try_run.
  destruct (String.eqb_spec (method request) "OPTIONS") as [O|O].
  { eexists. exists []. cbn [fst snd]. rewrite app_nil_r.
    split; [reflexivity|]. split; [cbn; lia|]. cbn [payload status]. auto. }
  destruct (json_loads w (body_text request)) as [data|e].
  2:{ eexists. exists []. cbn [fst snd]. rewrite app_nil_r.
      split; [reflexivity|]. split; [cbn; lia|]. cbn [payload status]. auto. }
  destruct (dict_get data "apiKey" JNull) as [api_key|e].
  2:{ eexists. exists []. cbn [fst snd]. rewrite app_nil_r.
      split; [reflexivity|]. split; [cbn; lia|]. cbn [payload status]. auto. }
  cbv zeta. cbn [fst snd].
  set (h1 := mkHeap (py_or api_key JNull) (llm_log h)).
  destruct (answer_to_cases (shape_docs 0) w data h1) as (calls & Hs & Lc & R).
  eexists. exists calls. rewrite Hs. cbn [llm_log].
  split; [reflexivity|]. split; [exact Lc|].
  destruct (fst (answer_to (shape_docs 0) w data h1)) as [[|intent mode docs ms|e]|e];
    try contradiction; cbn [payload status].
  - destruct R as (Hms & sdocs & scores & -> & L & L6 & Hi & ->).
    rewrite shape_docs_scores by exact L.
    rewrite shape_docs_length, shape_docs_ids.
    repeat split; try assumption. apply decide_mode_two_modes.
  - auto.
Qed.

(** X14: a body that does not parse, or that parses to something that is
    not an object, is answered with 500 and the error; no call is made. *)
Theorem handler_rejects_bad_body (w : World) (request : Request) (h : Heap) (e : exn) :
  method request <> "OPTIONS" ->
  match json_loads w (body_text request) with
  | Raise e' => e' = e
  | Ret (JObj _) => False
  | Ret _ => e = AttributeError
  end ->
  handler w request h = (Ret (mkResponse 500 (Error e)), mkHeap JNull (llm_log h)).
Proof.
  intros O B. rewrite handler_run, handler_try_run.
  apply String.eqb_neq in O. rewrite O.
  destruct (json_loads w (body_text request)) as [data|e'].
  - destruct data; try contradiction; subst e; reflexivity.
  - subst e'. reflexivity.
Qed.

Lemma handler_rejects_bad_body_witness :
  handler chat_world (mkRequest "POST" "[]") empty_heap =
    (Ret (mkResponse 500 (Error AttributeError)), mkHeap JNull []) /\
  handler chat_world (mkRequest "POST" "{") empty_heap =
    (Ret (mkResponse 500 (Error JSONDecodeError)), mkHeap JNull []).
Proof.
  split.
  - apply (handler_rejects_bad_body chat_world (mkRequest "POST" "[]") empty_heap
             AttributeError); [discriminate | reflexivity].
  - apply (handler_rejects_bad_body chat_world (mkRequest "POST" "{") empty_heap
             JSONDecodeError); [discriminate | reflexivity].
Defined.

(* ------------------------------------------------------------------ *)
(** ** What a response depends on *)

Lemma answer_to_fields (shape : list StateDoc -> list float -> list OutDoc)
  (w : World) (kv1 kv2 : list (string * json)) (h : Heap) :
  assoc "messages" kv1 = assoc "messages" kv2 ->
  (truthy (match assoc "messages" kv1 with Some v => v | None => JArr [] end) = false ->
   assoc "query" kv1 = assoc "query" kv2) ->
  answer_to shape w (JObj kv1) h = answer_to shape w (JObj kv2) h.
Proof.
  intros Hm Hq. unfold answer_to. cbn [dict_get]. rewrite <- Hm.
  set (messages := match assoc "messages" kv1 with Some v => v | None => JArr [] end) in *.
  assert (Q : request_query (JObj kv1) messages = request_query (JObj kv2) messages).
  { unfold request_query. destruct (truthy messages); [reflexivity|].
    cbn [dict_get]. rewrite Hq by reflexivity. reflexivity. }
  rewrite Q. reflexivity.
Qed.

Lemma handler_try_object (w : World) (request : Request) (h : Heap)
  (kv : list (string * json)) :
  String.eqb (method request) "OPTIONS" = false ->
  json_loads w (body_text request) = Ret (JObj kv) ->
  handler_try w request h =
  (match fst (answer_to (shape_docs 0) w (JObj kv)
                        (mkHeap (body_api_key (JObj kv)) (llm_log h))) with
   | Ret p => Ret (mkResponse 200 p)
   | Raise e => Raise e
   end,
   snd (answer_to (shape_docs 0) w (JObj kv)
                  (mkHeap (body_api_key (JObj kv)) (llm_log h)))).
Proof.
  intros O J. rewrite handler_try_run, O, J. reflexivity.
Qed.

(** X15: of the fields of a body the handler reads ["apiKey"], ["messages"]
    and, only when there are no messages, ["query"]: two bodies that agree
    on these get the same response and leave the same state. *)
Theorem handler_reads_three_fields (w : World) (r1 r2 : Request) (h : Heap)
  (kv1 kv2 : list (string * json)) :
  method r1 = method r2 ->
  json_loads w (body_text r1) = Ret (JObj kv1) ->
  json_loads w (body_text r2) = Ret (JObj kv2) ->
  body_api_key (JObj kv1) = body_api_key (JObj kv2) ->
  assoc "messages" kv1 = assoc "messages" kv2 ->
  (truthy (match assoc "messages" kv1 with Some v => v | None => JArr [] end) = false ->
   assoc "query" kv1 = assoc "query" kv2) ->
  handler w r1 h = handler w r2 h.
Proof.
  intros Hmeth J1 J2 Hk Hm Hq. rewrite !handler_run.
  destruct (String.eqb (method r1) "OPTIONS") eqn:O.
  - rewrite !handler_try_run, <- Hmeth, O. reflexivity.
  - rewrite (handler_try_object w r1 h kv1 O J1).
    rewrite Hmeth in O. rewrite (handler_try_object w r2 h kv2 O J2).
    rewrite <- Hk.
    rewrite (answer_to_fields (shape_docs 0) w kv1 kv2 _ Hm Hq). reflexivity.
Qed.

Lemma handler_reads_three_fields_witness :
  handler chat_world (mkRequest "POST" chat_body) empty_heap =
  handler chat_world (mkRequest "POST" chat_body_with_query) empty_heap.
Proof.
  apply (handler_reads_three_fields chat_world
           (mkRequest "POST" chat_body) (mkRequest "POST" chat_body_with_query)
           empty_heap
           [("messages", chat_messages)]
           [("query", JStr "pricing"); ("messages", chat_messages)]).
  - reflexivity.
  - reflexivity.
  - reflexivity.
  - reflexivity.
  - reflexivity.
  - intros F. discriminate F.
Defined.

Lemma fused_candidates_env_key (w : World) (k : json) (h1 h2 : Heap)
  (query : json) (hint : string) (n : Z) :
  key_in_force w h1 = key_in_force (with_env_key w k) h2 ->
  fused_candidates w h1 query hint n =
  fused_candidates (with_env_key w k) h2 query hint n.
Proof.
  intros K. unfold fused_candidates. f_equal.
  unfold collection_candidates, available, embeddings_for.
  fold (key_in_force w h1). fold (key_in_force (with_env_key w k) h2).
  rewrite K. reflexivity.
Qed.

Lemma retrieve_outcome_env_key (w : World) (k : json) (h1 h2 : Heap)
  (query : json) (hint : string) (n : Z) :
  key_in_force w h1 = key_in_force (with_env_key w k) h2 ->
  retrieve_outcome w h1 query hint n =
  retrieve_outcome (with_env_key w k) h2 query hint n.
Proof.
  intros K. unfold retrieve_outcome.
  rewrite <- (fused_candidates_env_key w k h1 h2 query hint n K).
  assert (F : load_failure w h1 hint = load_failure (with_env_key w k) h2 hint).
  { unfold load_failure, embeddings_error.
    fold (key_in_force w h1). fold (key_in_force (with_env_key w k) h2).
    rewrite K. reflexivity. }
  rewrite F. reflexivity.
Qed.

Lemma answer_to_env_key (shape : list StateDoc -> list float -> list OutDoc)
  (w : World) (k : json) (data : json) (h1 h2 : Heap) :
  key_in_force w h1 = key_in_force (with_env_key w k) h2 ->
  llm_log h1 = llm_log h2 ->
  fst (answer_to shape w data h1) = fst (answer_to shape (with_env_key w k) data h2) /\
  llm_log (snd (answer_to shape w data h1)) =
  llm_log (snd (answer_to shape (with_env_key w k) data h2)).
Proof.
  intros K L. unfold answer_to.
  destruct (dict_get data "messages" (JArr [])) as [messages|e]; [|split; [reflexivity|exact L]].
  destruct (request_query data messages) as [query|e]; [|split; [reflexivity|exact L]].
  rewrite !graph_invoke_run. cbn [fst st_query].
  destruct (classify_intent_value query) as [intent|e]; [|split; [reflexivity|exact L]].
  rewrite <- (retrieve_outcome_env_key w k h1 h2 query intent 6 K).
  destruct (retrieve_outcome w h1 query intent 6) as [[docs scores]|e];
    [|split; [reflexivity|exact L]].
  rewrite <- K.
  change (summarize_with (with_env_key w k) (key_in_force w h1) (message_list messages)
                         (CHAT_MODEL (with_env_key w k)))
    with (summarize_with w (key_in_force w h1) (message_list messages) (CHAT_MODEL w)).
  cbn [fst snd llm_log]. rewrite L. split; reflexivity.
Qed.

(** X16: a key sent in the body acts for that request exactly like the same
    key in the environment: same response, same calls. *)
Theorem request_key_acts_as_environment_key (w : World) (r1 r2 : Request) (h : Heap)
  (kv1 kv2 : list (string * json)) (k : json) :
  method r1 = method r2 ->
  json_loads w (body_text r1) = Ret (JObj kv1) ->
  json_loads w (body_text r2) = Ret (JObj kv2) ->
  assoc "apiKey" kv1 = Some k -> truthy k = true ->
  assoc "apiKey" kv2 = None ->
  assoc "messages" kv1 = assoc "messages" kv2 ->
  assoc "query" kv1 = assoc "query" kv2 ->
  handler w r1 h = handler (with_env_key w k) r2 h.
Proof.
  intros Hmeth J1 J2 K1 T K2 Hm Hq. rewrite !handler_run.
  destruct (String.eqb (method r1) "OPTIONS") eqn:O.
  - rewrite !handler_try_run, <- Hmeth, O. reflexivity.
  - rewrite (handler_try_object w r1 h kv1 O J1).
    rewrite Hmeth in O.
    rewrite (handler_try_object (with_env_key w k) r2 h kv2 O J2).
    rewrite (answer_to_fields (shape_docs 0) w kv1 kv2 _ Hm (fun _ => Hq)).
    cbn [body_api_key]. rewrite K1, K2.
    assert (P1 : py_or k JNull = k) by (unfold py_or; rewrite T; reflexivity).
    rewrite P1. change (py_or JNull JNull) with JNull.
    destruct (answer_to_env_key (shape_docs 0) w k (JObj kv2)
                (mkHeap k (llm_log h)) (mkHeap JNull (llm_log h))) as [F L].
    { unfold key_in_force. cbn [KEY_OVERRIDE env_key with_env_key].
      unfold py_or. rewrite T. reflexivity. }
    { reflexivity. }
    cbn [fst snd]. rewrite F, L. reflexivity.
Qed.

Lemma request_key_acts_as_environment_key_witness :
  handler chat_world (mkRequest "POST" chat_body_with_key) empty_heap =
  handler (with_env_key chat_world (JStr "request-key"))
          (mkRequest "POST" chat_body) empty_heap.
Proof.
  apply (request_key_acts_as_environment_key chat_world
           (mkRequest "POST" chat_body_with_key) (mkRequest "POST" chat_body)
           empty_heap
           [("apiKey", JStr "request-key"); ("messages", chat_messages)]
           [("messages", chat_messages)]
           (JStr "request-key")); reflexivity.
Defined.

(* ------------------------------------------------------------------ *)
(** ** Command line *)

Lemma answer_to_blank_sources (w : World) (data : json) (h : Heap) :
  answer_to (shape_docs 0) w data h =
  (match fst (answer_to (RagCli.shape_docs 0) w data h) with
   | Ret p => Ret (blank_sources p)
   | Raise e => Raise e
   end,
   snd (answer_to (RagCli.shape_docs 0) w data h)).
Proof.
  unfold answer_to.
  destruct (dict_get data "messages" (JArr [])) as [messages|e]; [|reflexivity].
  destruct (request_query data messages) as [query|e]; [|reflexivity].
  destruct (fst (graph_invoke w _ h)) as [result|e]; [|reflexivity].
  cbn [fst snd].
  destruct (fst (summarize_with w (key_in_force w h) (message_list messages)
                                (CHAT_MODEL w))); [|reflexivity].
  cbn [blank_sources]. rewrite shape_docs_blank_source. reflexivity.
Qed.

(** X17: for a request that is no preflight and sends no key, in a process
    whose override is unset, the handler answers what the command line
    prints for the same body, with [""] for a source that is falsy: 200
    with that answer, or 500 with the exception the command line dies of;
    both make the same calls. *)
Theorem handler_answers_like_cli (w : World) (request : Request) (h : Heap) :
  method request <> "OPTIONS" ->
  KEY_OVERRIDE h = JNull ->
  (forall data, json_loads w (body_text request) = Ret data ->
                body_api_key data = JNull) ->
  handler w request h =
  (Ret (match fst (RagCli.main w (get_data request) h) with
        | Ret p => mkResponse 200 (blank_sources p)
        | Raise e => mkResponse 500 (Error e)
        end),
   mkHeap JNull (llm_log (snd (RagCli.main w (get_data request) h)))).
Proof.
  intros O K B. rewrite handler_run, handler_try_run, main_run.
  apply String.eqb_neq in O. rewrite O. fold (body_text request).
  destruct (json_loads w (body_text request)) as [data|e]; [|reflexivity].
  specialize (B data eq_refl).
  destruct data as [| | | | | |kv];
    try (cbn [dict_get fst snd answer_to]; reflexivity).
  cbn [dict_get]. cbn [body_api_key] in B. rewrite B. cbv zeta.
  assert (E : mkHeap JNull (llm_log h) = h)
    by (destruct h as [o l]; cbn [KEY_OVERRIDE llm_log] in *; subst o; reflexivity).
  rewrite E, answer_to_blank_sources. cbn [fst snd].
  destruct (fst (answer_to (RagCli.shape_docs 0) w (JObj kv) h)); reflexivity.
Qed.

Lemma handler_answers_like_cli_witness :
  handler chat_world (mkRequest "POST" chat_body) empty_heap =
  (Ret (match fst (RagCli.main chat_world chat_body empty_heap) with
        | Ret p => mkResponse 200 (blank_sources p)
        | Raise e => mkResponse 500 (Error e)
        end),
   mkHeap JNull (llm_log (snd (RagCli.main chat_world chat_body empty_heap)))).
Proof.
  apply (handler_answers_like_cli chat_world (mkRequest "POST" chat_body) empty_heap).
  - discriminate.
  - reflexivity.
  - intros data J. vm_compute in J. injection J as <-. reflexivity.
Defined.

(* ------------------------------------------------------------------ *)
(** ** Index construction *)

Lemma slice_to_prefix {A : Type} (k : Z) (l : list A) :
  exists rest, l = slice_to k l ++ rest.
Proof.
  unfold slice_to. destruct (0 <=? k)%Z; eexists; symmetry; apply firstn_skipn.
Qed.

Lemma cap_chunks_cases (env : BuildFaiss.Env) (chunks : list Document) :
  (exists s mc, BuildFaiss.MAX_CHUNKS env = Some s /\ s <> "" /\
                BuildFaiss.py_int env s = Ret mc /\ (0 < mc)%Z /\
                BuildFaiss.cap_chunks env chunks = firstn (Z.to_nat mc) chunks) \/
  ((forall s mc, BuildFaiss.MAX_CHUNKS env = Some s -> s <> "" ->
                 BuildFaiss.py_int env s = Ret mc -> (mc <= 0)%Z) /\
   BuildFaiss.cap_chunks env chunks = chunks).
Proof.
  unfold BuildFaiss.cap_chunks.
  destruct (BuildFaiss.MAX_CHUNKS env) as [s|]; [|right; split; [discriminate|reflexivity]].
  destruct (String.eqb_spec s "") as [E|E].
  { right. split; [|reflexivity]. intros s' mc H. injection H as <-. contradiction. }
  destruct (BuildFaiss.py_int env s) as [mc|e] eqn:P.
  - destruct (Z.ltb_spec 0 mc) as [L|L].
    + left. exists s, mc. repeat split; try assumption.
      unfold slice_to. destruct (Z.leb_spec 0 mc); [reflexivity | lia].
    + right. split; [|reflexivity]. intros s' mc' H _ P'. injection H as <-.
      rewrite P in P'. injection P' as <-. exact L.
  - right. split; [|reflexivity]. intros s' mc' H _ P'. injection H as <-.
    rewrite P in P'. discriminate P'.
Qed.

(** X18: [build_index] writes the marker of an empty collection exactly
    when it is given no documents, and then it does not raise.
    Otherwise what it embeds is a prefix of the split sequence: its first
    [MAX_CHUNKS] chunks when that variable parses to a positive number, all
    of it when the variable is unset, empty, unparsable or not positive; and
    an error of the embedding is let out. *)
Theorem build_index_embeds_prefix (env : BuildFaiss.Env) (name : string)
  (docs : list Document) :
  let chunks := BuildFaiss.split_documents env docs in
  match BuildFaiss.build_index env name docs with
  | Ret (BuildFaiss.EmptyMarker n) => n = name /\ docs = []
  | Ret (BuildFaiss.Index n embedded) =>
      n = name /\ docs <> [] /\
      BuildFaiss.embed_and_save env name embedded = Ret tt /\
      (exists rest, chunks = embedded ++ rest) /\
      ((exists s mc, BuildFaiss.MAX_CHUNKS env = Some s /\ s <> "" /\
                     BuildFaiss.py_int env s = Ret mc /\ (0 < mc)%Z /\
                     List.length embedded = Nat.min (Z.to_nat mc) (List.length chunks)) \/
       ((forall s mc, BuildFaiss.MAX_CHUNKS env = Some s -> s <> "" ->
                      BuildFaiss.py_int env s = Ret mc -> (mc <= 0)%Z) /\
        embedded = chunks))
  | Raise e =>
      docs <> [] /\
      BuildFaiss.embed_and_save env name
        (BuildFaiss.cap_chunks env chunks) = Raise e
  end.
Proof.
  intros chunks. unfold BuildFaiss.build_index.
  destruct docs as [|d docs]; [split; reflexivity|].
  fold chunks.
  destruct (BuildFaiss.embed_and_save env name (BuildFaiss.cap_chunks env chunks))
    as [[]|e] eqn:S; [|split; [discriminate|reflexivity]].
  split; [reflexivity|]. split; [discriminate|]. split; [exact S|].
  destruct (cap_chunks_cases env chunks) as [(s & mc & M & Ne & P & L & C)|[N C]].
  - rewrite C. split.
    + exists (skipn (Z.to_nat mc) chunks). symmetry. apply firstn_skipn.
    + left. exists s, mc. repeat split; try assumption. apply length_firstn.
  - rewrite C. split; [exists []; symmetry; apply app_nil_r|].
    right. split; [exact N | reflexivity].
Qed.

(* ------------------------------------------------------------------ *)
(** ** Grounding: from the nearest candidate to the mode *)








(* ------------------------------------------------------------------ *)
(** ** The source of a listed document *)

(** X20: the source the handler lists for a retrieved document is its
    metadata's ["source"] when that is truthy, else its metadata's ["file"]
    when that is truthy, else [""]; it is never a falsy value other than
    [""].  The command line lists the same, except that a falsy ["file"]
    is listed as it is. *)
Theorem listed_source (d : Document) (i : nat) (scores : list float) :
  let source := metadata_get (metadata d) "source" JNull in
  let file := metadata_get (metadata d) "file" (JStr "") in
  map od_source (shape_docs i [state_doc d] scores) =
    [if truthy source then source else if truthy file then file else JStr ""] /\
  map od_source (RagCli.shape_docs i [state_doc d] scores) =
    [if truthy source then source else file] /\
  Forall (fun s => truthy s = true \/ s = JStr "")
         (map od_source (shape_docs i [state_doc d] scores)).
Proof.
  intros source file.
  cbn [shape_docs RagCli.shape_docs state_doc map od_source sd_metadata sd_source].
  fold source. fold file. unfold py_or.
  destruct (truthy source) eqn:S; cbv iota; rewrite ?S; cbv iota.
  - repeat split. constructor; [left; exact S | constructor].
  - destruct (truthy file) eqn:F; cbv iota; rewrite ?F; cbv iota.
    + repeat split. constructor; [left; exact F | constructor].
    + repeat split. constructor; [right; reflexivity | constructor].
Qed.

(* ------------------------------------------------------------------ *)
(** ** Index construction: which documents go where *)

Lemma string_app_assoc (a b c : string) :
  ((a ++ b) ++ c)%string = (a ++ b ++ c)%string.
Proof. induction a as [|x a IH]; cbn [append]; [reflexivity | now rewrite IH]. Qed.

(** A word of a name occurs wherever the name occurs, whatever follows. *)
Lemma contains_word_of_name (word name a b s x : string) :
  name = (a ++ word ++ b)%string ->
  Str.contains name s = true ->
  Str.contains word (s ++ x)%string = true.
Proof.
  intros -> H. apply contains_split in H. destruct H as (pre & post & ->).
  replace ((pre ++ (a ++ word ++ b) ++ post) ++ x)%string
    with ((pre ++ a) ++ word ++ (b ++ post ++ x))%string.
  - apply contains_app.
  - rewrite !string_app_assoc. reflexivity.
Qed.

Lemma mentions_word (word name a b : string) (d : Document) (source : string) :
  name = (a ++ word ++ b)%string ->
  metadata_get (metadata d) "source" (JStr "") = JStr source ->
  BuildFaiss.mentions word name d =
  Ret (Str.contains word (source ++ Str.take_chars 100 (page_content d))).
Proof.
  intros N S. unfold BuildFaiss.mentions. rewrite S. f_equal.
  destruct (Str.contains name source) eqn:C; [|apply orb_false_r].
  rewrite (contains_word_of_name word name a b source _ N C). reflexivity.
Qed.

(** X21: the condition by which the script picks, among the loaded
    documents, those of a collection holds exactly when the collection's
    word, ["NEC"] or ["Wattmonk"], occurs as written in the document's
    source followed by the first hundred characters of its text; the test on
    the file name never changes the condition. *)
Theorem file_name_test_is_redundant (d : Document) (source : string) :
  metadata_get (metadata d) "source" (JStr "") = JStr source ->
  BuildFaiss.mentions "NEC" BuildFaiss.NEC_NAME d =
    Ret (Str.contains "NEC" (source ++ Str.take_chars 100 (page_content d))) /\
  BuildFaiss.mentions "Wattmonk" BuildFaiss.WM_NAME d =
    Ret (Str.contains "Wattmonk" (source ++ Str.take_chars 100 (page_content d))).
Proof.
  intros S. split.
  - apply (mentions_word "NEC" BuildFaiss.NEC_NAME "2017-" "-Code-2.pdf" d source);
      [reflexivity | exact S].
  - apply (mentions_word "Wattmonk" BuildFaiss.WM_NAME "" " Information.docx" d source);
      [reflexivity | exact S].
Qed.

Lemma file_name_test_is_redundant_witness :
  BuildFaiss.mentions "NEC" BuildFaiss.NEC_NAME
    (sample_doc "Article 250 covers grounding." "/data/2017-NEC-Code-2.pdf") = Ret true /\
  BuildFaiss.mentions "Wattmonk" BuildFaiss.WM_NAME
    (sample_doc "Article 250 covers grounding." "/data/2017-NEC-Code-2.pdf") = Ret false.
Proof.
  exact (file_name_test_is_redundant
           (sample_doc "Article 250 covers grounding." "/data/2017-NEC-Code-2.pdf")
           "/data/2017-NEC-Code-2.pdf" eq_refl).
Defined.

(** X22: without the two source files the script loads nothing and
    writes no index but the marker of an empty collection for both
    collections, ["nec"] first; it does not raise. *)
Theorem main_without_source_files (env : BuildFaiss.Env) (fs : BuildFaiss.Files) :
  BuildFaiss.nec_exists fs = false -> BuildFaiss.wm_exists fs = false ->
  BuildFaiss.load_docs fs = Ret [] /\
  BuildFaiss.main env fs =
    ([BuildFaiss.EmptyMarker "nec"; BuildFaiss.EmptyMarker "wattmonk"], Ret tt).
Proof.
  intros N W.
  assert (L : BuildFaiss.load_docs fs = Ret []).
  { unfold BuildFaiss.load_docs. rewrite N, W. reflexivity. }
  split; [exact L|].
  unfold BuildFaiss.main. rewrite L.
  cbn [BuildFaiss.filter_outcome BuildFaiss.fallback]. rewrite N, W.
  reflexivity.
Qed.

Lemma main_without_source_files_witness :
  let env := BuildFaiss.mkEnv (fun docs => docs) None (fun _ => Raise (ExternalError "invalid literal"))
                              (fun _ _ => Ret tt) in
  let fs := BuildFaiss.mkFiles false false (Raise (ExternalError "no file"))
                               (Raise (ExternalError "no file")) in
  BuildFaiss.load_docs fs = Ret [] /\
  BuildFaiss.main env fs =
    ([BuildFaiss.EmptyMarker "nec"; BuildFaiss.EmptyMarker "wattmonk"], Ret tt).
Proof.
  intros env fs. apply (main_without_source_files env fs); reflexivity.
Defined.
